(** * tabletennis_api: the bulk data-aggregation layer

    A shallow embedding of [tabletennis_api/models.py] and of the bulk
    operations of [tabletennis_api/managers.py] ([EventsManager]), with the
    properties the specification states about them.

    Conventions of the embedding.
    - Python [int] is [Z]; [str] is [string], read as a string of the
      characters below 256, one per [ascii].
    - A Python expression that can raise is a [result]; the exceptions are the
      classes the code can meet, all of them subclasses of [Exception], so a
      handler [except Exception] catches every [exn].
    - The manager methods run in the monad [M]: they thread the trace of the
      requests sent to the remote API and can raise.
    - A [dict] keeps insertion order and is an association list ([Dict]); a
      [set] is a [gset], its iteration order being unspecified in Python. *)

From Stdlib Require Import ZArith QArith Qround Qabs String Ascii List Lia
  DecimalString Sorted Permutation.
From stdpp Require Import gmap strings list.

Local Open Scope string_scope.
Local Open Scope Z_scope.

(** ** Exceptions and fallible expressions *)

Inductive exn : Type :=
| ValueError (msg : string)
| TypeError (msg : string)
| AttributeError (msg : string)
| IndexError (msg : string)
| KeyError (msg : string)
| ZeroDivisionError (msg : string)
| OverflowError (msg : string)
| TableTennisAPIError (msg : string)
| AuthenticationError (msg : string)
| RateLimitError (msg : string)
| ServerError (msg : string).

Inductive result (A : Type) : Type :=
| Ok (a : A)
| Raise (e : exn).

Arguments Ok {A} a.
Arguments Raise {A} e.

Definition rbind {A B : Type} (m : result A) (k : A -> result B) : result B :=
  match m with
  | Ok a => k a
  | Raise e => Raise e
  end.

Notation "'let!' x ':=' m 'in' k" := (rbind m (fun x => k))
  (at level 10, x pattern, m at level 100, k at level 200).

Definition is_ok {A : Type} (r : result A) : bool :=
  match r with Ok _ => true | Raise _ => false end.

(** [rmap f xs] is the comprehension [[f(x) for x in xs]]: elements are
    evaluated from left to right and the first exception escapes. *)
Fixpoint rmap {A B : Type} (f : A -> result B) (xs : list A) : result (list B) :=
  match xs with
  | [] => Ok []
  | x :: xs' =>
      let! y := f x in
      let! ys := rmap f xs' in
      Ok (y :: ys)
  end.

(** [rcount p xs] is [sum(1 for x in xs if p(x))]. *)
Fixpoint rcount {A : Type} (p : A -> result bool) (xs : list A) : result Z :=
  match xs with
  | [] => Ok 0
  | x :: xs' =>
      let! b := p x in
      let! n := rcount p xs' in
      Ok (if b then 1 + n else n)
  end.

(** ** Python primitives on strings and integers *)

Module Py.

(** [str.isspace] on a character below 256: TAB, LF, VT, FF, CR, the four
    separators 0x1c..0x1f, the space, NEL (0x85) and the no-break space
    (0xa0). *)
Definition isspace (c : ascii) : bool :=
  let n := Z.of_N (N_of_ascii c) in
  ((9 <=? n) && (n <=? 13)) || ((28 <=? n) && (n <=? 32))
  || (n =? 133) || (n =? 160).

Fixpoint lstrip_chars (cs : list ascii) : list ascii :=
  match cs with
  | c :: cs' => if isspace c then lstrip_chars cs' else cs
  | [] => []
  end.

Definition strip_chars (cs : list ascii) : list ascii :=
  rev (lstrip_chars (rev (lstrip_chars cs))).

(** [s.strip()] *)
Definition strip (s : string) : string :=
  string_of_list_ascii (strip_chars (list_ascii_of_string s)).

(** [bool(s)] for a string: non-empty. *)
Definition truthy (s : string) : bool :=
  match s with EmptyString => false | String _ _ => true end.

(** [c in s] for a one-character needle. *)
Fixpoint contains (c : ascii) (s : string) : bool :=
  match s with
  | EmptyString => false
  | String d s' => Ascii.eqb c d || contains c s'
  end.

(** [s.split(c)] for a one-character separator: every occurrence cuts, so
    the result has one more element than [s] has occurrences of [c]. *)
Fixpoint split_chars (c : ascii) (cs : list ascii) (cur : list ascii)
  : list string :=
  match cs with
  | [] => [string_of_list_ascii (rev cur)]
  | d :: cs' =>
      if Ascii.eqb c d
      then string_of_list_ascii (rev cur) :: split_chars c cs' []
      else split_chars c cs' (d :: cur)
  end.

Definition split (c : ascii) (s : string) : list string :=
  split_chars c (list_ascii_of_string s) [].

(** [xs[i]] for a non-negative literal index. *)
Definition index {A : Type} (xs : list A) (i : nat) : result A :=
  match nth_error xs i with
  | Some x => Ok x
  | None => Raise (IndexError "list index out of range")
  end.

Definition digit (c : ascii) : option Z :=
  let n := Z.of_N (N_of_ascii c) in
  if (48 <=? n) && (n <=? 57) then Some (n - 48) else None.

(** The digits of an [int()] literal: at least one digit, single
    underscores allowed between digits only. [after_digit] tells whether
    the previous character was a digit. *)
Fixpoint int_digits (cs : list ascii) (acc : Z) (after_digit : bool)
  : option Z :=
  match cs with
  | [] => if after_digit then Some acc else None
  | c :: cs' =>
      if Ascii.eqb c "_"
      then (if after_digit then int_digits cs' acc false else None)
      else match digit c with
           | Some d => int_digits cs' (10 * acc + d) true
           | None => None
           end
  end.

Definition int_literal (cs : list ascii) : option Z :=
  match cs with
  | c :: cs' =>
      if Ascii.eqb c "-" then option_map Z.opp (int_digits cs' 0 false)
      else if Ascii.eqb c "+" then int_digits cs' 0 false
      else int_digits cs 0 false
  | [] => None
  end.

Definition is_digit (c : ascii) : bool :=
  match digit c with Some _ => true | None => false end.

(** [int(s)] in base 10: surrounding whitespace is ignored, then an
    optional sign and the digits; a literal of more than 4300 digits is
    refused ([sys.int_max_str_digits], as set by default). *)
Definition int (s : string) : result Z :=
  let cs := strip_chars (list_ascii_of_string s) in
  match int_literal cs with
  | Some z =>
      if (length (List.filter is_digit cs) <=? 4300)%nat then Ok z
      else Raise (ValueError
                    "Exceeds the limit (4300 digits) for integer string conversion")
  | None => Raise (ValueError "invalid literal for int() with base 10")
  end.

(** [str(n)] for an integer. *)
Definition str_of_int (n : Z) : string :=
  NilZero.string_of_int (Z.to_int n).

(** [a // b] *)
Definition floordiv (a b : Z) : result Z :=
  if b =? 0
  then Raise (ZeroDivisionError "integer division or modulo by zero")
  else Ok (a / b).

(** A quotient too large for a float: it rounds to 2^1024 or beyond. *)
Definition float_overflows (q : Q) : bool :=
  Qle_bool (inject_Z (2 ^ 1024 - 2 ^ 970)) (Qabs q).

(** [a / b] on integers. The float Python returns is the correctly rounded
    value of the rational given here. *)
Definition truediv (a b : Z) : result Q :=
  if b =? 0
  then Raise (ZeroDivisionError "division by zero")
  else if float_overflows (inject_Z a / inject_Z b)
  then Raise (OverflowError "integer division result too large for a float")
  else Ok (inject_Z a / inject_Z b)%Q.

End Py.

(** ** datetime *)

(** A naive [datetime] is the number of microseconds since the epoch on the
  local time axis; [timedelta(days=d)] is [d] days of microseconds. *)
Module Datetime.

Definition t : Type := Z.

Definition timedelta_days (d : Z) : Z := d * 86400 * 1000000.

(** [datetime.fromtimestamp(n)]: the years 1..9999 are representable; the
    exact bounds depend on the platform and the time zone, those of UTC are
    taken. *)
Definition fromtimestamp (n : Z) : result t :=
  if (-62135596800 <=? n) && (n <=? 253402300799)
  then Ok (n * 1000000)
  else Raise (ValueError "year is out of range").

End Datetime.

(** ** Entity models ([models.py]) *)

(** A decoded JSON value, for the payloads the code stores without looking
    inside (the odds summary). *)
#[local] Unset Elimination Schemes.
Inductive json : Type :=
| JNull
| JBool (b : bool)
| JInt (n : Z)
| JStr (s : string)
| JList (items : list json)
| JDict (items : list (string * json)).
#[local] Set Elimination Schemes.

(** [bool(v)] *)
Definition json_truthy (v : json) : bool :=
  match v with
  | JNull => false
  | JBool b => b
  | JInt n => negb (n =? 0)
  | JStr s => Py.truthy s
  | JList items => match items with [] => false | _ => true end
  | JDict items => match items with [] => false | _ => true end
  end.

Module Player.

Record t : Type := mk {
  id : string;
  name : string;
  country_code : option string;
  image_id : option string
}.


Definition is_doubles_pair (p : t) : bool := Py.contains "/" (name p).

Definition has_image (p : t) : bool :=
  match image_id p with Some _ => true | None => false end.

Definition player_names (p : t) : list string :=
  if is_doubles_pair p then map Py.strip (Py.split "/" (name p))
  else [name p].

End Player.

Module TimelineEntry.

Record t : Type := mk {
  id : string;
  game : string;
  team : string;
  score : string
}.


Definition home_score (e : t) : result Z :=
  let! part := Py.index (Py.split "-" (score e)) 0 in
  Py.int part.

Definition away_score (e : t) : result Z :=
  let! part := Py.index (Py.split "-" (score e)) 1 in
  Py.int part.

Definition scoring_team (e : t) : string :=
  if String.eqb (team e) "0" then "home" else "away".

End TimelineEntry.

Module StadiumData.

Record t : Type := mk {
  id : string;
  name : string;
  city : option string;
  country : option string;
  capacity : option Z;
  coordinates : option string
}.

End StadiumData.

Module EventExtra.

Record t : Type := mk {
  best_of_sets : string;
  stadium_data : option StadiumData.t
}.

End EventExtra.

(** The detailed view of an event, as [get_details] returns it. *)
Module Event.

Record t : Type := mk {
  id : string;
  sport_id : string;
  time : string;
  time_status : string;
  league_id : string;
  league_name : string;
  league_country_code : option string;
  home_player : Player.t;
  away_player : Player.t;
  final_score : string;
  game_scores : list (string * list (string * string));
  timeline : list TimelineEntry.t;
  extra : option EventExtra.t;
  inplay_created_at : option string;
  inplay_updated_at : option string;
  confirmed_at : option string;
  bet365_id : option string
}.


Definition is_scheduled (e : t) : bool := String.eqb (time_status e) "1".

Definition is_live (e : t) : bool := String.eqb (time_status e) "2".

Definition is_finished (e : t) : bool := String.eqb (time_status e) "3".

Definition status_description (e : t) : string :=
  if String.eqb (time_status e) "1" then "Scheduled"
  else if String.eqb (time_status e) "2" then "Live"
  else if String.eqb (time_status e) "3" then "Finished"
  else "Unknown".

Definition home_sets_won (e : t) : result Z :=
  let! part := Py.index (Py.split "-" (final_score e)) 0 in
  Py.int part.

Definition away_sets_won (e : t) : result Z :=
  let! part := Py.index (Py.split "-" (final_score e)) 1 in
  Py.int part.

(** [None] if the event is not finished; the comparison reads
    [home_sets_won] first. *)
Definition winner (e : t) : result (option Player.t) :=
  if negb (is_finished e) then Ok None
  else
    let! home_sets := home_sets_won e in
    let! away_sets := away_sets_won e in
    Ok (Some (if home_sets >? away_sets then home_player e
              else away_player e)).

Definition total_points_played (e : t) : Z :=
  Z.of_nat (length (timeline e)).

End Event.

Module EventSummary.

(** [current_score] is declared [str], but the listing endpoints send [null]
    for a match that has not started and the constructor stores it as it
    comes, so [None] is a value of the field. [_view_data] and [_odds_data]
    are the two attributes [get_events_bulk] attaches to an event it has
    resolved; [None] is the attribute not set. *)
Record t : Type := mk {
  id : string;
  sport_id : string;
  time : string;
  time_status : string;
  league_id : string;
  league_name : string;
  league_country_code : option string;
  home_player : Player.t;
  away_player : Player.t;
  current_score : option string;
  game_scores : list (string * list (string * string));
  bet365_id : option string;
  _view_data : option (list Event.t);
  _odds_data : option json
}.

(** [e._view_data = v] and [e._odds_data = v] *)
Definition set_view_data (v : list Event.t) (e : t) : t :=
  mk (id e) (sport_id e) (time e) (time_status e) (league_id e)
    (league_name e) (league_country_code e) (home_player e) (away_player e)
    (current_score e) (game_scores e) (bet365_id e) (Some v) (_odds_data e).

Definition set_odds_data (v : json) (e : t) : t :=
  mk (id e) (sport_id e) (time e) (time_status e) (league_id e)
    (league_name e) (league_country_code e) (home_player e) (away_player e)
    (current_score e) (game_scores e) (bet365_id e) (_view_data e) (Some v).

Definition event_datetime (e : t) : result Datetime.t :=
  let! n := Py.int (time e) in
  Datetime.fromtimestamp n.

Definition is_scheduled (e : t) : bool :=
  String.eqb (time_status e) "0" || String.eqb (time_status e) "1".

Definition is_live (e : t) : bool := String.eqb (time_status e) "2".

Definition is_finished (e : t) : bool := String.eqb (time_status e) "3".

Definition status_description (e : t) : string :=
  if String.eqb (time_status e) "0" then "Upcoming"
  else if String.eqb (time_status e) "1" then "Scheduled"
  else if String.eqb (time_status e) "2" then "Live"
  else if String.eqb (time_status e) "3" then "Finished"
  else "Unknown".

Definition sets_score (e : t) : result (Z * Z) :=
  match current_score e with
  | None => Raise (TypeError "argument of type 'NoneType' is not iterable")
  | Some s =>
      if Py.contains "-" s then
        let parts := Py.split "-" s in
        let! p0 := Py.index parts 0 in
        let! h := Py.int p0 in
        let! p1 := Py.index parts 1 in
        let! a := Py.int p1 in
        Ok (h, a)
      else Ok (0, 0)
  end.

Definition is_winner (e : t) (player_name : string) : result bool :=
  if negb (is_finished e) then Ok false
  else
    let! (home_sets, away_sets) := sets_score e in
    if home_sets >? away_sets
    then Ok (String.eqb (Player.name (home_player e)) player_name)
    else if away_sets >? home_sets
    then Ok (String.eqb (Player.name (away_player e)) player_name)
    else Ok false.

End EventSummary.

Module PaginationInfo.

Record t : Type := mk {
  page : Z;
  per_page : Z;
  total : Z
}.

Definition total_pages (p : t) : result Z :=
  Py.floordiv (total p + per_page p - 1) (per_page p).

Definition has_next_page (p : t) : result bool :=
  let! n := total_pages p in
  Ok (page p <? n).

Definition has_previous_page (p : t) : bool := page p >? 1.

End PaginationInfo.

Module APIResponse.

Record t : Type := mk {
  results : list EventSummary.t;
  pagination : option PaginationInfo.t
}.

(** [response.pager]: the dataclass has the fields [results] and
    [pagination] and no attribute of this name. *)
Definition pager (r : t) : result (option PaginationInfo.t) :=
  Raise (AttributeError "'APIResponse' object has no attribute 'pager'").

End APIResponse.

(** ** Python containers *)

(** A [dict] with string keys: insertion-ordered, an assignment to a key
    already present replaces the value and keeps the key's position. *)
Module Dict.

Definition t (V : Type) : Type := list (string * V).

Definition empty {V : Type} : t V := [].

(** [d[k] = v] *)
Fixpoint set {V : Type} (k : string) (v : V) (d : t V) : t V :=
  match d with
  | [] => [(k, v)]
  | (k', v') :: d' =>
      if String.eqb k' k then (k, v) :: d' else (k', v') :: set k v d'
  end.

Fixpoint get {V : Type} (k : string) (d : t V) : option V :=
  match d with
  | [] => None
  | (k', v') :: d' => if String.eqb k' k then Some v' else get k d'
  end.

Definition keys {V : Type} (d : t V) : list string := map fst d.

(** [list(d.values())] *)
Definition values {V : Type} (d : t V) : list V := map snd d.

End Dict.

(** [sorted(xs)] for the order [le]: a stable sort, elements that compare
    equal keep the order they have in [xs]. [insert_sorted] puts [x] behind
    the elements that are not greater. *)
Fixpoint insert_sorted {A : Type} (le : A -> A -> bool) (x : A) (l : list A)
  : list A :=
  match l with
  | [] => [x]
  | y :: l' => if le y x then y :: insert_sorted le x l' else x :: l
  end.

Definition sorted_by {A : Type} (le : A -> A -> bool) (xs : list A) : list A :=
  fold_left (fun acc x => insert_sorted le x acc) xs [].

(** [xs[-n:]] for a positive [n] *)
Definition last_n {A : Type} (n : nat) (xs : list A) : list A :=
  skipn (length xs - n) xs.

(** [len(xs)] *)
Definition len {A : Type} (xs : list A) : Z := Z.of_nat (length xs).

(** [sum(1 for x in xs if p(x))] for a test that cannot raise. *)
Definition count_if {A : Type} (p : A -> bool) (xs : list A) : Z :=
  len (List.filter p xs).

(** The deduplication both aggregators apply to the matches they gathered:
    [unique = {}; for match in all_matches: unique[match.id] = match;
    list(unique.values())]. [file_matches] is the loop, started from any
    dictionary. *)
Definition file_matches (d : Dict.t EventSummary.t)
    (ms : list EventSummary.t) : Dict.t EventSummary.t :=
  fold_left (fun unique m => Dict.set (EventSummary.id m) m unique) ms d.

Definition unique_by_id (all_matches : list EventSummary.t)
  : list EventSummary.t :=
  Dict.values (file_matches Dict.empty all_matches).

(** The other side of a match, as seen from [player_name]. *)
Definition opponent_of (player_name : string) (m : EventSummary.t) : string :=
  if String.eqb (Player.name (EventSummary.home_player m)) player_name
  then Player.name (EventSummary.away_player m)
  else Player.name (EventSummary.home_player m).

Module PlayerMatchHistory.

(** [tournaments] and [opponents] are built as [list(set(...))]: lists
    without duplicates whose order Python leaves unspecified; they are kept
    as sets. *)
Record t : Type := mk {
  player_name : string;
  matches : list EventSummary.t;
  h2h_records : Dict.t (list EventSummary.t);
  total_matches : Z;
  win_count : Z;
  loss_count : Z;
  date_range_days : Z;
  tournaments : gset string;
  opponents : gset string
}.

Definition win_rate (h : t) : result Q :=
  if total_matches h =? 0 then Ok 0%Q
  else Py.truediv (win_count h) (total_matches h).

Definition from_matches (player_name : string) (matches : list EventSummary.t)
    (h2h_records : Dict.t (list EventSummary.t)) (date_range_days : Z)
  : result t :=
  let! win_count :=
    rcount (fun m => EventSummary.is_winner m player_name) matches in
  let loss_count := len matches - win_count in
  let tournaments : gset string :=
    list_to_set
      (List.filter Py.truthy (map EventSummary.league_name matches)) in
  let opponents : gset string :=
    list_to_set (map (opponent_of player_name) matches) in
  Ok {| player_name := player_name;
        matches := matches;
        h2h_records := h2h_records;
        total_matches := len matches;
        win_count := win_count;
        loss_count := loss_count;
        date_range_days := date_range_days;
        tournaments := tournaments;
        opponents := opponents |}.


(** [sorted(self.matches, key=lambda m: m.event_datetime or
    datetime.min)[-10:]]: the keys of all the matches are computed first, in
    order (a [datetime] is always true, so the key is the date). *)
Definition recent_matches (h : t) : result (list EventSummary.t) :=
  let! keys := rmap EventSummary.event_datetime (matches h) in
  let sorted_matches :=
    map snd
      (sorted_by (fun a b : Datetime.t * EventSummary.t => fst a <=? fst b)
         (combine keys (matches h))) in
  Ok (last_n 10 sorted_matches).

Definition recent_form (h : t) : result (list bool) :=
  let! last_matches := recent_matches h in
  rmap (fun m => EventSummary.is_winner m (player_name h)) last_matches.

End PlayerMatchHistory.

Module TournamentData.

Record t : Type := mk {
  tournament_id : string;
  tournament_name : string;
  matches : list EventSummary.t;
  players : list Player.t;
  total_matches : Z;
  completed_matches : Z;
  live_matches : Z;
  upcoming_matches : Z;
  date_range : option Datetime.t * option Datetime.t;
  has_odds_data : bool
}.

Definition completion_rate (d : t) : result Q :=
  if total_matches d =? 0 then Ok 0%Q
  else Py.truediv (completed_matches d) (total_matches d).

(** One step of the roster loop: [if player.id not in seen_player_ids:
    players.append(player); seen_player_ids.add(player.id)]. *)
Definition add_player (acc : list Player.t * gset string) (p : Player.t)
  : list Player.t * gset string :=
  let '(players, seen_player_ids) := acc in
  if bool_decide (Player.id p ∈ seen_player_ids)
  then acc
  else ((players ++ [p])%list, seen_player_ids ∪ {[Player.id p]}).

Definition roster (matches : list EventSummary.t) : list Player.t :=
  fst (fold_left add_player
         (flat_map (fun m => [EventSummary.home_player m;
                              EventSummary.away_player m]) matches)
         ([], ∅)).

(** [min(dates)] and [max(dates)] of a non-empty list. *)
Definition min_date (d : Datetime.t) (ds : list Datetime.t) : Datetime.t :=
  fold_left Z.min ds d.

Definition max_date (d : Datetime.t) (ds : list Datetime.t) : Datetime.t :=
  fold_left Z.max ds d.

(** [has_odds_data] defaults to [False] in the source. The comprehension for
    [dates] reads [event_datetime] of every match (a [datetime] is always
    true), so a match whose [time] is not a timestamp makes the constructor
    raise. *)
Definition from_matches (tournament_id tournament_name : string)
    (matches : list EventSummary.t) (has_odds_data : bool) : result t :=
  let completed := count_if EventSummary.is_finished matches in
  let live := count_if EventSummary.is_live matches in
  let upcoming := count_if EventSummary.is_scheduled matches in
  let players := roster matches in
  let! dates := rmap EventSummary.event_datetime matches in
  let date_range :=
    match dates with
    | [] => (None, None)
    | d :: ds => (Some (min_date d ds), Some (max_date d ds))
    end in
  Ok {| tournament_id := tournament_id;
        tournament_name := tournament_name;
        matches := matches;
        players := players;
        total_matches := len matches;
        completed_matches := completed;
        live_matches := live;
        upcoming_matches := upcoming;
        date_range := date_range;
        has_odds_data := has_odds_data |}.


(** [sorted(list(player_names))], the names compared character by
    character. *)
Definition unique_players (d : t) : list string :=
  let player_names : gset string :=
    list_to_set
      (flat_map (fun m => [Player.name (EventSummary.home_player m);
                           Player.name (EventSummary.away_player m)])
         (matches d)) in
  sorted_by String.leb (elements player_names).

End TournamentData.

(** ** The remote API and the request monad *)

Inductive endpoint : Type := Ended | Upcoming | Inplay.

(** One request sent to the remote API together with what came back: the
    decoded answer, or the exception the transport or the decoding raised. *)
Inductive exchange : Type :=
| Listed (ep : endpoint) (league_id : option string) (page : Z)
    (reply : result APIResponse.t)
| Viewed (event_ids : list string) (reply : result (list Event.t))
| OddsSummarised (event_id : string) (reply : result json).

Definition trace : Type := list exchange.

(** The remote side. Its answer may depend on everything exchanged so far,
    so a backend can fail on some calls, change between calls, or answer the
    same request differently the second time. *)
Record Backend : Type := mkBackend {
  events : trace -> endpoint -> option string -> Z -> result APIResponse.t;
  event_view : trace -> list string -> result (list Event.t);
  odds_summary : trace -> string -> result json
}.

Definition M (A : Type) : Type := trace -> result A * trace.

Definition ret {A : Type} (a : A) : M A := fun t => (Ok a, t).

Definition raise {A : Type} (e : exn) : M A := fun t => (Raise e, t).

Definition lift {A : Type} (r : result A) : M A := fun t => (r, t).

Definition bind {A B : Type} (m : M A) (k : A -> M B) : M B :=
  fun t =>
    match m t with
    | (Ok a, t') => k a t'
    | (Raise e, t') => (Raise e, t')
    end.

(** [try: m except Exception as e: h e] *)
Definition try_except {A : Type} (m : M A) (h : exn -> M A) : M A :=
  fun t =>
    match m t with
    | (Ok a, t') => (Ok a, t')
    | (Raise e, t') => h e t'
    end.

(** Runs [m] and hands its outcome over as a value; used where the handler
    of a [try] needs the local variables as they are at the raise. *)
Definition attempt {A : Type} (m : M A) : M (result A) :=
  fun t => let '(r, t') := m t in (Ok r, t').

Notation "'let*' x ':=' m 'in' k" := (bind m (fun x => k))
  (at level 10, x pattern, m at level 100, k at level 200).

(** Loop control: what the body of a loop asks for when it ends. *)
Inductive ctl : Type := Continue | Break.

(** [for x in xs: body], the body threading the loop's variables [s]. *)
Fixpoint for_each {A S : Type} (body : A -> S -> M (S * ctl)) (xs : list A)
    (s : S) : M S :=
  match xs with
  | [] => ret s
  | x :: xs' =>
      let* (s', c) := body x s in
      match c with
      | Break => ret s'
      | Continue => for_each body xs' s'
      end
  end.

(** [page = first; while page <= max_pages: body; page += 1]. The loop runs
    at most [max_pages + 1 - first] times, which is the fuel [while_pages]
    gives it. *)
Fixpoint while_le {S : Type} (body : Z -> S -> M (S * ctl)) (fuel : nat)
    (page max_pages : Z) (s : S) : M S :=
  match fuel with
  | O => ret s
  | Datatypes.S fuel' =>
      if page <=? max_pages then
        let* (s', c) := body page s in
        match c with
        | Break => ret s'
        | Continue => while_le body fuel' (page + 1) max_pages s'
        end
      else ret s
  end.

Definition while_pages {S : Type} (body : Z -> S -> M (S * ctl))
    (first max_pages : Z) (s : S) : M S :=
  while_le body (Z.to_nat (max_pages + 1 - first)) first max_pages s.

(** [[x for x in xs if p(x)]] for a test that can raise. *)
Fixpoint rfilter {A : Type} (p : A -> result bool) (xs : list A)
  : result (list A) :=
  match xs with
  | [] => Ok []
  | x :: xs' =>
      let! b := p x in
      let! ys := rfilter p xs' in
      Ok (if b then x :: ys else ys)
  end.

Definition is_empty {A : Type} (xs : list A) : bool :=
  match xs with [] => true | _ => false end.

(** An identifier given as [Union[str, int]]. *)
Inductive py_id : Type :=
| IdStr (s : string)
| IdInt (n : Z).

(** [str(i)] *)
Definition py_str (i : py_id) : string :=
  match i with
  | IdStr s => s
  | IdInt n => Py.str_of_int n
  end.

(** [bool(i)] *)
Definition py_id_truthy (i : py_id) : bool :=
  match i with
  | IdStr s => Py.truthy s
  | IdInt n => negb (n =? 0)
  end.

(** ** EventsManager ([managers.py]) *)

Section EventsManager.

(** The remote API the client talks to, and the reading of the clock
    ([datetime.now()], taken constant during one call). *)
Variable backend : Backend.
Variable now : Datetime.t.

(** [params["league_id"]] is set only [if league_id:]. *)
Definition league_param (league_id : option string) : option string :=
  match league_id with
  | Some s => if Py.truthy s then Some s else None
  | None => None
  end.

(** [self._make_request("GET", "events/...", params=params)] followed by the
    decoding of the pager and of the results. *)
Definition request_events (ep : endpoint) (league_id : option string)
    (page : Z) : M APIResponse.t :=
  fun t =>
    let reply := events backend t ep league_id page in
    (reply, (t ++ [Listed ep league_id page reply])%list).

Definition request_view (event_ids : list string) : M (list Event.t) :=
  fun t =>
    let reply := event_view backend t event_ids in
    (reply, (t ++ [Viewed event_ids reply])%list).

Definition request_odds_summary (event_id : string) : M json :=
  fun t =>
    let reply := odds_summary backend t event_id in
    (reply, (t ++ [OddsSummarised event_id reply])%list).

Definition list_events (ep : endpoint) (league_id : option string) (page : Z)
  : M APIResponse.t :=
  if page <? 1 then raise (ValueError "Page number must be >= 1")
  else request_events ep (league_param league_id) page.

Definition get_inplay := list_events Inplay.
Definition get_upcoming := list_events Upcoming.
Definition get_ended := list_events Ended.

(** [get_details] for a list of identifiers already turned into strings. *)
Definition get_details (event_ids : list string) : M (list Event.t) :=
  if len event_ids >? 10
  then raise (ValueError "Maximum 10 event IDs allowed per request")
  else request_view event_ids.

(** [self.client.odds.get_summary(event_id)] *)
Definition odds_get_summary (event_id : string) : M json :=
  request_odds_summary event_id.

(** *** get_player_history *)

(** The test of [_get_recent_player_matches] on one event: the player takes
    part, and [event.event_datetime and event.event_datetime >= cutoff_date]
    (the property is read twice; a [datetime] is always true). *)
Definition recent_match (player_name : string) (cutoff_date : Datetime.t)
    (event : EventSummary.t) : result bool :=
  if String.eqb (Player.name (EventSummary.home_player event)) player_name
     || String.eqb (Player.name (EventSummary.away_player event)) player_name
  then
    let! _ := EventSummary.event_datetime event in
    let! d := EventSummary.event_datetime event in
    Ok (d >=? cutoff_date)
  else Ok false.

(** The body of the [while] of [_get_recent_player_matches]. The whole body
    is inside [try ... except Exception: break]; [matches] keeps what it
    held when the exception was raised. *)
Definition recent_page (player_name : string) (cutoff_date : Datetime.t)
    (page : Z) (matches : list EventSummary.t)
  : M (list EventSummary.t * ctl) :=
  let* fetched := attempt (get_ended None page) in
  match fetched with
  | Raise _ => ret (matches, Break)
  | Ok response =>
      match rfilter (recent_match player_name cutoff_date)
              (APIResponse.results response) with
      | Raise _ => ret (matches, Break)
      | Ok page_matches =>
          let matches := (matches ++ page_matches)%list in
          if is_empty page_matches && (page >? 1) then ret (matches, Break)
          else
            match APIResponse.pagination response with
            | None => ret (matches, Break)
            | Some pagination =>
                match PaginationInfo.has_next_page pagination with
                | Raise _ => ret (matches, Break)
                | Ok false => ret (matches, Break)
                | Ok true => ret (matches, Continue)
                end
            end
      end
  end.

Definition _get_recent_player_matches (player_name : string) (days : Z)
    (max_pages : Z) : M (list EventSummary.t) :=
  let cutoff_date := now - Datetime.timedelta_days days in
  while_pages (recent_page player_name cutoff_date) 1 max_pages [].

Definition _get_h2h_matches (player1 player2 : string) (days : Z)
  : M (list EventSummary.t) :=
  try_except
    (let* recent_matches := _get_recent_player_matches player1 days 5 in
     ret (List.filter
            (fun m => String.eqb (opponent_of player1 m) player2)
            recent_matches))
    (fun _ => ret []).

(** One turn of the loop over the opponents. *)
Definition h2h_step (player_name : string) (days : Z) (opponent : string)
    (h2h_records : Dict.t (list EventSummary.t))
  : M (Dict.t (list EventSummary.t) * ctl) :=
  try_except
    (let* h2h_matches := _get_h2h_matches player_name opponent (days * 2) in
     if is_empty h2h_matches then ret (h2h_records, Continue)
     else ret (Dict.set opponent h2h_matches h2h_records, Continue))
    (fun _ => ret (h2h_records, Continue)).

(** [list(opponents)[:10]] takes ten opponents in the iteration order of a
    Python set, which the language leaves unspecified; the model takes them
    in the order [elements] gives. *)
Definition get_player_history (player_name : string) (days : Z)
    (include_h2h : bool) (max_pages : Z) : M PlayerMatchHistory.t :=
  if negb (Py.truthy player_name) || negb (Py.truthy (Py.strip player_name))
  then raise (ValueError "player_name cannot be empty")
  else if (days <? 1) || (days >? 365)
  then raise (ValueError "days must be between 1 and 365")
  else if (max_pages <? 1) || (max_pages >? 50)
  then raise (ValueError "max_pages must be between 1 and 50")
  else
    let* all_matches :=
      try_except
        (let* recent_matches :=
           _get_recent_player_matches player_name days max_pages in
         ret recent_matches)
        (fun _ => ret []) in
    let all_matches := unique_by_id all_matches in
    let* h2h_records :=
      if include_h2h && negb (is_empty all_matches) then
        let opponents : gset string :=
          list_to_set (map (opponent_of player_name) all_matches) in
        for_each (h2h_step player_name days) (take 10 (elements opponents))
          Dict.empty
      else ret Dict.empty in
    lift (PlayerMatchHistory.from_matches player_name all_matches
            h2h_records days).

(** *** get_tournament_complete *)

(** The body of the [while] of [_get_tournament_matches], inside
    [try ... except Exception: break]. *)
Definition tournament_page (tournament_id match_type : string) (page : Z)
    (matches : list EventSummary.t) : M (list EventSummary.t * ctl) :=
  let fetch : option (M APIResponse.t) :=
    if String.eqb match_type "ended" then Some (get_ended None page)
    else if String.eqb match_type "upcoming" then Some (get_upcoming None page)
    else if String.eqb match_type "live" then Some (get_inplay None page)
    else None in
  match fetch with
  | None => ret (matches, Break)
  | Some get =>
      let* fetched := attempt get in
      match fetched with
      | Raise _ => ret (matches, Break)
      | Ok response =>
          let tournament_matches :=
            List.filter
              (fun event =>
                 String.eqb (EventSummary.league_id event) tournament_id)
              (APIResponse.results response) in
          let matches := (matches ++ tournament_matches)%list in
          if is_empty tournament_matches && (page >? 1)
          then ret (matches, Break)
          else
            match APIResponse.pagination response with
            | None => ret (matches, Break)
            | Some pagination =>
                match PaginationInfo.has_next_page pagination with
                | Raise _ => ret (matches, Break)
                | Ok false => ret (matches, Break)
                | Ok true => ret (matches, Continue)
                end
            end
      end
  end.

Definition _get_tournament_matches (tournament_id match_type : string)
    (max_pages : Z) : M (list EventSummary.t) :=
  while_pages (tournament_page tournament_id match_type) 1 max_pages [].

(** [not tournament_name] for a name that starts as [None]. *)
Definition no_name (tournament_name : option string) : bool :=
  match tournament_name with
  | None => true
  | Some s => negb (Py.truthy s)
  end.

(** One of the three [try] blocks: fetch a partition, extend [all_matches],
    and take the tournament name from the first match if none is known. *)
Definition collect_partition (tournament_id match_type : string)
    (max_pages_per_type : Z)
    (st : list EventSummary.t * option string)
  : M (list EventSummary.t * option string) :=
  try_except
    (let* found :=
       _get_tournament_matches tournament_id match_type max_pages_per_type in
     let '(all_matches, tournament_name) := st in
     ret ((all_matches ++ found)%list,
          match found with
          | first :: _ =>
              if no_name tournament_name
              then Some (EventSummary.league_name first)
              else tournament_name
          | [] => tournament_name
          end))
    (fun _ => ret st).

(** The three partitions in the order of the source: ended, upcoming, live. *)
Definition collect_partitions (tournament_id : string)
    (max_pages_per_type : Z) : M (list EventSummary.t * option string) :=
  let* st := collect_partition tournament_id "ended" max_pages_per_type
               ([], None) in
  let* st := collect_partition tournament_id "upcoming" max_pages_per_type
               st in
  collect_partition tournament_id "live" max_pages_per_type st.

(** One turn of the loop over the sampled matches. *)
Definition odds_step (m : EventSummary.t) (odds_found : Z) : M (Z * ctl) :=
  try_except
    (let* odds := odds_get_summary (EventSummary.id m) in
     ret (if json_truthy odds then odds_found + 1 else odds_found, Continue))
    (fun _ => ret (odds_found, Continue)).

Definition get_tournament_complete (tournament_id : py_id)
    (include_odds : bool) (max_pages_per_type : Z) : M TournamentData.t :=
  if negb (py_id_truthy tournament_id)
     || String.eqb (Py.strip (py_str tournament_id)) ""
  then raise (ValueError "tournament_id cannot be empty")
  else if (max_pages_per_type <? 1) || (max_pages_per_type >? 20)
  then raise (ValueError "max_pages_per_type must be between 1 and 20")
  else
    let tournament_id := py_str tournament_id in
    let* (all_matches, tournament_name) :=
      collect_partitions tournament_id max_pages_per_type in
    let all_matches := unique_by_id all_matches in
    let tournament_name :=
      if no_name tournament_name then "Tournament " ++ tournament_id
      else default "" tournament_name in
    let* has_odds_data :=
      if include_odds && negb (is_empty all_matches) then
        let sample_matches := take 3 all_matches in
        let* odds_found := for_each odds_step sample_matches 0 in
        ret (odds_found >? 0)
      else ret false in
    lift (TournamentData.from_matches tournament_id tournament_name
            all_matches has_odds_data).

(** *** get_events_bulk *)

(** [method_map[event_type]] *)
Definition method_map (event_type : string)
  : result (Z -> M APIResponse.t) :=
  if String.eqb event_type "ended" then Ok (get_ended None)
  else if String.eqb event_type "upcoming" then Ok (get_upcoming None)
  else if String.eqb event_type "inplay" then Ok (get_inplay None)
  else Raise (KeyError event_type).

(** The enrichment of a resolved event: each of the two fetches is inside
    its own [try ... except Exception: pass]. [hasattr(self.client, "odds")]
    holds for the client of [client.py]. *)
Definition enrich (include_odds include_view : bool) (event : EventSummary.t)
  : M EventSummary.t :=
  let* event :=
    if include_view then
      try_except
        (let* view_data := get_details [EventSummary.id event] in
         ret (EventSummary.set_view_data view_data event))
        (fun _ => ret event)
    else ret event in
  if include_odds then
    try_except
      (let* odds_data := odds_get_summary (EventSummary.id event) in
       ret (EventSummary.set_odds_data odds_data event))
      (fun _ => ret event)
  else ret event.

(** The variables the scan updates in place: [results] and [not_found]. *)
Definition scan_state : Type := Dict.t EventSummary.t * gset string.

(** The body of [for event in response.results]. The event stored in
    [results] is the object the enrichment then writes to, so the stored
    event is the enriched one. *)
Definition scan_event (include_odds include_view : bool)
    (event : EventSummary.t) (st : scan_state) : M (scan_state * ctl) :=
  let '(results, not_found) := st in
  if bool_decide (EventSummary.id event ∈ not_found) then
    let* enriched := enrich include_odds include_view event in
    ret ((Dict.set (EventSummary.id event) enriched results,
          not_found ∖ {[EventSummary.id event]}), Continue)
  else ret (st, Continue).

(** [not response.pager or response.pager.page >=
    response.pager.total // response.pager.per_page] *)
Definition last_page (response : APIResponse.t) : result bool :=
  let! pager := APIResponse.pager response in
  match pager with
  | None => Ok true
  | Some p =>
      let! pages :=
        Py.floordiv (PaginationInfo.total p) (PaginationInfo.per_page p) in
      Ok (PaginationInfo.page p >=? pages)
  end.

(** The body of [for page in range(1, 6)]. The loop is inside the [try] of
    the event type, whose handler moves on to the next type: an exception
    ends the loop over the pages, [results] and [not_found] keeping what
    they held when it was raised. *)
Definition scan_page (include_odds include_view : bool)
    (method : Z -> M APIResponse.t) (page : Z) (st : scan_state)
  : M (scan_state * ctl) :=
  let* fetched := attempt (method page) in
  match fetched with
  | Raise _ => ret (st, Break)
  | Ok response =>
      if is_empty (APIResponse.results response) then ret (st, Break)
      else
        let* st :=
          for_each (scan_event include_odds include_view)
            (APIResponse.results response) st in
        if bool_decide (snd st = ∅) then ret (st, Break)
        else
          match last_page response with
          | Raise _ => ret (st, Break)
          | Ok true => ret (st, Break)
          | Ok false => ret (st, Continue)
          end
  end.

(** The body of [for event_type in event_types]. *)
Definition scan_type (include_odds include_view : bool)
    (event_type : string) (st : scan_state) : M (scan_state * ctl) :=
  if bool_decide (snd st = ∅) then ret (st, Break)
  else
    match method_map event_type with
    | Raise _ => ret (st, Continue)
    | Ok method =>
        let* st :=
          for_each (scan_page include_odds include_view method)
            [1; 2; 3; 4; 5] st in
        ret (st, Continue)
    end.

Definition get_events_bulk (event_ids : list py_id)
    (include_odds include_view : bool) : M (Dict.t EventSummary.t) :=
  if is_empty event_ids
  then raise (ValueError "event_ids cannot be empty")
  else if len event_ids >? 100
  then raise (ValueError "Cannot request more than 100 events at once")
  else
    let str_event_ids := map py_str event_ids in
    let event_types := ["ended"; "upcoming"; "inplay"] in
    let* (results, not_found) :=
      for_each (scan_type include_odds include_view) event_types
        (Dict.empty, list_to_set str_event_ids) in
    ret results.

End EventsManager.

(** ** Sample data

    Events and backends the examples below run the code on. *)

Module Sample.

Definition player (id name : string) : Player.t :=
  Player.mk id name None None.

(** A listing entry of league 29128 played at 2025-07-29 (timestamp
    1753811400) between A (home) and B (away). *)
Definition event (id time_status : string) (score : option string)
  : EventSummary.t :=
  EventSummary.mk id "92" "1753811400" time_status "29128" "TT Cup" None
    (player "1" "A") (player "2" "B") score [] None None None.

Definition finished (id score : string) : EventSummary.t :=
  event id "3" (Some score).

(** Ten days after the sample events, in microseconds. *)
Definition now : Datetime.t := (1753811400 + 10 * 86400) * 1000000.

Definition page_of (events : list EventSummary.t) : APIResponse.t :=
  APIResponse.mk events
    (Some (PaginationInfo.mk 1 50 (Z.of_nat (length events)))).

(** A backend whose ended partition holds [ended] on its first page, whose
    upcoming and live partitions hold [upcoming] and [live], and which has
    neither detailed views nor odds. *)
Definition backend_of (ended upcoming live : list EventSummary.t) : Backend :=
  mkBackend
    (fun _ ep _ page =>
       if page =? 1 then
         match ep with
         | Ended => Ok (page_of ended)
         | Upcoming => Ok (page_of upcoming)
         | Inplay => Ok (page_of live)
         end
       else Ok (page_of []))
    (fun _ _ => Raise (TableTennisAPIError "API error: not found"))
    (fun _ _ => Ok (JDict [])).

(** A backend on which every request fails. *)
Definition failing : Backend :=
  mkBackend
    (fun _ _ _ _ => Raise (ServerError "API server error"))
    (fun _ _ => Raise (ServerError "API server error"))
    (fun _ _ => Raise (ServerError "API server error")).

End Sample.

(** ** Vocabulary of the statements *)

Local Open Scope list_scope.

(** A match that is neither finished, nor live, nor scheduled: its
    [time_status] is none of the codes 0, 1, 2, 3. *)
Definition other_status (m : EventSummary.t) : bool :=
  negb (EventSummary.is_finished m || EventSummary.is_live m
        || EventSummary.is_scheduled m).

(** The events of the listing pages a trace holds: what a scan of the
    partitions has come across. *)
Definition listed_events (t : trace) : list EventSummary.t :=
  flat_map
    (fun x =>
       match x with
       | Listed _ _ _ (Ok response) => APIResponse.results response
       | _ => []
       end) t.

Definition listed_ids (t : trace) : list string :=
  map EventSummary.id (listed_events t).

(** The parameters [get_player_history] rejects. *)
Definition invalid_history_request (player_name : string) (days max_pages : Z)
  : Prop :=
  Py.strip player_name = "" \/ days < 1 \/ 365 < days
  \/ max_pages < 1 \/ 50 < max_pages.

(** A run of decimal digits, at most 4300 of them, and the integer it
    writes. *)
Definition decimal_value (cs : list ascii) : Z :=
  fold_left (fun acc c => 10 * acc + default 0 (Py.digit c)) cs 0.

Definition numeral (cs : list ascii) : Prop :=
  cs <> [] /\ Forall (fun c => Py.is_digit c = true) cs
  /\ (length cs <= 4300)%nat.

(** The request of an exchange, without the reply. *)
Inductive request : Type :=
| ReqEvents (ep : endpoint) (league_id : option string) (page : Z)
| ReqView (event_ids : list string)
| ReqOdds (event_id : string).

Definition request_of (x : exchange) : request :=
  match x with
  | Listed ep league_id page _ => ReqEvents ep league_id page
  | Viewed event_ids _ => ReqView event_ids
  | OddsSummarised event_id _ => ReqOdds event_id
  end.

Definition requests (t : trace) : list request := map request_of t.

(** The two sides of every match, in the order the roster loop visits
    them. *)
Definition participants (ms : list EventSummary.t) : list Player.t :=
  flat_map (fun m => [EventSummary.home_player m; EventSummary.away_player m])
    ms.

(** [m1] is not played after [m2]. *)
Definition not_after (m1 m2 : EventSummary.t) : Prop :=
  exists d1 d2,
    EventSummary.event_datetime m1 = Ok d1
    /\ EventSummary.event_datetime m2 = Ok d2
    /\ d1 <= d2.

(** The number of occurrences of the character [c] in [s]. *)
Definition count_char (c : ascii) (s : string) : nat :=
  length (List.filter (Ascii.eqb c) (list_ascii_of_string s)).

(** The endpoint [_get_tournament_matches] walks for a match type, if it
    knows the type. *)
Definition partition_endpoint (match_type : string) : option endpoint :=
  if String.eqb match_type "ended" then Some Ended
  else if String.eqb match_type "upcoming" then Some Upcoming
  else if String.eqb match_type "live" then Some Inplay
  else None.

(** The match is one of [player_name], played at [cutoff_date] or later. *)
Definition recent_for (player_name : string) (cutoff_date : Datetime.t)
    (m : EventSummary.t) : Prop :=
  (Player.name (EventSummary.home_player m) = player_name
   \/ Player.name (EventSummary.away_player m) = player_name)
  /\ exists d, EventSummary.event_datetime m = Ok d /\ cutoff_date <= d.


(** An odds summary that came back and is not empty. *)
Definition truthy_odds (x : exchange) : bool :=
  match x with
  | OddsSummarised _ (Ok odds) => json_truthy odds
  | _ => false
  end.

(** The requests for the odds summaries of the matches [ms], in order. *)
Definition odds_requests (ms : list EventSummary.t) : list request :=
  map (fun m => ReqOdds (EventSummary.id m)) ms.

(** The parameters [get_tournament_complete] rejects. *)
Definition invalid_tournament_request (tournament_id : py_id)
    (max_pages_per_type : Z) : Prop :=
  py_id_truthy tournament_id = false
  \/ Py.strip (py_str tournament_id) = ""
  \/ max_pages_per_type < 1 \/ 20 < max_pages_per_type.

(** The league names of the first match of each partition that has one. *)
Definition head_names (partitions : list (list EventSummary.t))
  : list string :=
  flat_map
    (fun found =>
       match found with
       | first :: _ => [EventSummary.league_name first]
       | [] => []
       end) partitions.

(** Every listing request fails on the backend. *)
Definition listing_fails (backend : Backend) : Prop :=
  forall t ep league_id page, is_ok (events backend t ep league_id page) = false.

(** A request for a page of ended matches, of no league in particular. *)
Definition ended_page (r : request) : Prop :=
  exists page, 1 <= page /\ r = ReqEvents Ended None page.

Definition is_listing (r : request) : bool :=
  match r with
  | ReqEvents _ _ _ => true
  | _ => false
  end.

(** What a walk over the pages of [ep] for a tournament leaves: the matches
    [found] are those of the tournament among the events listed in the
    exchanges [s], which ask for the pages 1 to [k]. *)
Definition walked (tournament_id : string) (ep : endpoint) (max_pages : Z)
    (found : list EventSummary.t) (s : trace) : Prop :=
  found
  = List.filter
      (fun event => String.eqb (EventSummary.league_id event) tournament_id)
      (listed_events s)
  /\ exists k,
       1 <= k <= max_pages
       /\ requests s = map (ReqEvents ep None) (seqZ 1 k).

(** An entry of the head-to-head records of [player_name]: matches of the
    player against the opponent the entry is filed under, none of them
    played before [cutoff_date], and at least one. *)
Definition h2h_entry (player_name : string) (cutoff_date : Datetime.t)
    (kv : string * list EventSummary.t) : Prop :=
  snd kv <> []
  /\ Forall
       (fun m =>
          recent_for player_name cutoff_date m
          /\ opponent_of player_name m = fst kv)
       (snd kv).

(** The requests the enrichment of the event of identifier [i] sends: its
    detailed view if asked for, then its odds summary if asked for. *)
Definition enrich_requests (include_odds include_view : bool) (i : string)
  : list request :=
  (if include_view then [ReqView [i]] else [])
  ++ (if include_odds then [ReqOdds i] else []).

(** The lists of identifiers [get_events_bulk] rejects. *)
Definition invalid_bulk_request (event_ids : list py_id) : Prop :=
  event_ids = [] \/ (100 < length event_ids)%nat.

(** [e] is the listed event [ev] after the enrichment: the same summary,
    the two attached attributes possibly set, and only those asked for. *)
Definition enriched (include_odds include_view : bool)
    (ev e : EventSummary.t) : Prop :=
  exists view odds,
    e = EventSummary.mk (EventSummary.id ev) (EventSummary.sport_id ev)
          (EventSummary.time ev) (EventSummary.time_status ev)
          (EventSummary.league_id ev) (EventSummary.league_name ev)
          (EventSummary.league_country_code ev) (EventSummary.home_player ev)
          (EventSummary.away_player ev) (EventSummary.current_score ev)
          (EventSummary.game_scores ev) (EventSummary.bet365_id ev) view odds
    /\ (include_view = false -> view = EventSummary._view_data ev)
    /\ (include_odds = false -> odds = EventSummary._odds_data ev).

(** The entries [added] to the result come from the events [evs]. *)
Definition added_from (include_odds include_view : bool)
    (evs : list EventSummary.t) (added : Dict.t EventSummary.t) : Prop :=
  Forall
    (fun kv =>
       exists ev,
         In ev evs /\ EventSummary.id ev = fst kv
         /\ enriched include_odds include_view ev (snd kv))
    added.

(** A date the [datetime] type can hold: the years 1 to 9999, to the
    microsecond. *)
Definition representable (d : Datetime.t) : Prop :=
  -62135596800 * 1000000 <= d <= 253402300799 * 1000000 + 999999.

(** [outcome P m Q]: run from a trace satisfying [P], the computation [m]
    ends, with a value or an exception, in a trace that [Q] relates to the
    outcome. [safe P m Q] adds that [m] does not raise. *)
Definition outcome {A : Type} (P : trace -> Prop) (m : M A)
    (Q : result A -> trace -> Prop) : Prop :=
  forall t, P t -> Q (fst (m t)) (snd (m t)).

Definition safe {A : Type} (P : trace -> Prop) (m : M A)
    (Q : A -> trace -> Prop) : Prop :=
  outcome P m (fun r t => exists a, r = Ok a /\ Q a t).

(** Every entry of the dictionary is filed under the identifier of its
    match. *)
Definition keyed_by_id (d : Dict.t EventSummary.t) : Prop :=
  Forall (fun kv => EventSummary.id (snd kv) = fst kv) d.

(** The number of matches of [ms] filed under the identifier [i]. *)
Definition occurrences (i : string) (ms : list EventSummary.t) : nat :=
  length (List.filter (fun m => String.eqb (EventSummary.id m) i) ms).

(** The trace holds at least [n] exchanges. *)
Definition grown (n : nat) (t : trace) : Prop := (n <= length t)%nat.

(** The counts of a tournament in terms of its own list of matches. *)
Definition tournament_counts (d : TournamentData.t) : Prop :=
  TournamentData.total_matches d = len (TournamentData.matches d)
  /\ TournamentData.completed_matches d + TournamentData.live_matches d
     + TournamentData.upcoming_matches d
     = TournamentData.total_matches d
       - count_if other_status (TournamentData.matches d).

(** The three walks of [get_tournament_complete], one after the other. *)
Definition partitions_of (backend : Backend) (tournament_id : string)
    (max_pages : Z) (t : trace)
    (ended upcoming live : list EventSummary.t) : Prop :=
  exists t1 t2 t3,
    _get_tournament_matches backend tournament_id "ended" max_pages t
    = (Ok ended, t1)
    /\ _get_tournament_matches backend tournament_id "upcoming" max_pages t1
       = (Ok upcoming, t2)
    /\ _get_tournament_matches backend tournament_id "live" max_pages t2
       = (Ok live, t3).

(** What the scan knows when the identifiers [X] have been come across:
    [not_found] holds the requested identifiers not among them, [results]
    is keyed by the requested identifiers among them, each entry under the
    identifier of its event. *)
Definition scan_inv (R X : list string) (st : scan_state) : Prop :=
  (forall i, i ∈ snd st <-> In i R /\ ~ In i X)
  /\ (forall i, In i (Dict.keys (fst st)) <-> In i R /\ In i X)
  /\ keyed_by_id (fst st)
  /\ List.NoDup (Dict.keys (fst st)).

(** [t] extends [t1] by exchanges that list no event. *)
Definition ext_quiet (t1 t : trace) : Prop :=
  exists q, t = (t1 ++ q)%list /\ listed_events q = [].

(** [t] extends [t0], and the scan is up to date with the events listed
    since. *)
Definition scanned (t0 : trace) (R : list string) (st : scan_state)
    (t : trace) : Prop :=
  exists s, t = (t0 ++ s)%list /\ scan_inv R (listed_ids s) st.

(** ** Entity models: properties *)

Lemma len_nonneg {A : Type} (xs : list A) : 0 <= len xs.
Proof. unfold len. lia. Qed.

Lemma len_cons {A : Type} (x : A) (xs : list A) : len (x :: xs) = 1 + len xs.
Proof. unfold len. cbn [length]. lia. Qed.

Lemma truthy_empty (s : string) : Py.truthy s = false <-> s = "".
Proof. destruct s; cbn; split; congruence. Qed.

(** *** Pagination *)

Lemma ceil_div_bounds (total per_page : Z) :
  1 <= per_page ->
  let k := (total + per_page - 1) / per_page in
  (k - 1) * per_page < total <= k * per_page.
Proof.
  intros Hpp k.
  pose proof (Z.div_mod (total + per_page - 1) per_page ltac:(lia)) as Hdm.
  pose proof (Z.mod_pos_bound (total + per_page - 1) per_page ltac:(lia)) as Hm.
  fold k in Hdm. nia.
Qed.

Lemma Qceiling_unique (x : Q) (k : Z) :
  (inject_Z (k - 1) < x)%Q -> (x <= inject_Z k)%Q -> Qceiling x = k.
Proof.
  intros Hlo Hhi.
  pose proof (Qceiling_lt x) as Hc1.
  pose proof (Qle_ceiling x) as Hc2.
  assert (k - 1 < Qceiling x) as H1.
  { rewrite Zlt_Qlt. eapply Qlt_le_trans; eassumption. }
  assert (Qceiling x - 1 < k) as H2.
  { rewrite Zlt_Qlt. eapply Qlt_le_trans; eassumption. }
  lia.
Qed.

Lemma ceil_div_Qceiling (total per_page : Z) :
  1 <= per_page ->
  (total + per_page - 1) / per_page
  = Qceiling (inject_Z total / inject_Z per_page).
Proof.
  intros Hpp. symmetry. apply Qceiling_unique.
  - destruct (ceil_div_bounds total per_page Hpp) as [Hlo _].
    apply Qlt_shift_div_l.
    + change 0%Q with (inject_Z 0). rewrite <- Zlt_Qlt. lia.
    + rewrite <- inject_Z_mult, <- Zlt_Qlt. exact Hlo.
  - destruct (ceil_div_bounds total per_page Hpp) as [_ Hhi].
    apply Qle_shift_div_r.
    + change 0%Q with (inject_Z 0). rewrite <- Zlt_Qlt. lia.
    + rewrite <- inject_Z_mult, <- Zle_Qle. exact Hhi.
Qed.

(** C5. With [per_page >= 1] and [total >= 0], [total_pages] is the ceiling
    of [total / per_page], the least number of pages of [per_page] entries
    that hold [total] entries, and it is 0 exactly when [total] is 0; the
    pager of page 5 of 1722538 entries by 50 has 34451 pages, a next page
    and a previous page. *)
Theorem total_pages_is_ceiling (p : PaginationInfo.t) :
  1 <= PaginationInfo.per_page p ->
  0 <= PaginationInfo.total p ->
  exists k : Z,
    PaginationInfo.total_pages p = Ok k
    /\ k = Qceiling (inject_Z (PaginationInfo.total p)
                     / inject_Z (PaginationInfo.per_page p))
    /\ (k - 1) * PaginationInfo.per_page p < PaginationInfo.total p
       <= k * PaginationInfo.per_page p
    /\ (k = 0 <-> PaginationInfo.total p = 0)
    /\ PaginationInfo.total_pages (PaginationInfo.mk 5 50 1722538) = Ok 34451
    /\ PaginationInfo.has_next_page (PaginationInfo.mk 5 50 1722538) = Ok true
    /\ PaginationInfo.has_previous_page (PaginationInfo.mk 5 50 1722538) = true.
Proof.
  intros Hpp Htot.
  exists ((PaginationInfo.total p + PaginationInfo.per_page p - 1)
          / PaginationInfo.per_page p).
  pose proof (ceil_div_bounds (PaginationInfo.total p)
                (PaginationInfo.per_page p) Hpp) as Hb.
  cbv zeta in Hb.
  repeat split; try reflexivity; try tauto.
  - unfold PaginationInfo.total_pages, Py.floordiv.
    destruct (Z.eqb_spec (PaginationInfo.per_page p) 0); [lia | reflexivity].
  - apply ceil_div_Qceiling; assumption.
  - intros Hk. rewrite Hk in Hb. lia.
  - intros H0. nia.
Qed.

Lemma total_pages_is_ceiling_witness :
  exists k : Z,
    PaginationInfo.total_pages (PaginationInfo.mk 2 100 1111) = Ok k
    /\ k = 12.
Proof.
  destruct (total_pages_is_ceiling (PaginationInfo.mk 2 100 1111))
    as (k & Hk & _); cbn; [lia | lia |].
  exists k. split; [exact Hk |].
  cbv in Hk. congruence.
Defined.

(** *** Rates *)

Lemma truediv_nonzero (a b : Z) :
  b <> 0 ->
  Py.float_overflows (inject_Z a / inject_Z b) = false ->
  Py.truediv a b = Ok (inject_Z a / inject_Z b)%Q.
Proof.
  intros Hb Hfits. unfold Py.truediv.
  destruct (Z.eqb_spec b 0); [contradiction |]. rewrite Hfits. reflexivity.
Qed.

Lemma truediv_never_by_zero (a b : Z) (msg : string) :
  b <> 0 -> Py.truediv a b <> Raise (ZeroDivisionError msg).
Proof.
  intros Hb. unfold Py.truediv.
  destruct (Z.eqb_spec b 0); [contradiction |].
  destruct (Py.float_overflows _); discriminate.
Qed.

(** A proportion fits a float. *)
Lemma proportion_fits (a b : Z) :
  0 <= a <= b -> b <> 0 -> Py.float_overflows (inject_Z a / inject_Z b) = false.
Proof.
  intros Hab Hb. unfold Py.float_overflows.
  destruct (Qle_bool _ _) eqn:Hle; [| reflexivity]. exfalso.
  apply Qle_bool_iff in Hle.
  assert (Qabs (inject_Z a / inject_Z b) <= 1)%Q as Hone.
  { rewrite Qabs_pos.
    - apply Qle_shift_div_r.
      + change 0%Q with (inject_Z 0). rewrite <- Zlt_Qlt. lia.
      + rewrite Qmult_1_l, <- Zle_Qle. lia.
    - apply Qle_shift_div_l.
      + change 0%Q with (inject_Z 0). rewrite <- Zlt_Qlt. lia.
      + rewrite Qmult_0_l. change 0%Q with (inject_Z 0).
        rewrite <- Zle_Qle. lia. }
  pose proof (Qle_trans _ _ _ Hle Hone) as Habs.
  change 1%Q with (inject_Z 1) in Habs. rewrite <- Zle_Qle in Habs.
  assert (2 ^ 970 * 2 <= 2 ^ 1024) as Hpow.
  { change 1024 with (970 + 54). rewrite Z.pow_add_r by lia.
    assert (0 < 2 ^ 970) by (apply Z.pow_pos_nonneg; lia).
    assert (2 <= 2 ^ 54) by (vm_compute; discriminate). nia. }
  assert (0 < 2 ^ 970) by (apply Z.pow_pos_nonneg; lia).
  lia.
Qed.

(** C7. [win_rate] is 0.0 for a history without matches and the value of
    [win_count / total_matches] otherwise, the quotient itself when it fits
    a float; [completion_rate] is 0.0 for a tournament without matches and
    the value of [completed_matches / total_matches] otherwise; neither
    raises [ZeroDivisionError]. *)
Theorem rates_guard_the_division :
  (forall h : PlayerMatchHistory.t,
      (PlayerMatchHistory.total_matches h = 0 ->
       PlayerMatchHistory.win_rate h = Ok 0%Q)
      /\ (PlayerMatchHistory.total_matches h <> 0 ->
          PlayerMatchHistory.win_rate h
          = Py.truediv (PlayerMatchHistory.win_count h)
              (PlayerMatchHistory.total_matches h)
          /\ (Py.float_overflows
                (inject_Z (PlayerMatchHistory.win_count h)
                 / inject_Z (PlayerMatchHistory.total_matches h)) = false ->
              PlayerMatchHistory.win_rate h
              = Ok (inject_Z (PlayerMatchHistory.win_count h)
                    / inject_Z (PlayerMatchHistory.total_matches h))%Q))
      /\ (forall msg,
             PlayerMatchHistory.win_rate h <> Raise (ZeroDivisionError msg)))
  /\ (forall d : TournamentData.t,
         (TournamentData.total_matches d = 0 ->
          TournamentData.completion_rate d = Ok 0%Q)
         /\ (TournamentData.total_matches d <> 0 ->
             TournamentData.completion_rate d
             = Py.truediv (TournamentData.completed_matches d)
                 (TournamentData.total_matches d)
             /\ (Py.float_overflows
                   (inject_Z (TournamentData.completed_matches d)
                    / inject_Z (TournamentData.total_matches d)) = false ->
                 TournamentData.completion_rate d
                 = Ok (inject_Z (TournamentData.completed_matches d)
                       / inject_Z (TournamentData.total_matches d))%Q))
         /\ (forall msg,
                TournamentData.completion_rate d
                <> Raise (ZeroDivisionError msg))).
Proof.
  split.
  - intros h. unfold PlayerMatchHistory.win_rate.
    destruct (Z.eqb_spec (PlayerMatchHistory.total_matches h) 0) as [H0 | Hn].
    + split; [reflexivity |]. split; [contradiction | discriminate].
    + split; [contradiction |]. split.
      * intros _. split; [reflexivity |]. apply truediv_nonzero, Hn.
      * intros msg. apply truediv_never_by_zero, Hn.
  - intros d. unfold TournamentData.completion_rate.
    destruct (Z.eqb_spec (TournamentData.total_matches d) 0) as [H0 | Hn].
    + split; [reflexivity |]. split; [contradiction | discriminate].
    + split; [contradiction |]. split.
      * intros _. split; [reflexivity |]. apply truediv_nonzero, Hn.
      * intros msg. apply truediv_never_by_zero, Hn.
Qed.

Lemma rates_guard_the_division_witness :
  PlayerMatchHistory.win_rate
    (PlayerMatchHistory.mk "A" [] [] 0 0 0 30 ∅ ∅) = Ok 0%Q
  /\ TournamentData.completion_rate
       (TournamentData.mk "29128" "TT Cup"
          [Sample.finished "1" "3-1"; Sample.event "2" "1" None;
           Sample.event "3" "2" (Some "1-0")]
          [Sample.player "1" "A"; Sample.player "2" "B"] 3 1 1 1
          (None, None) false)
     = Ok (inject_Z 1 / inject_Z 3)%Q.
Proof.
  destruct rates_guard_the_division as [Hwin Hcompletion].
  split.
  - destruct (Hwin (PlayerMatchHistory.mk "A" [] [] 0 0 0 30 ∅ ∅))
      as (Hzero & _ & _).
    apply Hzero. reflexivity.
  - match goal with
    | |- TournamentData.completion_rate ?d = _ =>
        destruct (Hcompletion d) as (_ & Hnonzero & _)
    end.
    destruct Hnonzero as [_ Hfits]; [cbn; lia |].
    apply Hfits. apply proportion_fits; cbn; lia.
Defined.

(** *** Win detection *)

(** A score written as two numerals around a dash reads as the two
    integers. *)
Lemma digit_not_special (c : ascii) :
  Py.is_digit c = true ->
  Py.isspace c = false /\ Ascii.eqb "-" c = false /\ Ascii.eqb "+" c = false
  /\ Ascii.eqb "_" c = false /\ Ascii.eqb c "-" = false
  /\ Ascii.eqb c "+" = false /\ Ascii.eqb c "_" = false.
Proof.
  destruct c as [[] [] [] [] [] [] [] []]; cbv; intros H;
    try discriminate H; repeat split.
Qed.

Lemma lstrip_numeral (cs : list ascii) :
  Forall (fun c => Py.is_digit c = true) cs -> Py.lstrip_chars cs = cs.
Proof.
  destruct 1 as [| c cs Hc _]; [reflexivity |]. cbn.
  destruct (digit_not_special c Hc) as (-> & _). reflexivity.
Qed.

Lemma strip_numeral (cs : list ascii) :
  Forall (fun c => Py.is_digit c = true) cs -> Py.strip_chars cs = cs.
Proof.
  intros Hall. unfold Py.strip_chars. rewrite (lstrip_numeral cs Hall).
  rewrite lstrip_numeral.
  - apply rev_involutive.
  - apply List.Forall_rev, Hall.
Qed.

Lemma int_digits_numeral (cs : list ascii) :
  Forall (fun c => Py.is_digit c = true) cs ->
  forall (acc : Z) (after_digit : bool),
    cs <> [] \/ after_digit = true ->
    Py.int_digits cs acc after_digit
    = Some (fold_left (fun acc c => 10 * acc + default 0 (Py.digit c)) cs acc).
Proof.
  induction 1 as [| c cs Hc _ IH]; intros acc after Hne; cbn.
  - destruct Hne as [Hne | ->]; [contradiction | reflexivity].
  - destruct (digit_not_special c Hc) as (_ & _ & _ & _ & _ & _ & ->).
    unfold Py.is_digit in Hc. destruct (Py.digit c) as [d |]; [| discriminate].
    cbn. apply IH. right. reflexivity.
Qed.

Lemma filter_numeral (cs : list ascii) :
  Forall (fun c => Py.is_digit c = true) cs -> List.filter Py.is_digit cs = cs.
Proof.
  induction 1 as [| c cs Hc _ IH]; cbn; [reflexivity |]. rewrite Hc, IH.
  reflexivity.
Qed.

Lemma int_numeral (cs : list ascii) :
  numeral cs -> Py.int (string_of_list_ascii cs) = Ok (decimal_value cs).
Proof.
  intros (Hne & Hall & Hlen). unfold Py.int.
  rewrite list_ascii_of_string_of_list_ascii, (strip_numeral cs Hall).
  rewrite (filter_numeral cs Hall).
  destruct (Nat.leb_spec (length cs) 4300); [| lia].
  unfold Py.int_literal. destruct cs as [| c cs]; [contradiction |].
  inversion Hall as [| ? ? Hc Hcs]; subst.
  destruct (digit_not_special c Hc) as (_ & _ & _ & _ & -> & -> & _).
  rewrite (int_digits_numeral (c :: cs) Hall) by (left; discriminate).
  reflexivity.
Qed.

Lemma split_no_dash (cs cur : list ascii) :
  Forall (fun c => Py.is_digit c = true) cs ->
  Py.split_chars "-" cs cur = [string_of_list_ascii (rev cur ++ cs)].
Proof.
  intros Hall. revert cur.
  induction Hall as [| c cs Hc _ IH]; intros cur; cbn [Py.split_chars].
  - rewrite app_nil_r. reflexivity.
  - destruct (digit_not_special c Hc) as (_ & -> & _).
    rewrite IH. cbn [rev]. rewrite <- app_assoc. reflexivity.
Qed.

Lemma split_score (hs as_ cur : list ascii) :
  Forall (fun c => Py.is_digit c = true) hs ->
  Forall (fun c => Py.is_digit c = true) as_ ->
  Py.split_chars "-" (hs ++ "-"%char :: as_) cur
  = [string_of_list_ascii (rev cur ++ hs); string_of_list_ascii as_].
Proof.
  intros Hh Ha. revert cur.
  induction Hh as [| c cs Hc _ IH]; intros cur; cbn [app Py.split_chars].
  - rewrite app_nil_r, (split_no_dash as_ [] Ha). reflexivity.
  - destruct (digit_not_special c Hc) as (_ & -> & _).
    rewrite IH. cbn [rev]. rewrite <- app_assoc. reflexivity.
Qed.

Lemma contains_dash (hs as_ : list ascii) :
  Py.contains "-" (string_of_list_ascii (hs ++ "-"%char :: as_)) = true.
Proof.
  induction hs as [| c hs IH]; cbn; [reflexivity |].
  rewrite IH. apply orb_true_r.
Qed.

Lemma sets_score_numerals (e : EventSummary.t) (hs as_ : list ascii) :
  numeral hs -> numeral as_ ->
  EventSummary.current_score e
  = Some (string_of_list_ascii (hs ++ "-"%char :: as_)) ->
  EventSummary.sets_score e = Ok (decimal_value hs, decimal_value as_).
Proof.
  intros Hh Ha Hscore. unfold EventSummary.sets_score.
  rewrite Hscore, contains_dash. unfold Py.split.
  rewrite list_ascii_of_string_of_list_ascii.
  rewrite (split_score hs as_ []) by (apply Hh || apply Ha). cbn [rev app].
  cbn [Py.index nth_error rbind].
  rewrite (int_numeral hs Hh). cbn [rbind]. rewrite (int_numeral as_ Ha).
  reflexivity.
Qed.

Lemma is_winner_numerals (e : EventSummary.t) (hs as_ : list ascii)
    (player_name : string) :
  EventSummary.time_status e = "3" ->
  numeral hs -> numeral as_ ->
  EventSummary.current_score e
  = Some (string_of_list_ascii (hs ++ "-"%char :: as_)) ->
  EventSummary.is_winner e player_name
  = Ok (if decimal_value hs >? decimal_value as_
        then String.eqb (Player.name (EventSummary.home_player e)) player_name
        else if decimal_value as_ >? decimal_value hs
        then String.eqb (Player.name (EventSummary.away_player e)) player_name
        else false).
Proof.
  intros Hfin Hh Ha Hscore.
  unfold EventSummary.is_winner, EventSummary.is_finished.
  rewrite Hfin, (sets_score_numerals e hs as_ Hh Ha Hscore). cbn.
  destruct (decimal_value hs >? decimal_value as_); [reflexivity |].
  destruct (decimal_value as_ >? decimal_value hs); reflexivity.
Qed.

(** C2. On a finished match whose score reads as the two integers [H] and
    [A], [is_winner name] holds exactly when [H > A] and [name] is the home
    player's name, or [A > H] and [name] is the away player's name, and it is
    false for every name when [H = A]; on a match that is not finished it is
    false for every name, whatever the score. *)
Theorem is_winner_by_sets (e : EventSummary.t) (player_name : string) :
  (forall H A : Z,
      EventSummary.time_status e = "3" ->
      EventSummary.sets_score e = Ok (H, A) ->
      exists b : bool,
        EventSummary.is_winner e player_name = Ok b
        /\ (b = true <->
            (H > A /\ player_name = Player.name (EventSummary.home_player e))
            \/ (A > H
                /\ player_name = Player.name (EventSummary.away_player e)))
        /\ (H = A -> b = false))
  /\ (EventSummary.time_status e <> "3" ->
      EventSummary.is_winner e player_name = Ok false).
Proof.
  split.
  - intros H A Hfin Hscore.
    unfold EventSummary.is_winner, EventSummary.is_finished.
    rewrite Hfin, Hscore. cbn.
    destruct (Z.gtb_spec H A) as [Hgt | Hle].
    + eexists. split; [reflexivity |]. split.
      * rewrite String.eqb_eq. split.
        -- intros ->. left. split; [lia | reflexivity].
        -- intros [[_ ->] | [Hlt _]]; [reflexivity | lia].
      * lia.
    + destruct (Z.gtb_spec A H) as [Hgt' | Hle'].
      * eexists. split; [reflexivity |]. split.
        -- rewrite String.eqb_eq. split.
           ++ intros ->. right. split; [lia | reflexivity].
           ++ intros [[Hlt _] | [_ ->]]; [lia | reflexivity].
        -- lia.
      * exists false. split; [reflexivity |]. split; [| reflexivity].
        split; [discriminate | intros [[? _] | [? _]]; lia].
  - intros Hnot. unfold EventSummary.is_winner, EventSummary.is_finished.
    destruct (String.eqb_spec (EventSummary.time_status e) "3");
      [contradiction | reflexivity].
Qed.

Lemma is_winner_by_sets_witness :
  EventSummary.is_winner (Sample.finished "1" "3-1") "A" = Ok true
  /\ EventSummary.is_winner (Sample.event "1" "2" (Some "3-x")) "A" = Ok false.
Proof.
  pose proof (is_winner_by_sets (Sample.finished "1" "3-1") "A") as [Hfin _].
  pose proof (is_winner_by_sets (Sample.event "1" "2" (Some "3-x")) "A")
    as [_ Hnot].
  split.
  - destruct (Hfin 3 1 eq_refl eq_refl) as (b & -> & Hb & _).
    f_equal. apply Hb. left. split; [lia | reflexivity].
  - apply Hnot. discriminate.
Defined.

(** A score without a dash reads as 0-0: no winner. *)
Lemma is_winner_no_dash (e : EventSummary.t) (s player_name : string) :
  EventSummary.current_score e = Some s ->
  Py.contains "-" s = false ->
  EventSummary.is_winner e player_name = Ok false.
Proof.
  intros Hs Hdash. unfold EventSummary.is_winner, EventSummary.sets_score.
  rewrite Hs, Hdash. destruct (EventSummary.is_finished e); reflexivity.
Qed.

(** C4. On the finished match whose score is "3-x", [is_winner] raises the
    [ValueError] of [int("x")] instead of answering [False]. *)
Theorem is_winner_raises_on_malformed_score :
  EventSummary.is_winner (Sample.finished "1" "3-x") "A"
  = Raise (ValueError "invalid literal for int() with base 10").
Proof. reflexivity. Qed.

(** *** Counts of the aggregates *)

Lemma rcount_bounds {A : Type} (p : A -> result bool) (xs : list A) (n : Z) :
  rcount p xs = Ok n -> 0 <= n <= len xs.
Proof.
  revert n. induction xs as [| x xs IH]; intros n; cbn [rcount].
  - intros [= <-]. unfold len. cbn. lia.
  - destruct (p x) as [b | e]; cbn [rbind]; [| discriminate].
    destruct (rcount p xs) as [k | e]; cbn [rbind]; [| discriminate].
    intros [= <-]. specialize (IH k eq_refl). rewrite len_cons.
    destruct b; lia.
Qed.

Lemma history_from_matches_fields (player_name : string)
    (matches : list EventSummary.t)
    (h2h_records : Dict.t (list EventSummary.t)) (days : Z)
    (h : PlayerMatchHistory.t) :
  PlayerMatchHistory.from_matches player_name matches h2h_records days = Ok h ->
  PlayerMatchHistory.matches h = matches
  /\ PlayerMatchHistory.total_matches h = len matches
  /\ PlayerMatchHistory.loss_count h = len matches - PlayerMatchHistory.win_count h
  /\ rcount (fun m => EventSummary.is_winner m player_name) matches
     = Ok (PlayerMatchHistory.win_count h).
Proof.
  unfold PlayerMatchHistory.from_matches.
  destruct (rcount _ matches) as [w | e]; cbn [rbind]; [| discriminate].
  intros [= <-]. cbn. auto.
Qed.

(** [from_matches] returns a history as soon as every match can tell
    whether the player won it. *)
Lemma rcount_total {A : Type} (p : A -> result bool) (xs : list A) :
  Forall (fun x => is_ok (p x) = true) xs -> is_ok (rcount p xs) = true.
Proof.
  induction 1 as [| x xs Hx _ IH]; cbn [rcount]; [reflexivity |].
  destruct (p x); [| discriminate]. cbn [rbind].
  destruct (rcount p xs); [reflexivity | discriminate].
Qed.

Lemma history_from_matches_total (player_name : string)
    (matches : list EventSummary.t)
    (h2h_records : Dict.t (list EventSummary.t)) (days : Z) :
  Forall (fun m => is_ok (EventSummary.is_winner m player_name) = true)
    matches ->
  is_ok (PlayerMatchHistory.from_matches player_name matches h2h_records days)
  = true.
Proof.
  intros Hall. unfold PlayerMatchHistory.from_matches.
  pose proof (rcount_total _ _ Hall) as Hc.
  destruct (rcount _ matches); [reflexivity | discriminate].
Qed.

(** C8. A history built by [PlayerMatchHistory.from_matches] has
    [win_count + loss_count = total_matches] and
    [total_matches = len(matches)]. *)
Theorem history_counts_add_up (player_name : string)
    (matches : list EventSummary.t)
    (h2h_records : Dict.t (list EventSummary.t)) (days : Z)
    (h : PlayerMatchHistory.t) :
  PlayerMatchHistory.from_matches player_name matches h2h_records days = Ok h ->
  PlayerMatchHistory.win_count h + PlayerMatchHistory.loss_count h
  = PlayerMatchHistory.total_matches h
  /\ PlayerMatchHistory.total_matches h = len (PlayerMatchHistory.matches h)
  /\ PlayerMatchHistory.matches h = matches
  /\ 0 <= PlayerMatchHistory.win_count h <= PlayerMatchHistory.total_matches h.
Proof.
  intros Hfrom.
  destruct (history_from_matches_fields _ _ _ _ _ Hfrom)
    as (Hm & Htot & Hloss & Hwin).
  pose proof (rcount_bounds _ _ _ Hwin) as Hb.
  rewrite Hm, Htot, Hloss. repeat split; lia.
Qed.

Lemma history_counts_add_up_witness :
  exists h : PlayerMatchHistory.t,
    PlayerMatchHistory.from_matches "A"
      [Sample.finished "1" "3-1"; Sample.finished "2" "1-3";
       Sample.finished "3" "3-2"] [] 30 = Ok h
    /\ PlayerMatchHistory.win_count h = 2
    /\ PlayerMatchHistory.loss_count h = 1
    /\ PlayerMatchHistory.win_count h + PlayerMatchHistory.loss_count h
       = PlayerMatchHistory.total_matches h.
Proof.
  pose proof (history_counts_add_up "A"
                [Sample.finished "1" "3-1"; Sample.finished "2" "1-3";
                 Sample.finished "3" "3-2"] [] 30 _ eq_refl) as (Hsum & _).
  eexists. split; [reflexivity |].
  split; [reflexivity |]. split; [reflexivity |]. exact Hsum.
Defined.

Lemma status_counts_partition (ms : list EventSummary.t) :
  count_if EventSummary.is_finished ms + count_if EventSummary.is_live ms
  + count_if EventSummary.is_scheduled ms + count_if other_status ms
  = len ms.
Proof.
  unfold count_if. induction ms as [| m ms IH]; [reflexivity |].
  cbn [List.filter]. rewrite len_cons.
  unfold other_status, EventSummary.is_finished, EventSummary.is_live,
    EventSummary.is_scheduled in *.
  destruct (String.eqb_spec (EventSummary.time_status m) "3") as [E | _];
    [rewrite ?E; cbn; rewrite !len_cons; lia |].
  destruct (String.eqb_spec (EventSummary.time_status m) "2") as [E | _];
    [rewrite ?E; cbn; rewrite !len_cons; lia |].
  destruct (String.eqb_spec (EventSummary.time_status m) "0") as [E | _];
    [rewrite ?E; cbn; rewrite !len_cons; lia |].
  destruct (String.eqb_spec (EventSummary.time_status m) "1") as [E | _];
    cbn; rewrite ?len_cons; lia.
Qed.

Lemma count_if_none {A : Type} (p : A -> bool) (xs : list A) :
  Forall (fun x => p x = false) xs -> count_if p xs = 0.
Proof.
  unfold count_if. induction 1 as [| x xs Hx _ IH]; [reflexivity |].
  cbn [List.filter]. rewrite Hx. exact IH.
Qed.

Lemma tournament_from_matches_fields (tournament_id tournament_name : string)
    (ms : list EventSummary.t) (has_odds_data : bool) (d : TournamentData.t) :
  TournamentData.from_matches tournament_id tournament_name ms has_odds_data
  = Ok d ->
  TournamentData.matches d = ms
  /\ TournamentData.total_matches d = len ms
  /\ TournamentData.completed_matches d = count_if EventSummary.is_finished ms
  /\ TournamentData.live_matches d = count_if EventSummary.is_live ms
  /\ TournamentData.upcoming_matches d
     = count_if EventSummary.is_scheduled ms.
Proof.
  unfold TournamentData.from_matches.
  destruct (rmap _ ms) as [dates | e]; cbn [rbind]; [| discriminate].
  intros [= <-]. cbn. auto.
Qed.

Lemma tournament_from_matches_counts (tournament_id tournament_name : string)
    (ms : list EventSummary.t) (has_odds_data : bool) (d : TournamentData.t) :
  TournamentData.from_matches tournament_id tournament_name ms has_odds_data
  = Ok d ->
  tournament_counts d.
Proof.
  intros Hfrom.
  destruct (tournament_from_matches_fields _ _ _ _ _ Hfrom)
    as (Hm & Htot & Hc & Hl & Hu).
  unfold tournament_counts. rewrite Hm, Htot, Hc, Hl, Hu.
  pose proof (status_counts_partition ms). lia.
Qed.

(** ** A program logic for the request monad *)

Section Logic.

Context {A B : Type}.

Lemma outcome_conseq (P P' : trace -> Prop) (m : M A)
    (Q Q' : result A -> trace -> Prop) :
  outcome P' m Q' ->
  (forall t, P t -> P' t) ->
  (forall r t, Q' r t -> Q r t) ->
  outcome P m Q.
Proof. intros Hm HP HQ t Ht. apply HQ, Hm, HP, Ht. Qed.

Lemma safe_conseq (P P' : trace -> Prop) (m : M A)
    (Q Q' : A -> trace -> Prop) :
  safe P' m Q' ->
  (forall t, P t -> P' t) ->
  (forall a t, Q' a t -> Q a t) ->
  safe P m Q.
Proof.
  intros Hm HP HQ t Ht. destruct (Hm t (HP t Ht)) as (a & Ha & Hq).
  exists a. split; [exact Ha | apply HQ, Hq].
Qed.

Lemma safe_outcome (P : trace -> Prop) (m : M A) (Q : A -> trace -> Prop) :
  safe P m Q ->
  outcome P m (fun r t => match r with Ok a => Q a t | Raise _ => False end).
Proof. intros Hm t Ht. destruct (Hm t Ht) as (a & -> & Hq). exact Hq. Qed.

Lemma safe_elim (P : trace -> Prop) (m : M A) (Q : A -> trace -> Prop) :
  safe P m Q -> outcome P m (fun r t => exists a, r = Ok a /\ Q a t).
Proof. intros Hm. exact Hm. Qed.

Lemma safe_outcome_any (P : trace -> Prop) (m : M A) (Q : trace -> Prop) :
  safe P m (fun _ t => Q t) -> outcome P m (fun _ t => Q t).
Proof. intros Hm t Ht. destruct (Hm t Ht) as (a & _ & Hq). exact Hq. Qed.

Lemma safe_ret (P : trace -> Prop) (a : A) (Q : A -> trace -> Prop) :
  (forall t, P t -> Q a t) -> safe P (ret a) Q.
Proof. intros H t Ht. exists a. split; [reflexivity | apply H, Ht]. Qed.

Lemma outcome_lift (P : trace -> Prop) (r : result A)
    (Q : result A -> trace -> Prop) :
  (forall t, P t -> Q r t) -> outcome P (lift r) Q.
Proof. intros H t Ht. apply H, Ht. Qed.

Lemma outcome_raise (P : trace -> Prop) (e : exn)
    (Q : result A -> trace -> Prop) :
  (forall t, P t -> Q (Raise e) t) -> outcome P (raise e) Q.
Proof. intros H t Ht. apply H, Ht. Qed.

Lemma outcome_bind (P : trace -> Prop) (m : M A) (k : A -> M B)
    (R : result A -> trace -> Prop) (Q : result B -> trace -> Prop) :
  outcome P m R ->
  (forall a, outcome (R (Ok a)) (k a) Q) ->
  (forall e t, R (Raise e) t -> Q (Raise e) t) ->
  outcome P (bind m k) Q.
Proof.
  intros Hm Hk He t Ht. specialize (Hm t Ht). unfold bind.
  destruct (m t) as [[a | e] t1]; cbn [fst snd] in *.
  - apply Hk, Hm.
  - apply He, Hm.
Qed.

Lemma safe_bind (P : trace -> Prop) (m : M A) (k : A -> M B)
    (R : A -> trace -> Prop) (Q : B -> trace -> Prop) :
  safe P m R ->
  (forall a, safe (R a) (k a) Q) ->
  safe P (bind m k) Q.
Proof.
  intros Hm Hk t Ht. destruct (Hm t Ht) as (a & Ha & Hr). unfold bind.
  destruct (m t) as [r t1]; cbn [fst snd] in *. subst r.
  apply Hk, Hr.
Qed.

Lemma outcome_try (P : trace -> Prop) (m : M A) (h : exn -> M A)
    (R : result A -> trace -> Prop) (Q : result A -> trace -> Prop) :
  outcome P m R ->
  (forall a t, R (Ok a) t -> Q (Ok a) t) ->
  (forall e, outcome (R (Raise e)) (h e) Q) ->
  outcome P (try_except m h) Q.
Proof.
  intros Hm Hok Hh t Ht. specialize (Hm t Ht). unfold try_except.
  destruct (m t) as [[a | e] t1]; cbn [fst snd] in *.
  - apply Hok, Hm.
  - apply Hh, Hm.
Qed.

Lemma safe_try (P : trace -> Prop) (m : M A) (h : exn -> M A)
    (R : result A -> trace -> Prop) (Q : A -> trace -> Prop) :
  outcome P m R ->
  (forall a t, R (Ok a) t -> Q a t) ->
  (forall e, safe (R (Raise e)) (h e) Q) ->
  safe P (try_except m h) Q.
Proof.
  intros Hm Hok Hh. unfold safe. eapply outcome_try; [exact Hm | |].
  - intros a t Hr. exists a. split; [reflexivity | apply Hok, Hr].
  - exact Hh.
Qed.

Lemma safe_attempt (P : trace -> Prop) (m : M A)
    (R : result A -> trace -> Prop) :
  outcome P m R -> safe P (attempt m) R.
Proof.
  intros Hm t Ht. specialize (Hm t Ht). unfold attempt.
  destruct (m t) as [r t1]; cbn [fst snd] in *.
  exists r. split; [reflexivity | exact Hm].
Qed.

Lemma bind_ok_inv (m : M A) (k : A -> M B) (t t' : trace) (b : B) :
  bind m k t = (Ok b, t') ->
  exists a t1, m t = (Ok a, t1) /\ k a t1 = (Ok b, t').
Proof.
  unfold bind. destruct (m t) as [[a | e] t1]; [| discriminate].
  intros Hk. exists a, t1. split; [reflexivity | exact Hk].
Qed.

Lemma safe_run (m : M A) (Q : A -> trace -> Prop) (t : trace) :
  safe (fun _ => True) m Q -> exists a t', m t = (Ok a, t') /\ Q a t'.
Proof.
  intros Hm. destruct (Hm t I) as (a & Ha & Hq).
  exists a, (snd (m t)). split; [| exact Hq].
  destruct (m t) as [r t']; cbn in *. congruence.
Qed.

End Logic.

Section Loops.

Context {A S : Type}.

(** A loop over a list: [Inv done s] holds when the elements [done] have
    been handled; a body that asks to leave the loop establishes [Post]. *)
Lemma safe_for_each (body : A -> S -> M (S * ctl)) (xs : list A)
    (Inv : list A -> S -> trace -> Prop) (Post : S -> trace -> Prop) :
  (forall done x rest s,
      xs = (done ++ x :: rest)%list ->
      safe (Inv done s) (body x s)
        (fun out t =>
           match snd out with
           | Continue => Inv (done ++ [x])%list (fst out) t
           | Break => Post (fst out) t
           end)) ->
  (forall s t, Inv xs s t -> Post s t) ->
  forall s, safe (Inv [] s) (for_each body xs s) Post.
Proof.
  intros Hbody Hend.
  assert (forall rest done s,
             xs = (done ++ rest)%list ->
             safe (Inv done s) (for_each body rest s) Post) as Hgen.
  { induction rest as [| x rest IH]; intros done s Hxs; cbn [for_each].
    - apply safe_ret. intros t Ht. apply Hend.
      rewrite Hxs, app_nil_r. exact Ht.
    - eapply safe_bind; [apply (Hbody done x rest s Hxs) |].
      intros [s' c]. cbn [fst snd]. destruct c.
      + apply IH. rewrite Hxs, <- app_assoc. reflexivity.
      + apply safe_ret. auto. }
  intros s. apply Hgen. reflexivity.
Qed.

(** A loop over the pages: the body keeps [Inv]. *)
Lemma safe_while_le (body : Z -> S -> M (S * ctl)) (max_pages : Z)
    (Inv : S -> trace -> Prop) :
  (forall page s, safe (Inv s) (body page s) (fun out t => Inv (fst out) t)) ->
  forall fuel page s,
    safe (Inv s) (while_le body fuel page max_pages s) Inv.
Proof.
  intros Hbody. induction fuel as [| fuel IH]; intros page s; cbn [while_le].
  - apply safe_ret. auto.
  - destruct (page <=? max_pages).
    + eapply safe_bind; [apply Hbody |].
      intros [s' c]. cbn [fst]. destruct c.
      * apply IH.
      * apply safe_ret. auto.
    + apply safe_ret. auto.
Qed.

(** More fuel than the pages left changes nothing: the fuel [while_pages]
    gives is enough. *)
Lemma while_le_fuel (body : Z -> S -> M (S * ctl)) (max_pages : Z) :
  forall fuel page s t,
    (Z.to_nat (max_pages + 1 - page) <= fuel)%nat ->
    while_le body fuel page max_pages s t
    = while_le body (Z.to_nat (max_pages + 1 - page)) page max_pages s t.
Proof.
  induction fuel as [| fuel IH]; intros page s t Hfuel.
  - replace (Z.to_nat (max_pages + 1 - page)) with 0%nat by lia. reflexivity.
  - destruct (Z.leb_spec page max_pages) as [Hle | Hgt].
    + replace (Z.to_nat (max_pages + 1 - page))
        with (Datatypes.S (Z.to_nat (max_pages + 1 - (page + 1)))) by lia.
      cbn [while_le]. destruct (Z.leb_spec page max_pages); [| lia].
      unfold bind. destruct (body page s t) as [[[s' c] | e] t']; [| reflexivity].
      destruct c; [| reflexivity]. apply IH. lia.
    + replace (Z.to_nat (max_pages + 1 - page)) with 0%nat by lia.
      cbn [while_le]. destruct (Z.leb_spec page max_pages); [lia | reflexivity].
Qed.

End Loops.

(** ** Dictionaries and the deduplication by identifier *)

Section DictFacts.

Context {V : Type}.

Lemma dict_keys_set (k : string) (v : V) (d : Dict.t V) (i : string) :
  In i (Dict.keys (Dict.set k v d)) <-> i = k \/ In i (Dict.keys d).
Proof.
  unfold Dict.keys. induction d as [| [k' v'] d IH]; cbn.
  - intuition congruence.
  - destruct (String.eqb_spec k' k) as [-> | Hne]; cbn.
    + intuition congruence.
    + rewrite IH. intuition congruence.
Qed.

Lemma dict_keys_set_nodup (k : string) (v : V) (d : Dict.t V) :
  List.NoDup (Dict.keys d) -> List.NoDup (Dict.keys (Dict.set k v d)).
Proof.
  induction d as [| [k' v'] d IH]; cbn.
  - intros _. constructor; [intros [] | constructor].
  - intros Hnd. apply NoDup_cons_iff in Hnd as [Hnotin Hnd].
    destruct (String.eqb_spec k' k) as [-> | Hne]; cbn.
    + constructor; assumption.
    + constructor; [| apply IH, Hnd].
      intros Hin. apply dict_keys_set in Hin as [-> | Hin]; tauto.
Qed.

Lemma dict_values_set (k : string) (v : V) (d : Dict.t V) (x : V) :
  In x (Dict.values (Dict.set k v d)) -> x = v \/ In x (Dict.values d).
Proof.
  unfold Dict.values. induction d as [| [k' v'] d IH]; cbn.
  - intuition congruence.
  - destruct (String.eqb_spec k' k) as [-> | Hne]; cbn.
    + intuition congruence.
    + intros [<- | Hin]; [tauto | apply IH in Hin; tauto].
Qed.

Lemma dict_get_set (k : string) (v : V) (d : Dict.t V) (i : string) :
  Dict.get i (Dict.set k v d) = if String.eqb k i then Some v else Dict.get i d.
Proof.
  induction d as [| [k' v'] d IH]; cbn.
  - reflexivity.
  - destruct (String.eqb_spec k' k) as [-> | Hne]; cbn.
    + destruct (String.eqb_spec k i); reflexivity.
    + rewrite IH. destruct (String.eqb_spec k' i) as [-> | Hne'];
        [| reflexivity].
      destruct (String.eqb_spec k i); [congruence | reflexivity].
Qed.

End DictFacts.

Lemma keyed_by_id_set (m : EventSummary.t) (d : Dict.t EventSummary.t) :
  keyed_by_id d -> keyed_by_id (Dict.set (EventSummary.id m) m d).
Proof.
  unfold keyed_by_id. induction 1 as [| [k v] d Hkv Hd IH]; cbn.
  - repeat constructor.
  - destruct (String.eqb_spec k (EventSummary.id m)); constructor; auto.
Qed.

Lemma keyed_by_id_keys (d : Dict.t EventSummary.t) :
  keyed_by_id d -> map EventSummary.id (Dict.values d) = Dict.keys d.
Proof.
  unfold Dict.values, Dict.keys.
  induction 1 as [| [k v] d Hkv _ IH]; cbn in *; congruence.
Qed.

Lemma file_matches_spec (ms : list EventSummary.t) :
  forall d : Dict.t EventSummary.t,
    keyed_by_id d -> List.NoDup (Dict.keys d) ->
    keyed_by_id (file_matches d ms)
    /\ List.NoDup (Dict.keys (file_matches d ms))
    /\ (forall i, In i (Dict.keys (file_matches d ms))
                  <-> In i (Dict.keys d) \/ In i (map EventSummary.id ms))
    /\ (forall m, In m (Dict.values (file_matches d ms))
                  -> In m (Dict.values d) \/ In m ms).
Proof.
  induction ms as [| m ms IH]; intros d Hkeyed Hnd; cbn [file_matches fold_left].
  - repeat split; try assumption; cbn; tauto.
  - destruct (IH (Dict.set (EventSummary.id m) m d)
                (keyed_by_id_set m d Hkeyed)
                (dict_keys_set_nodup _ _ _ Hnd)) as (Hk & Hn & Hi & Hv).
    repeat split; try assumption.
    + intros Hin. apply Hi in Hin as [Hin | Hin]; cbn; [| tauto].
      apply dict_keys_set in Hin as [-> | Hin]; tauto.
    + intros [Hin | Hin]; apply Hi.
      * left. apply dict_keys_set. tauto.
      * cbn in Hin. destruct Hin as [<- | Hin]; [| tauto].
        left. apply dict_keys_set. tauto.
    + intros m0 Hin. apply Hv in Hin as [Hin | Hin]; cbn; [| tauto].
      apply dict_values_set in Hin as [-> | Hin]; tauto.
Qed.

(** The deduplicated list holds each identifier of the input once, on a
    match of the input. *)
Lemma unique_by_id_spec (ms : list EventSummary.t) :
  List.NoDup (map EventSummary.id (unique_by_id ms))
  /\ (forall i, In i (map EventSummary.id (unique_by_id ms))
                <-> In i (map EventSummary.id ms))
  /\ (forall m, In m (unique_by_id ms) -> In m ms).
Proof.
  unfold unique_by_id.
  destruct (file_matches_spec ms Dict.empty) as (Hk & Hn & Hi & Hv).
  { constructor. }
  { constructor. }
  rewrite (keyed_by_id_keys _ Hk). repeat split.
  - exact Hn.
  - intros Hin. apply Hi in Hin as [[] | Hin]. exact Hin.
  - intros Hin. apply Hi. tauto.
  - intros m Hin. apply Hv in Hin as [[] | Hin]. exact Hin.
Qed.

Lemma occurrences_nodup (i : string) (ms : list EventSummary.t) :
  List.NoDup (map EventSummary.id ms) ->
  In i (map EventSummary.id ms) ->
  occurrences i ms = 1%nat.
Proof.
  unfold occurrences. induction ms as [| m ms IH]; cbn; [tauto |].
  intros Hnd. apply NoDup_cons_iff in Hnd as [Hnotin Hnd].
  destruct (String.eqb_spec (EventSummary.id m) i) as [E | Hne].
  - subst i. intros _. cbn. f_equal.
    assert (forall l, ~ In (EventSummary.id m) (map EventSummary.id l) ->
              List.filter
                (fun m' => String.eqb (EventSummary.id m') (EventSummary.id m))
                l = []) as Hnone.
    { induction l as [| x l IHl]; cbn; [reflexivity |].
      intros Hx. destruct (String.eqb_spec (EventSummary.id x)
                             (EventSummary.id m)) as [E | _]; [tauto |].
      apply IHl. tauto. }
    rewrite Hnone by exact Hnotin. reflexivity.
  - intros [E | Hin]; [contradiction |]. apply IH; assumption.
Qed.

(** ** EventsManager: requests and traces *)

Lemma grown_S (n : nat) (t : trace) : grown (S n) t -> grown n t.
Proof. unfold grown. lia. Qed.

#[local] Hint Resolve grown_S : core.

(** Case analysis on the [match] and [if] of a computation that ends with
    [ret], each branch keeping a fact the precondition gives. *)
Ltac safe_branches :=
  repeat first
    [ apply safe_ret; solve [auto]
    | match goal with
      | |- safe _ (match ?x with _ => _ end) _ => destruct x
      | |- safe _ (if ?x then _ else _) _ => destruct x
      end ].

Section ManagerFacts.

Variable backend : Backend.
Variable now : Datetime.t.

Lemma list_events_grows (ep : endpoint) (league_id : option string)
    (page : Z) (n : nat) :
  outcome (grown n) (list_events backend ep league_id page)
    (fun _ t => grown n t).
Proof.
  intros t Ht. unfold list_events. destruct (page <? 1); cbn; [exact Ht |].
  unfold grown in *. rewrite length_app. cbn. lia.
Qed.

Lemma list_events_sends (ep : endpoint) (league_id : option string)
    (page : Z) (n : nat) :
  1 <= page ->
  outcome (grown n) (list_events backend ep league_id page)
    (fun _ t => grown (S n) t).
Proof.
  intros Hpage t Ht. unfold list_events.
  destruct (Z.ltb_spec page 1); [lia |]. cbn.
  unfold grown in *. rewrite length_app. cbn. lia.
Qed.

Lemma get_details_grows (event_ids : list string) (n : nat) :
  outcome (grown n) (get_details backend event_ids) (fun _ t => grown n t).
Proof.
  intros t Ht. unfold get_details. destruct (len event_ids >? 10); cbn;
    [exact Ht |].
  unfold grown in *. rewrite length_app. cbn. lia.
Qed.

Lemma odds_get_summary_grows (event_id : string) (n : nat) :
  outcome (grown n) (odds_get_summary backend event_id)
    (fun _ t => grown n t).
Proof.
  intros t Ht. cbn. unfold grown in *. rewrite length_app. cbn. lia.
Qed.

Lemma recent_page_grows (player_name : string) (cutoff_date : Datetime.t)
    (page : Z) (matches : list EventSummary.t) (n : nat) :
  safe (grown n) (recent_page backend player_name cutoff_date page matches)
    (fun _ t => grown n t).
Proof.
  unfold recent_page. eapply safe_bind.
  - apply safe_attempt, list_events_grows.
  - intros fetched. safe_branches.
Qed.

Lemma recent_page_sends (player_name : string) (cutoff_date : Datetime.t)
    (page : Z) (matches : list EventSummary.t) (n : nat) :
  1 <= page ->
  safe (grown n) (recent_page backend player_name cutoff_date page matches)
    (fun _ t => grown (S n) t).
Proof.
  intros Hpage. unfold recent_page. eapply safe_bind.
  - apply safe_attempt, list_events_sends, Hpage.
  - intros fetched. safe_branches.
Qed.

Lemma recent_matches_grows (player_name : string) (days max_pages : Z)
    (n : nat) :
  safe (grown n)
    (_get_recent_player_matches backend now player_name days max_pages)
    (fun _ t => grown n t).
Proof.
  unfold _get_recent_player_matches, while_pages.
  apply (safe_while_le _ _ (fun _ t => grown n t)).
  intros page s. apply recent_page_grows.
Qed.

(** With a page cap of at least 1 the walk sends at least one request. *)
Lemma recent_matches_sends (player_name : string) (days max_pages : Z)
    (n : nat) :
  1 <= max_pages ->
  safe (grown n)
    (_get_recent_player_matches backend now player_name days max_pages)
    (fun _ t => grown (S n) t).
Proof.
  intros Hmax. unfold _get_recent_player_matches, while_pages.
  replace (Z.to_nat (max_pages + 1 - 1))
    with (Datatypes.S (Z.to_nat (max_pages - 1))) by lia.
  cbn [while_le]. destruct (Z.leb_spec 1 max_pages); [| lia].
  eapply safe_bind.
  - apply recent_page_sends. lia.
  - intros [s c]. destruct c.
    + apply (safe_while_le _ _ (fun _ t => grown (S n) t)).
      intros page s'. apply recent_page_grows.
    + apply safe_ret. auto.
Qed.

Lemma h2h_matches_grows (player1 player2 : string) (days : Z) (n : nat) :
  safe (grown n) (_get_h2h_matches backend now player1 player2 days)
    (fun _ t => grown n t).
Proof.
  unfold _get_h2h_matches.
  eapply safe_try with (R := fun _ t => grown n t).
  - eapply outcome_bind with (R := fun _ t => grown n t).
    + apply safe_outcome_any, recent_matches_grows.
    + intros a t Ht. exact Ht.
    + auto.
  - auto.
  - intros e. apply safe_ret. auto.
Qed.

Lemma h2h_step_grows (player_name : string) (days : Z) (opponent : string)
    (h2h_records : Dict.t (list EventSummary.t)) (n : nat) :
  safe (grown n) (h2h_step backend now player_name days opponent h2h_records)
    (fun out t => grown n t /\ snd out = Continue).
Proof.
  unfold h2h_step.
  eapply safe_try
    with (R := fun r t => grown n t
                          /\ match r with
                             | Ok out => snd out = Continue
                             | Raise _ => True
                             end).
  - eapply outcome_bind with (R := fun _ t => grown n t).
    + apply safe_outcome_any, h2h_matches_grows.
    + intros a t Ht. destruct (is_empty a); cbn; auto.
    + auto.
  - auto.
  - intros e. apply safe_ret. tauto.
Qed.

(** Once its parameters are accepted, [get_player_history] sends at least one
    request, whatever it then returns or raises. *)
Lemma get_player_history_sends (player_name : string) (days : Z)
    (include_h2h : bool) (max_pages : Z) (t : trace) :
  ~ invalid_history_request player_name days max_pages ->
  (length t
   < length (snd (get_player_history backend now player_name days include_h2h
                    max_pages t)))%nat.
Proof.
  intros Hvalid. unfold invalid_history_request in Hvalid.
  unfold get_player_history.
  destruct (negb (Py.truthy player_name)
            || negb (Py.truthy (Py.strip player_name))) eqn:Hname.
  { exfalso. apply Hvalid. left.
    apply orb_true_iff in Hname as [Hn | Hn];
      apply negb_true_iff, truthy_empty in Hn; [| exact Hn].
    subst player_name. reflexivity. }
  destruct (Z.ltb_spec days 1); [lia |].
  destruct (Z.gtb_spec days 365); [lia |].
  destruct (Z.ltb_spec max_pages 1); [lia |].
  destruct (Z.gtb_spec max_pages 50); [lia |].
  cbn [orb].
  match goal with
  | |- (_ < length (snd (?m t)))%nat =>
      assert (outcome (grown (length t)) m
                (fun _ t' => grown (S (length t)) t')) as Hrun
  end.
  { eapply outcome_bind with (R := fun _ t' => grown (S (length t)) t').
    - apply safe_outcome_any.
      eapply safe_try with (R := fun _ t' => grown (S (length t)) t').
      + eapply outcome_bind with (R := fun _ t' => grown (S (length t)) t').
        * apply safe_outcome_any, recent_matches_sends. lia.
        * intros a t' Ht'. exact Ht'.
        * auto.
      + auto.
      + intros e. apply safe_ret. auto.
    - intros all_matches.
      eapply outcome_bind with (R := fun _ t' => grown (S (length t)) t').
      + destruct (include_h2h && negb (is_empty (unique_by_id all_matches))).
        * apply safe_outcome_any.
          apply (safe_for_each _ _
                   (fun _ _ t' => grown (S (length t)) t')
                   (fun _ t' => grown (S (length t)) t')).
          -- intros done x rest s _.
             eapply safe_conseq;
               [apply (h2h_step_grows _ _ _ _ (S (length t))) | auto |].
             intros [s' c] t' [Ht' Hc]. cbn in *. subst c. exact Ht'.
          -- auto.
        * intros t' Ht'. exact Ht'.
      + intros h2h t' Ht'. exact Ht'.
      + auto.
    - auto. }
  specialize (Hrun t). unfold grown in Hrun. apply Hrun. lia.
Qed.

(** What [get_player_history] returns or raises, once its parameters are
    accepted, is what [PlayerMatchHistory.from_matches] returns or raises on
    the matches gathered: no exception of a request gets out. *)
Lemma get_player_history_outcome (player_name : string) (days : Z)
    (include_h2h : bool) (max_pages : Z) (t : trace) :
  ~ invalid_history_request player_name days max_pages ->
  exists matches h2h_records,
    fst (get_player_history backend now player_name days include_h2h
           max_pages t)
    = PlayerMatchHistory.from_matches player_name matches h2h_records days.
Proof.
  intros Hvalid. unfold invalid_history_request in Hvalid.
  unfold get_player_history.
  destruct (negb (Py.truthy player_name)
            || negb (Py.truthy (Py.strip player_name))) eqn:Hname.
  { exfalso. apply Hvalid. left.
    apply orb_true_iff in Hname as [Hn | Hn];
      apply negb_true_iff, truthy_empty in Hn; [| exact Hn].
    subst player_name. reflexivity. }
  destruct (Z.ltb_spec days 1); [lia |].
  destruct (Z.gtb_spec days 365); [lia |].
  destruct (Z.ltb_spec max_pages 1); [lia |].
  destruct (Z.gtb_spec max_pages 50); [lia |].
  cbn [orb].
  match goal with
  | |- exists ms h2h, fst (?m t) = _ =>
      assert (outcome (fun _ => True) m
                (fun r _ =>
                   exists ms h2h,
                     r = PlayerMatchHistory.from_matches player_name ms h2h
                           days)) as Hrun
  end.
  { eapply outcome_bind with (R := fun r _ => exists a, r = Ok a /\ True).
    - apply safe_elim.
      eapply safe_try with (R := fun _ _ => True); [| auto |].
      + intros t' _. exact I.
      + intros e. apply safe_ret. auto.
    - intros all_matches.
      eapply outcome_bind with (R := fun r _ => exists a, r = Ok a /\ True).
      + apply safe_elim.
        destruct (include_h2h && negb (is_empty (unique_by_id all_matches))).
        * eapply safe_conseq with (P' := fun _ => True); [| auto | auto].
          apply (safe_for_each _ _ (fun _ _ _ => True) (fun _ _ => True)).
          -- intros done x rest s _.
             eapply safe_conseq;
               [apply (h2h_step_grows _ _ _ _ 0) | unfold grown; lia |].
             intros [s' c] t' _. destruct c; exact I.
          -- auto.
        * apply safe_ret. auto.
      + intros h2h t' _. cbn. eauto.
      + intros e t' (a & Ha & _). discriminate.
    - intros e t' (a & Ha & _). discriminate. }
  apply (Hrun t I).
Qed.

(** C10. [get_player_history] raises a [ValueError] with no request sent
    exactly when [player_name] is empty once trimmed, or [days] is outside
    1..365, or [max_pages] is outside 1..50. *)
Theorem get_player_history_validation (player_name : string) (days : Z)
    (include_h2h : bool) (max_pages : Z) (t : trace) :
  (exists msg,
      get_player_history backend now player_name days include_h2h max_pages t
      = (Raise (ValueError msg), t))
  <-> invalid_history_request player_name days max_pages.
Proof.
  split.
  - intros [msg Hrun].
    destruct (String.eqb_spec (Py.strip player_name) "") as [| Hname];
      [left; assumption |].
    destruct (Z.ltb_spec days 1); [right; left; assumption |].
    destruct (Z.ltb_spec 365 days); [right; right; left; assumption |].
    destruct (Z.ltb_spec max_pages 1);
      [right; right; right; left; assumption |].
    destruct (Z.ltb_spec 50 max_pages);
      [right; right; right; right; assumption |].
    exfalso.
    assert (~ invalid_history_request player_name days max_pages) as Hvalid.
    { unfold invalid_history_request. intros [? | [? | [? | [? | ?]]]];
        [contradiction | lia ..]. }
    pose proof (get_player_history_sends player_name days include_h2h
                  max_pages t Hvalid) as Hsends.
    rewrite Hrun in Hsends. cbn in Hsends. lia.
  - intros Hinvalid. unfold get_player_history.
    destruct (negb (Py.truthy player_name)
              || negb (Py.truthy (Py.strip player_name))) eqn:Hname;
      [eexists; reflexivity |].
    destruct Hinvalid as [Hempty | Hrange].
    { rewrite Hempty in Hname. cbn in Hname.
      rewrite orb_true_r in Hname. discriminate. }
    destruct (Z.ltb_spec days 1); [eexists; reflexivity |].
    destruct (Z.gtb_spec days 365); [eexists; reflexivity |].
    destruct (Z.ltb_spec max_pages 1); [eexists; reflexivity |].
    destruct (Z.gtb_spec max_pages 50); [eexists; reflexivity |].
    lia.
Qed.

(** *** get_tournament_complete *)

Lemma tournament_page_safe (tournament_id match_type : string) (page : Z)
    (matches : list EventSummary.t) :
  safe (fun _ => True)
    (tournament_page backend tournament_id match_type page matches)
    (fun _ _ => True).
Proof.
  unfold tournament_page.
  destruct (String.eqb match_type "ended");
    [| destruct (String.eqb match_type "upcoming");
       [| destruct (String.eqb match_type "live")]].
  4: apply safe_ret; auto.
  all: eapply safe_bind;
    [ apply safe_attempt with (R := fun _ _ => True); intros t _; exact I
    | intros fetched; safe_branches ].
Qed.

(** The walk over a partition never raises. *)
Lemma tournament_matches_safe (tournament_id match_type : string)
    (max_pages : Z) :
  safe (fun _ => True)
    (_get_tournament_matches backend tournament_id match_type max_pages)
    (fun _ _ => True).
Proof.
  unfold _get_tournament_matches, while_pages.
  apply (safe_while_le _ _ (fun _ _ => True)).
  intros page s. apply tournament_page_safe.
Qed.

Lemma collect_partition_run (tournament_id match_type : string)
    (max_pages : Z) (all_matches : list EventSummary.t)
    (tournament_name : option string) (t : trace) :
  exists found t1 name,
    _get_tournament_matches backend tournament_id match_type max_pages t
    = (Ok found, t1)
    /\ collect_partition backend tournament_id match_type max_pages
         (all_matches, tournament_name) t
       = (Ok ((all_matches ++ found)%list, name), t1).
Proof.
  destruct (safe_run _ _ t
              (tournament_matches_safe tournament_id match_type max_pages))
    as (found & t1 & Hrun & _).
  exists found, t1. eexists. split; [exact Hrun |].
  unfold collect_partition, try_except, bind. rewrite Hrun. reflexivity.
Qed.

Lemma collect_partitions_run (tournament_id : string) (max_pages : Z)
    (t : trace) :
  exists ended upcoming live name t3,
    partitions_of backend tournament_id max_pages t ended upcoming live
    /\ collect_partitions backend tournament_id max_pages t
       = (Ok ((ended ++ upcoming ++ live)%list, name), t3).
Proof.
  destruct (collect_partition_run tournament_id "ended" max_pages [] None t)
    as (ended & t1 & n1 & He & Hc1).
  destruct (collect_partition_run tournament_id "upcoming" max_pages
              ([] ++ ended)%list n1 t1) as (upcoming & t2 & n2 & Hu & Hc2).
  destruct (collect_partition_run tournament_id "live" max_pages
              (([] ++ ended) ++ upcoming)%list n2 t2)
    as (live & t3 & n3 & Hl & Hc3).
  exists ended, upcoming, live, n3, t3. split.
  - exists t1, t2, t3. auto.
  - unfold collect_partitions, bind. rewrite Hc1, Hc2, Hc3.
    cbn [app]. rewrite <- app_assoc. reflexivity.
Qed.

(** A tournament [get_tournament_complete] returns is built by
    [TournamentData.from_matches] from the deduplicated matches of the three
    partitions. *)
Lemma get_tournament_complete_inv (tournament_id : py_id)
    (include_odds : bool) (max_pages : Z) (t t' : trace)
    (d : TournamentData.t) :
  get_tournament_complete backend tournament_id include_odds max_pages t
  = (Ok d, t') ->
  exists ended upcoming live name has_odds_data,
    partitions_of backend (py_str tournament_id) max_pages t ended upcoming live
    /\ TournamentData.from_matches (py_str tournament_id) name
         (unique_by_id (ended ++ upcoming ++ live)) has_odds_data
       = Ok d.
Proof.
  unfold get_tournament_complete.
  destruct (negb (py_id_truthy tournament_id)
            || String.eqb (Py.strip (py_str tournament_id)) "");
    [discriminate |].
  destruct ((max_pages <? 1) || (max_pages >? 20)); [discriminate |].
  intros Hrun. apply bind_ok_inv in Hrun as ([all name] & t3 & Hcollect & Hrun).
  destruct (collect_partitions_run (py_str tournament_id) max_pages t)
    as (ended & upcoming & live & name' & t3' & Hparts & Hcollect').
  rewrite Hcollect' in Hcollect. injection Hcollect as <- <- <-.
  apply bind_ok_inv in Hrun as (has_odds & t4 & _ & Hrun).
  unfold lift in Hrun. injection Hrun as Hfrom _.
  exists ended, upcoming, live. eauto.
Qed.

(** C9. The matches of a tournament [get_tournament_complete] returns are
    the matches of the ended, upcoming and live partitions deduplicated by
    identifier: their identifiers are pairwise distinct, and an identifier
    the partitions returned, once or several times, is the identifier of
    exactly one match of the result. *)
Theorem tournament_matches_deduplicated (tournament_id : py_id)
    (include_odds : bool) (max_pages : Z) (t t' : trace)
    (d : TournamentData.t) :
  get_tournament_complete backend tournament_id include_odds max_pages t
  = (Ok d, t') ->
  exists ended upcoming live,
    partitions_of backend (py_str tournament_id) max_pages t ended upcoming live
    /\ TournamentData.matches d = unique_by_id (ended ++ upcoming ++ live)
    /\ List.NoDup (map EventSummary.id (TournamentData.matches d))
    /\ (forall m, In m (ended ++ upcoming ++ live) ->
                  occurrences (EventSummary.id m) (TournamentData.matches d)
                  = 1%nat)
    /\ (forall m, In m (TournamentData.matches d) ->
                  In m (ended ++ upcoming ++ live)).
Proof.
  intros Hrun.
  destruct (get_tournament_complete_inv _ _ _ _ _ _ Hrun)
    as (ended & upcoming & live & name & has_odds & Hparts & Hfrom).
  destruct (tournament_from_matches_fields _ _ _ _ _ Hfrom) as (Hm & _).
  destruct (unique_by_id_spec (ended ++ upcoming ++ live))
    as (Hnd & Hids & Hin).
  exists ended, upcoming, live. rewrite Hm.
  repeat split; try assumption.
  intros m Hm'. apply occurrences_nodup; [exact Hnd |].
  apply Hids, in_map, Hm'.
Qed.

(** The counts of a tournament built by [TournamentData.from_matches], and
    so of one returned by [get_tournament_complete]: [total_matches] is
    [len(matches)], and the three counts add up to [total_matches] less the
    number of matches whose [time_status] is none of "0", "1", "2", "3". *)
Lemma tournament_counts_add_up :
  (forall (tournament_id tournament_name : string)
          (ms : list EventSummary.t) (has_odds_data : bool)
          (d : TournamentData.t),
      TournamentData.from_matches tournament_id tournament_name ms
        has_odds_data = Ok d ->
      TournamentData.matches d = ms
      /\ tournament_counts d
      /\ (Forall (fun m => other_status m = false) ms ->
          TournamentData.completed_matches d + TournamentData.live_matches d
          + TournamentData.upcoming_matches d
          = TournamentData.total_matches d))
  /\ (forall (tournament_id : py_id) (include_odds : bool) (max_pages : Z)
             (t t' : trace) (d : TournamentData.t),
         get_tournament_complete backend tournament_id include_odds max_pages t
         = (Ok d, t') ->
         tournament_counts d
         /\ (Forall (fun m => other_status m = false)
               (TournamentData.matches d) ->
             TournamentData.completed_matches d
             + TournamentData.live_matches d
             + TournamentData.upcoming_matches d
             = TournamentData.total_matches d)).
Proof.
  assert (forall tournament_id tournament_name ms has_odds_data d,
             TournamentData.from_matches tournament_id tournament_name ms
               has_odds_data = Ok d ->
             TournamentData.matches d = ms
             /\ tournament_counts d
             /\ (Forall (fun m => other_status m = false) ms ->
                 TournamentData.completed_matches d
                 + TournamentData.live_matches d
                 + TournamentData.upcoming_matches d
                 = TournamentData.total_matches d)) as Hfrom.
  { intros tid name ms odds d Hd.
    pose proof (tournament_from_matches_counts _ _ _ _ _ Hd) as Hcounts.
    destruct (tournament_from_matches_fields _ _ _ _ _ Hd) as (Hm & _).
    split; [exact Hm |]. split; [exact Hcounts |].
    intros Hall. destruct Hcounts as [_ Hsum]. rewrite Hsum, Hm.
    rewrite (count_if_none _ _ Hall). lia. }
  split; [exact Hfrom |].
  intros tid odds mp t t' d Hrun.
  destruct (get_tournament_complete_inv _ _ _ _ _ _ Hrun)
    as (ended & upcoming & live & name & has_odds & _ & Hd).
  destruct (Hfrom _ _ _ _ _ Hd) as (Hm & Hcounts & Hall).
  split; [exact Hcounts |]. rewrite Hm. exact Hall.
Qed.

End ManagerFacts.

(** *** get_events_bulk *)

Lemma listed_events_app (a b : trace) :
  listed_events (a ++ b) = (listed_events a ++ listed_events b)%list.
Proof. unfold listed_events. apply flat_map_app. Qed.

Lemma listed_ids_app (a b : trace) :
  listed_ids (a ++ b) = (listed_ids a ++ listed_ids b)%list.
Proof. unfold listed_ids. rewrite listed_events_app. apply map_app. Qed.

Lemma ext_quiet_refl (t : trace) : ext_quiet t t.
Proof. exists []. rewrite app_nil_r. auto. Qed.

Lemma ext_quiet_snoc (t1 t : trace) (x : exchange) :
  ext_quiet t1 t -> listed_events [x] = [] -> ext_quiet t1 (t ++ [x]).
Proof.
  intros (q & -> & Hq) Hx. exists (q ++ [x])%list.
  rewrite app_assoc, listed_events_app, Hq, Hx. auto.
Qed.

#[local] Hint Resolve ext_quiet_refl : core.

Lemma set_view_data_id (v : list Event.t) (e : EventSummary.t) :
  EventSummary.id (EventSummary.set_view_data v e) = EventSummary.id e.
Proof. reflexivity. Qed.

Lemma set_odds_data_id (v : json) (e : EventSummary.t) :
  EventSummary.id (EventSummary.set_odds_data v e) = EventSummary.id e.
Proof. reflexivity. Qed.

Section BulkFacts.

Variable backend : Backend.

Lemma enrich_quiet (include_odds include_view : bool)
    (event : EventSummary.t) (t1 : trace) :
  safe (ext_quiet t1) (enrich backend include_odds include_view event)
    (fun e t => ext_quiet t1 t /\ EventSummary.id e = EventSummary.id event).
Proof.
  intros t Ht. unfold enrich, bind, try_except, get_details.
  assert ((len [EventSummary.id event] >? 10) = false) as -> by reflexivity.
  unfold odds_get_summary, request_view, request_odds_summary, ret.
  destruct include_view, include_odds; cbn;
    repeat match goal with
      | |- context [event_view backend ?t ?ids] =>
          destruct (event_view backend t ids); cbn
      | |- context [odds_summary backend ?t ?i] =>
          destruct (odds_summary backend t i); cbn
      end;
    (eexists; split; [reflexivity |]; split; [| reflexivity];
     repeat apply ext_quiet_snoc; auto).
Qed.

Lemma scan_event_inv (include_odds include_view : bool)
    (event : EventSummary.t) (R X : list string) (st : scan_state)
    (t1 : trace) :
  scan_inv R X st ->
  safe (ext_quiet t1) (scan_event backend include_odds include_view event st)
    (fun out t =>
       ext_quiet t1 t /\ snd out = Continue
       /\ scan_inv R (X ++ [EventSummary.id event]) (fst out)).
Proof.
  intros (Hnf & Hkeys & Hkeyed & Hnd). destruct st as [results not_found].
  cbn [fst snd] in *. unfold scan_event.
  destruct (bool_decide_reflect (EventSummary.id event ∈ not_found))
    as [Hin | Hnotin].
  - eapply safe_bind; [apply enrich_quiet |].
    intros enriched. apply safe_ret. intros t [Ht Hid].
    split; [exact Ht |]. split; [reflexivity |].
    unfold scan_inv. cbn [fst snd].
    apply Hnf in Hin as [HinR HnotX].
    split; [| split; [| split]].
    + intros i. rewrite elem_of_difference, elem_of_singleton, Hnf, in_app_iff.
      cbn. intuition congruence.
    + intros i. rewrite dict_keys_set, Hkeys, in_app_iff. cbn.
      intuition congruence.
    + rewrite <- Hid. apply keyed_by_id_set, Hkeyed.
    + apply dict_keys_set_nodup, Hnd.
  - apply safe_ret. intros t Ht.
    split; [exact Ht |]. split; [reflexivity |].
    unfold scan_inv. cbn [fst snd].
    split; [| split; [| split]]; try assumption.
    + intros i. rewrite Hnf, in_app_iff. cbn. split; [| tauto].
      intros [HinR HnotX]. split; [exact HinR |].
      intros [HinX | [<- | []]]; [tauto |]. apply Hnotin, Hnf. tauto.
    + intros i. rewrite Hkeys, in_app_iff. cbn. split; [tauto |].
      intros [HinR [HinX | [<- | []]]]; [tauto |]. split; [exact HinR |].
      destruct (in_dec string_dec (EventSummary.id event) X) as [| HnotX];
        [assumption |].
      exfalso. apply Hnotin, Hnf. tauto.
Qed.

Lemma scan_events_inv (include_odds include_view : bool)
    (events : list EventSummary.t) (R X : list string) (st : scan_state)
    (t1 : trace) :
  scan_inv R X st ->
  safe (ext_quiet t1)
    (for_each (scan_event backend include_odds include_view) events st)
    (fun st' t =>
       ext_quiet t1 t
       /\ scan_inv R (X ++ map EventSummary.id events) st').
Proof.
  intros Hinv.
  eapply safe_conseq;
    [ apply (safe_for_each _ events
               (fun done s t =>
                  ext_quiet t1 t
                  /\ scan_inv R (X ++ map EventSummary.id done) s)
               (fun s t =>
                  ext_quiet t1 t
                  /\ scan_inv R (X ++ map EventSummary.id events) s))
    | | ].
  - intros done x rest s _ t [Ht Hs].
    destruct (scan_event_inv include_odds include_view x R _ s t1 Hs t Ht)
      as (out & Hout & Hq & Hc & Hinv').
    exists out. split; [exact Hout |]. rewrite Hc. split; [exact Hq |].
    rewrite map_app, app_assoc. exact Hinv'.
  - auto.
  - intros t Ht. cbn. rewrite app_nil_r. auto.
  - auto.
Qed.

Lemma scanned_listed (t0 : trace) (R : list string) (st st' : scan_state)
    (s q : trace) (x : exchange) :
  scan_inv R (listed_ids s ++ listed_ids [x]) st' ->
  listed_events q = [] ->
  scanned t0 R st' (((t0 ++ s) ++ [x]) ++ q).
Proof.
  intros Hinv Hq. exists (s ++ [x] ++ q). split.
  - rewrite <- !app_assoc. reflexivity.
  - rewrite !listed_ids_app. unfold listed_ids at 3. rewrite Hq. cbn [map].
    rewrite app_nil_r. exact Hinv.
Qed.

Lemma scan_page_inv (include_odds include_view : bool) (ep : endpoint)
    (league_id : option string) (page : Z) (t0 : trace) (R : list string)
    (st : scan_state) :
  safe (scanned t0 R st)
    (scan_page backend include_odds include_view
       (list_events backend ep league_id) page st)
    (fun out t => scanned t0 R (fst out) t).
Proof.
  intros t (s & -> & Hinv).
  unfold scan_page, bind, attempt, list_events.
  destruct (page <? 1).
  { cbn. eexists. split; [reflexivity |]. exists s. auto. }
  unfold request_events.
  set (reply := events backend (t0 ++ s) ep (league_param league_id) page).
  set (x := Listed ep (league_param league_id) page reply).
  assert (forall st', scan_inv R (listed_ids s ++ listed_ids [x]) st' ->
             forall q, listed_events q = [] ->
               scanned t0 R st' (((t0 ++ s) ++ [x]) ++ q)) as Hdone.
  { intros st' Hst' q Hq. apply scanned_listed; assumption. }
  destruct reply as [response | e] eqn:Hreply.
  - destruct (is_empty (APIResponse.results response)) eqn:Hempty.
    + cbn. eexists. split; [reflexivity |]. cbn [fst snd].
      rewrite <- (app_nil_r ((t0 ++ s) ++ [x])). apply Hdone; [| reflexivity].
      subst x. unfold listed_ids at 2. cbn.
      destruct (APIResponse.results response); [| discriminate].
      cbn. rewrite app_nil_r. exact Hinv.
    + destruct (scan_events_inv include_odds include_view
                  (APIResponse.results response) R (listed_ids s) st
                  ((t0 ++ s) ++ [x]) Hinv ((t0 ++ s) ++ [x])
                  (ext_quiet_refl _))
        as (st' & Hrun & (q & Hq & Hquiet) & Hinv').
      destruct (for_each _ (APIResponse.results response) st
                  ((t0 ++ s) ++ [x])) as [r t2].
      cbn [fst snd] in Hrun, Hq. subst r t2.
      assert (scanned t0 R st' (((t0 ++ s) ++ [x]) ++ q)) as Hfinal.
      { apply Hdone; [| exact Hquiet].
        subst x. unfold listed_ids at 2. cbn. rewrite app_nil_r. exact Hinv'. }
      destruct (bool_decide (snd st' = ∅));
        [cbn; eexists; split; [reflexivity | exact Hfinal] |].
      destruct (last_page response) as [[] |];
        cbn; eexists; (split; [reflexivity | exact Hfinal]).
  - cbn. eexists. split; [reflexivity |]. cbn [fst snd].
    rewrite <- (app_nil_r ((t0 ++ s) ++ [x])). apply Hdone; [| reflexivity].
    subst x. unfold listed_ids at 2. cbn. rewrite app_nil_r. exact Hinv.
Qed.

Lemma scan_type_inv (include_odds include_view : bool) (event_type : string)
    (t0 : trace) (R : list string) (st : scan_state) :
  safe (scanned t0 R st)
    (scan_type backend include_odds include_view event_type st)
    (fun out t => scanned t0 R (fst out) t).
Proof.
  unfold scan_type.
  destruct (bool_decide (snd st = ∅)); [apply safe_ret; auto |].
  assert (forall ep,
             safe (scanned t0 R st)
               (let* st' :=
                  for_each
                    (scan_page backend include_odds include_view
                       (list_events backend ep None))
                    [1; 2; 3; 4; 5] st in
                ret (st', Continue))
               (fun out t => scanned t0 R (fst out) t)) as Hpages.
  { intros ep. eapply safe_bind.
    - apply (safe_for_each _ _ (fun _ s t => scanned t0 R s t)
               (fun s t => scanned t0 R s t)).
      + intros done page rest s _.
        eapply safe_conseq;
          [apply (scan_page_inv _ _ _ _ _ t0 R s) | auto |].
        intros [s' c] t Ht. destruct c; exact Ht.
      + auto.
    - intros st'. apply safe_ret. auto. }
  unfold method_map.
  destruct (String.eqb event_type "ended"); [apply Hpages |].
  destruct (String.eqb event_type "upcoming"); [apply Hpages |].
  destruct (String.eqb event_type "inplay"); [apply Hpages |].
  apply safe_ret. auto.
Qed.

(** C6. For a non-empty list of at most 100 identifiers, [get_events_bulk]
    does not raise and returns a mapping whose keys are exactly the requested
    identifiers, as strings, that occur among the events of the pages it
    fetched; each key maps to an event of that identifier. A requested
    identifier that was not come across is absent: on a backend that only
    holds the event "X", [get_events_bulk(["X", "Y"])] is a one-entry
    mapping with the key "X". *)
Theorem get_events_bulk_keys (event_ids : list py_id)
    (include_odds include_view : bool) (t : trace) :
  event_ids <> [] ->
  (length event_ids <= 100)%nat ->
  exists (results : Dict.t EventSummary.t) (s : trace),
    get_events_bulk backend event_ids include_odds include_view t
    = (Ok results, t ++ s)
    /\ (forall i, In i (Dict.keys results)
                  <-> In i (map py_str event_ids) /\ In i (listed_ids s))
    /\ List.NoDup (Dict.keys results)
    /\ (forall i e, Dict.get i results = Some e -> EventSummary.id e = i)
    /\ exists (x : EventSummary.t) (t' : trace),
         get_events_bulk
           (Sample.backend_of [Sample.finished "X" "3-1"] [] [])
           [IdStr "X"; IdStr "Y"] false false []
         = (Ok [("X", x)], t').
Proof.
  intros Hne Hlen. unfold get_events_bulk.
  destruct event_ids as [| i0 ids] eqn:Hids; [contradiction |].
  rewrite <- Hids in *. cbn [is_empty].
  assert (is_empty event_ids = false) as -> by (rewrite Hids; reflexivity).
  destruct (Z.gtb_spec (len event_ids) 100) as [Hgt | _];
    [unfold len in Hgt; lia |].
  set (R := map py_str event_ids).
  assert (scanned t R (Dict.empty, list_to_set R) t) as Hstart.
  { exists []. rewrite app_nil_r. split; [reflexivity |].
    unfold scan_inv. cbn. split; [| split; [| split]].
    - intros i. rewrite elem_of_list_to_set, list_elem_of_In. tauto.
    - tauto.
    - constructor.
    - constructor. }
  assert (safe (scanned t R (Dict.empty, list_to_set R))
            (for_each (scan_type backend include_odds include_view)
               ["ended"; "upcoming"; "inplay"] (Dict.empty, list_to_set R))
            (fun st t' => scanned t R st t')) as Hloop.
  { apply (safe_for_each _ _ (fun _ st t' => scanned t R st t')
             (fun st t' => scanned t R st t')).
    - intros done ty rest st _.
      eapply safe_conseq; [apply (scan_type_inv _ _ _ t R st) | auto |].
      intros [st' c] t' Ht'. destruct c; exact Ht'.
    - auto. }
  destruct (Hloop t Hstart)
    as ([results not_found] & Hrun & (s & Hs & Hinv)).
  unfold bind.
  destruct (for_each (scan_type backend include_odds include_view) _ _ t)
    as [r t1].
  cbn [fst snd] in Hrun, Hs. subst r t1.
  destruct Hinv as (_ & Hkeys & Hkeyed & Hnd). cbn [fst snd] in *.
  exists results, s. split; [reflexivity |].
  split; [exact Hkeys |]. split; [exact Hnd |]. split.
  - intros i e Hget. clear - Hget Hkeyed.
    induction Hkeyed as [| [k v] d Hkv _ IH]; cbn in *; [discriminate |].
    destruct (String.eqb_spec k i); [congruence | auto].
  - eexists. eexists. vm_compute. reflexivity.
Qed.

End BulkFacts.

(** ** The statements at sample inputs *)

(** The three counts do not add up to the total for every list of
    matches. *)
Lemma tournament_counts_not_always_total :
  ~ (forall (tournament_id tournament_name : string)
            (ms : list EventSummary.t) (has_odds_data : bool)
            (d : TournamentData.t),
        TournamentData.from_matches tournament_id tournament_name ms
          has_odds_data = Ok d ->
        TournamentData.completed_matches d + TournamentData.live_matches d
        + TournamentData.upcoming_matches d
        = TournamentData.total_matches d).
Proof.
  intros Hclaim.
  specialize (Hclaim "29128" "TT Cup" [Sample.event "9" "4" None] false
                _ eq_refl).
  cbv in Hclaim. discriminate.
Qed.

Lemma tournament_counts_add_up_example :
  exists d : TournamentData.t,
    TournamentData.from_matches "29128" "TT Cup"
      [Sample.finished "1" "3-1"; Sample.event "2" "2" (Some "1-0");
       Sample.event "3" "0" None; Sample.event "4" "4" None] false = Ok d
    /\ TournamentData.completed_matches d + TournamentData.live_matches d
       + TournamentData.upcoming_matches d
       = TournamentData.total_matches d - 1.
Proof.
  destruct (tournament_counts_add_up Sample.failing) as [Hfrom _].
  destruct (Hfrom "29128" "TT Cup"
              [Sample.finished "1" "3-1"; Sample.event "2" "2" (Some "1-0");
               Sample.event "3" "0" None; Sample.event "4" "4" None] false
              _ eq_refl) as (_ & [_ Hsum] & _).
  eexists. split; [reflexivity |]. exact Hsum.
Qed.

(** C1. A match whose [time_status] is "4" is counted in [total_matches]
    and in none of [completed_matches], [live_matches], [upcoming_matches]:
    on a tournament of one such match, built by [from_matches] or returned
    by [get_tournament_complete], the three counts add up to 0 and the total
    is 1. *)
Theorem tournament_counts_miss_other_status :
  (exists d : TournamentData.t,
      TournamentData.from_matches "29128" "TT Cup"
        [Sample.event "9" "4" None] false = Ok d
      /\ TournamentData.total_matches d = 1
      /\ TournamentData.completed_matches d + TournamentData.live_matches d
         + TournamentData.upcoming_matches d = 0)
  /\ (exists (d : TournamentData.t) (t' : trace),
         get_tournament_complete
           (Sample.backend_of [Sample.event "9" "4" None] [] [])
           (IdStr "29128") false 10 [] = (Ok d, t')
         /\ TournamentData.total_matches d = 1
         /\ TournamentData.completed_matches d
            + TournamentData.live_matches d
            + TournamentData.upcoming_matches d = 0).
Proof.
  split.
  - eexists. split; [reflexivity |]. split; reflexivity.
  - eexists. eexists. split; [vm_compute; reflexivity |]. split; reflexivity.
Qed.

(** C3. With accepted parameters, on a backend whose first page of ended
    matches holds a finished match of the player with the score "3-x",
    [get_player_history] raises the [ValueError] of [int("x")]. *)
Theorem get_player_history_raises_on_malformed_score :
  ~ invalid_history_request "A" 30 10
  /\ fst (get_player_history
            (Sample.backend_of [Sample.finished "1" "3-x"] [] [])
            Sample.now "A" 30 false 10 [])
     = Raise (ValueError "invalid literal for int() with base 10").
Proof.
  split.
  - unfold invalid_history_request. intros [H | H]; [discriminate H | lia].
  - vm_compute. reflexivity.
Qed.

Lemma tournament_matches_deduplicated_witness :
  exists (d : TournamentData.t) (t' : trace),
    get_tournament_complete
      (Sample.backend_of [Sample.finished "1" "3-1"] []
         [Sample.event "1" "2" (Some "2-1")])
      (IdStr "29128") false 10 [] = (Ok d, t')
    /\ map EventSummary.id (TournamentData.matches d) = ["1"]
    /\ List.NoDup (map EventSummary.id (TournamentData.matches d)).
Proof.
  eexists. eexists. split; [vm_compute; reflexivity |].
  split; [reflexivity |].
  match goal with
  | |- List.NoDup (map EventSummary.id (TournamentData.matches ?d)) =>
      destruct (tournament_matches_deduplicated
                  (Sample.backend_of [Sample.finished "1" "3-1"] []
                     [Sample.event "1" "2" (Some "2-1")])
                  (IdStr "29128") false 10 [] _ d eq_refl)
        as (ended & upcoming & live & _ & _ & Hnd & _)
  end.
  exact Hnd.
Defined.

Lemma get_player_history_validation_witness :
  exists msg : string,
    get_player_history Sample.failing Sample.now "   " 30 true 10 []
    = (Raise (ValueError msg), []).
Proof.
  apply get_player_history_validation. left. reflexivity.
Defined.

Lemma get_events_bulk_keys_witness :
  exists (results : Dict.t EventSummary.t) (s : trace),
    get_events_bulk (Sample.backend_of [Sample.finished "X" "3-1"] [] [])
      [IdStr "X"; IdInt 7] true true [] = (Ok results, s)
    /\ In "X" (Dict.keys results)
    /\ ~ In "7" (Dict.keys results).
Proof.
  destruct (get_events_bulk_keys
              (Sample.backend_of [Sample.finished "X" "3-1"] [] [])
              [IdStr "X"; IdInt 7] true true [])
    as (results & s & Hrun & Hkeys & _);
    [discriminate | cbn; lia |].
  exists results, s. split; [exact Hrun |].
  vm_compute in Hrun. injection Hrun as <- <-.
  split; [left; reflexivity | intros [H | []]; discriminate H].
Defined.

(** * Further properties of the models and of the manager *)

(** ** Sorting *)

Section Sorting.

Context {A : Type} (le : A -> A -> bool).

Lemma insert_sorted_perm (x : A) (l : list A) :
  Permutation (insert_sorted le x l) (x :: l).
Proof.
  induction l as [| y l IH]; cbn; [reflexivity |].
  destruct (le y x); [| reflexivity].
  rewrite IH. apply perm_swap.
Qed.

Lemma sorted_by_perm (xs : list A) : Permutation (sorted_by le xs) xs.
Proof.
  unfold sorted_by.
  assert (forall acc, Permutation
                        (fold_left (fun acc x => insert_sorted le x acc) xs acc)
                        (acc ++ xs)) as Hgen.
  { induction xs as [| x xs IH]; intros acc; cbn.
    - rewrite app_nil_r. reflexivity.
    - rewrite IH, insert_sorted_perm. apply Permutation_middle. }
  apply (Hgen []).
Qed.

Hypothesis le_total : forall a b, le a b = true \/ le b a = true.

Lemma insert_sorted_sorted (x : A) (l : list A) :
  Sorted (fun a b => le a b = true) l ->
  Sorted (fun a b => le a b = true) (insert_sorted le x l).
Proof.
  induction 1 as [| y l Hl IH Hhd]; cbn.
  - repeat constructor.
  - destruct (le y x) eqn:Hyx.
    + constructor; [exact IH |].
      destruct l as [| z l]; cbn.
      * constructor. exact Hyx.
      * destruct (le z x); constructor; [| exact Hyx].
        inversion Hhd; assumption.
    + constructor; [constructor; assumption |].
      constructor. destruct (le_total x y) as [H | H]; [exact H | congruence].
Qed.

Lemma sorted_by_sorted (xs : list A) :
  Sorted (fun a b => le a b = true) (sorted_by le xs).
Proof.
  unfold sorted_by.
  assert (forall acc, Sorted (fun a b => le a b = true) acc ->
             Sorted (fun a b => le a b = true)
               (fold_left (fun acc x => insert_sorted le x acc) xs acc))
    as Hgen.
  { induction xs as [| x xs IH]; intros acc Hacc; cbn; [exact Hacc |].
    apply IH, insert_sorted_sorted, Hacc. }
  apply Hgen. constructor.
Qed.

End Sorting.

(** ** Entity models, continued *)

Lemma rmap_ok {A B : Type} (f : A -> result B) (xs : list A) (ys : list B) :
  rmap f xs = Ok ys -> Forall2 (fun x y => f x = Ok y) xs ys.
Proof.
  revert ys. induction xs as [| x xs IH]; intros ys; cbn [rmap].
  - intros [= <-]. constructor.
  - destruct (f x) as [y |] eqn:Hx; cbn [rbind]; [| discriminate].
    destruct (rmap f xs) as [ys' |]; cbn [rbind]; [| discriminate].
    intros [= <-]. constructor; auto.
Qed.

Lemma rmap_total {A B : Type} (f : A -> result B) (xs : list A) :
  Forall (fun x => is_ok (f x) = true) xs -> is_ok (rmap f xs) = true.
Proof.
  induction 1 as [| x xs Hx _ IH]; cbn [rmap]; [reflexivity |].
  destruct (f x); [| discriminate]. cbn [rbind].
  destruct (rmap f xs); [reflexivity | discriminate].
Qed.

Lemma rmap_first_failure {A B : Type} (f : A -> result B)
    (pre post : list A) (x : A) (e : exn) :
  Forall (fun x => is_ok (f x) = true) pre ->
  f x = Raise e ->
  rmap f (pre ++ x :: post) = Raise e.
Proof.
  intros Hpre Hx. induction Hpre as [| y pre Hy _ IH]; cbn [app rmap].
  - rewrite Hx. reflexivity.
  - destruct (f y); [| discriminate]. cbn [rbind]. rewrite IH. reflexivity.
Qed.

Lemma nodup_snoc {A : Type} (l : list A) (x : A) :
  List.NoDup l -> ~ In x l -> List.NoDup (l ++ [x]).
Proof.
  intros Hnd Hx. induction l as [| y l IH]; cbn.
  - constructor; [intros [] | constructor].
  - apply NoDup_cons_iff in Hnd as [Hy Hnd]. constructor.
    + rewrite in_app_iff. cbn in *. intuition.
    + apply IH; [assumption | cbn in Hx; tauto].
Qed.

(** The roster loop, from any point of its run: [before] has been visited,
    [rest] is still to visit. *)
Lemma roster_loop (all rest : list Player.t) :
  forall (before players : list Player.t) (seen : gset string),
    all = before ++ rest ->
    (forall i, i ∈ seen <-> In i (map Player.id players)) ->
    List.NoDup (map Player.id players) ->
    (forall p, In p before -> In (Player.id p) (map Player.id players)) ->
    (forall p, In p players ->
               exists a b, before = a ++ p :: b
                           /\ ~ In (Player.id p) (map Player.id a)) ->
    let out := fst (fold_left TournamentData.add_player rest (players, seen)) in
    List.NoDup (map Player.id out)
    /\ (forall p, In p all -> In (Player.id p) (map Player.id out))
    /\ (forall p, In p out ->
                  exists a b, all = a ++ p :: b
                              /\ ~ In (Player.id p) (map Player.id a)).
Proof.
  induction rest as [| q rest IH];
    intros before players seen Hsplit Hseen Hnd Hcov Hfirst; cbn.
  - rewrite app_nil_r in Hsplit. rewrite Hsplit. auto.
  - destruct (bool_decide_reflect (Player.id q ∈ seen)) as [Hin | Hnotin].
    + apply (IH (before ++ [q])); auto.
      * rewrite Hsplit, <- app_assoc. reflexivity.
      * intros p Hp. apply in_app_iff in Hp as [Hp | [<- | []]]; auto.
        apply Hseen, Hin.
      * intros p Hp. destruct (Hfirst p Hp) as (a & b & -> & Ha).
        exists a, (b ++ [q]). rewrite <- app_assoc. auto.
    + assert (~ In (Player.id q) (map Player.id players)) as Hq
        by (intros H; apply Hnotin, Hseen, H).
      apply (IH (before ++ [q])).
      * rewrite Hsplit, <- app_assoc. reflexivity.
      * intros i. rewrite elem_of_union, elem_of_singleton, Hseen.
        rewrite map_app, in_app_iff. cbn. intuition congruence.
      * rewrite map_app. apply nodup_snoc; assumption.
      * intros p Hp. rewrite map_app, in_app_iff.
        apply in_app_iff in Hp as [Hp | [<- | []]]; [auto | cbn; tauto].
      * intros p Hp. apply in_app_iff in Hp as [Hp | [<- | []]].
        -- destruct (Hfirst p Hp) as (a & b & -> & Ha).
           exists a, (b ++ [q]). rewrite <- app_assoc. auto.
        -- exists before, []. split; [reflexivity |].
           intros Hin. apply Hq.
           apply in_map_iff in Hin as (p' & Hid & Hp').
           rewrite <- Hid. apply Hcov, Hp'.
Qed.

(** X1. The roster of a tournament built by [from_matches] holds one player
    for every participant identifier: the identifiers of [players] are
    pairwise distinct, every participant's identifier is among them, and
    each player of the roster is the first participant, in the order home
    then away of the matches in turn, that carries its identifier. *)
Theorem tournament_roster (tournament_id tournament_name : string)
    (ms : list EventSummary.t) (has_odds_data : bool) (d : TournamentData.t) :
  TournamentData.from_matches tournament_id tournament_name ms has_odds_data
  = Ok d ->
  List.NoDup (map Player.id (TournamentData.players d))
  /\ (forall p, In p (participants ms) ->
                In (Player.id p) (map Player.id (TournamentData.players d)))
  /\ (forall p, In p (TournamentData.players d) ->
                exists before after,
                  participants ms = before ++ p :: after
                  /\ ~ In (Player.id p) (map Player.id before)).
Proof.
  intros Hfrom.
  assert (TournamentData.players d = TournamentData.roster ms) as ->.
  { unfold TournamentData.from_matches in Hfrom.
    destruct (rmap _ ms); cbn [rbind] in Hfrom; [| discriminate].
    injection Hfrom as <-. reflexivity. }
  unfold TournamentData.roster. fold (participants ms).
  apply (roster_loop (participants ms) (participants ms) [] [] ∅); cbn; auto.
  - intros i. split; [intros H; exfalso; revert H; apply not_elem_of_empty
                     | intros []].
  - constructor.
  - intros p [].
Qed.

Lemma tournament_roster_witness :
  exists d : TournamentData.t,
    TournamentData.from_matches "29128" "TT Cup"
      [Sample.finished "1" "3-1"; Sample.finished "2" "1-3"] false = Ok d
    /\ List.NoDup (map Player.id (TournamentData.players d)).
Proof.
  pose proof (tournament_roster "29128" "TT Cup"
                [Sample.finished "1" "3-1"; Sample.finished "2" "1-3"] false
                _ eq_refl) as (Hnd & _).
  eexists. split; [reflexivity |]. exact Hnd.
Defined.

Lemma min_date_spec (d : Datetime.t) (ds : list Datetime.t) :
  In (TournamentData.min_date d ds) (d :: ds)
  /\ Forall (fun x => TournamentData.min_date d ds <= x) (d :: ds).
Proof.
  unfold TournamentData.min_date. revert d.
  induction ds as [| x ds IH]; intros d; cbn [fold_left].
  - split; [left; reflexivity | repeat constructor; lia].
  - destruct (IH (Z.min d x)) as [Hin Hall].
    inversion Hall as [| ? ? Hmin Hrest]; subst. split.
    + destruct Hin as [Hin | Hin]; [| right; right; exact Hin].
      rewrite <- Hin. destruct (Z.min_spec d x) as [[_ ->] | [_ ->]];
        [left | right; left]; reflexivity.
    + constructor; [lia |]. constructor; [lia | exact Hrest].
Qed.

Lemma max_date_spec (d : Datetime.t) (ds : list Datetime.t) :
  In (TournamentData.max_date d ds) (d :: ds)
  /\ Forall (fun x => x <= TournamentData.max_date d ds) (d :: ds).
Proof.
  unfold TournamentData.max_date. revert d.
  induction ds as [| x ds IH]; intros d; cbn [fold_left].
  - split; [left; reflexivity | repeat constructor; lia].
  - destruct (IH (Z.max d x)) as [Hin Hall].
    inversion Hall as [| ? ? Hmax Hrest]; subst. split.
    + destruct Hin as [Hin | Hin]; [| right; right; exact Hin].
      rewrite <- Hin. destruct (Z.max_spec d x) as [[_ ->] | [_ ->]];
        [right; left | left]; reflexivity.
    + constructor; [lia |]. constructor; [lia | exact Hrest].
Qed.

Lemma forall2_in_l {A B : Type} (R : A -> B -> Prop) (xs : list A)
    (ys : list B) (x : A) :
  Forall2 R xs ys -> In x xs -> exists y, In y ys /\ R x y.
Proof.
  induction 1 as [| a b xs ys Hab _ IH]; cbn; [tauto |].
  intros [<- | Hin]; [eauto |]. destruct (IH Hin) as (y & Hy & Hr). eauto.
Qed.

Lemma forall2_in_r {A B : Type} (R : A -> B -> Prop) (xs : list A)
    (ys : list B) (y : B) :
  Forall2 R xs ys -> In y ys -> exists x, In x xs /\ R x y.
Proof.
  induction 1 as [| a b xs ys Hab _ IH]; cbn; [tauto |].
  intros [<- | Hin]; [eauto |]. destruct (IH Hin) as (x & Hx & Hr). eauto.
Qed.

(** X2. The date range of a tournament built by [from_matches] is
    [(None, None)] when there is no match; otherwise it is a pair of dates
    of matches of the tournament, and the date of every match lies between
    the two. *)
Theorem tournament_date_range (tournament_id tournament_name : string)
    (ms : list EventSummary.t) (has_odds_data : bool) (d : TournamentData.t) :
  TournamentData.from_matches tournament_id tournament_name ms has_odds_data
  = Ok d ->
  (ms = [] -> TournamentData.date_range d = (None, None))
  /\ (ms <> [] ->
      exists lo hi,
        TournamentData.date_range d = (Some lo, Some hi)
        /\ (exists m, In m ms /\ EventSummary.event_datetime m = Ok lo)
        /\ (exists m, In m ms /\ EventSummary.event_datetime m = Ok hi)
        /\ (forall m, In m ms ->
                      exists dt, EventSummary.event_datetime m = Ok dt
                                 /\ lo <= dt <= hi)).
Proof.
  unfold TournamentData.from_matches.
  destruct (rmap EventSummary.event_datetime ms) as [dates |] eqn:Hdates;
    cbn [rbind]; [| discriminate].
  intros [= <-]. cbn [TournamentData.date_range].
  apply rmap_ok in Hdates. split.
  - intros ->. inversion Hdates. reflexivity.
  - intros Hne. destruct dates as [| d0 ds].
    { inversion Hdates; subst. contradiction. }
    destruct (min_date_spec d0 ds) as [Hlo_in Hlo].
    destruct (max_date_spec d0 ds) as [Hhi_in Hhi].
    eexists. eexists. split; [reflexivity |].
    split; [| split].
    + destruct (forall2_in_r _ _ _ _ Hdates Hlo_in) as (m & Hm & Hdt). eauto.
    + destruct (forall2_in_r _ _ _ _ Hdates Hhi_in) as (m & Hm & Hdt). eauto.
    + intros m Hm.
      destruct (forall2_in_l _ _ _ _ Hdates Hm) as (dt & Hdt_in & Hdt).
      exists dt. split; [exact Hdt |].
      rewrite List.Forall_forall in Hlo, Hhi. split; auto.
Qed.

Lemma tournament_date_range_witness :
  exists d : TournamentData.t,
    TournamentData.from_matches "29128" "TT Cup"
      [Sample.finished "1" "3-1"] false = Ok d
    /\ TournamentData.date_range d
       = (Some 1753811400000000, Some 1753811400000000).
Proof.
  pose proof (tournament_date_range "29128" "TT Cup"
                [Sample.finished "1" "3-1"] false _ eq_refl) as [_ Hrange].
  destruct Hrange as (lo & hi & Hd & _); [discriminate |].
  eexists. split; [reflexivity |]. reflexivity.
Defined.

(** X3. [TournamentData.from_matches] returns a tournament exactly when the
    [time] of every match is a timestamp [event_datetime] can read;
    otherwise it raises what [event_datetime] raises on the first match
    whose [time] it cannot read. *)
Theorem tournament_from_matches_returns (tournament_id tournament_name : string)
    (ms : list EventSummary.t) (has_odds_data : bool) :
  ((exists d, TournamentData.from_matches tournament_id tournament_name ms
                has_odds_data = Ok d)
   <-> Forall (fun m => is_ok (EventSummary.event_datetime m) = true) ms)
  /\ (forall before m after e,
         ms = before ++ m :: after ->
         Forall (fun m => is_ok (EventSummary.event_datetime m) = true)
           before ->
         EventSummary.event_datetime m = Raise e ->
         TournamentData.from_matches tournament_id tournament_name ms
           has_odds_data = Raise e).
Proof.
  split; [split |].
  - intros [d Hd]. unfold TournamentData.from_matches in Hd.
    destruct (rmap EventSummary.event_datetime ms) as [dates |] eqn:Hdates;
      cbn [rbind] in Hd; [| discriminate].
    apply rmap_ok in Hdates. clear Hd.
    induction Hdates as [| m dt ms dates Hm _ IH]; constructor; auto.
    rewrite Hm. reflexivity.
  - intros Hall. apply rmap_total in Hall.
    unfold TournamentData.from_matches.
    destruct (rmap EventSummary.event_datetime ms); [| discriminate].
    cbn [rbind]. eauto.
  - intros before m after e -> Hbefore Hm.
    unfold TournamentData.from_matches.
    rewrite (rmap_first_failure _ before after m e Hbefore Hm). reflexivity.
Qed.

Lemma tournament_from_matches_returns_witness :
  TournamentData.from_matches "29128" "TT Cup"
    [Sample.finished "1" "3-1";
     EventSummary.mk "2" "92" "soon" "1" "29128" "TT Cup" None
       (Sample.player "1" "A") (Sample.player "2" "B") None [] None None None]
    false
  = Raise (ValueError "invalid literal for int() with base 10").
Proof.
  apply (proj2 (tournament_from_matches_returns "29128" "TT Cup" _ false)
           [Sample.finished "1" "3-1"] _ [] _ eq_refl).
  - repeat constructor.
  - reflexivity.
Defined.

Lemma sorted_leb_strict (l : list string) :
  Sorted (fun a b => String.leb a b = true) l ->
  List.NoDup l ->
  Sorted (fun a b => String.ltb a b = true) l.
Proof.
  induction 1 as [| a l Hl IH Hhd]; intros Hnd; constructor.
  - apply IH. apply NoDup_cons_iff in Hnd. tauto.
  - destruct Hhd as [| b l Hab]; constructor.
    apply NoDup_cons_iff in Hnd as [Hnotin _].
    unfold String.leb in Hab. unfold String.ltb.
    destruct (String.compare a b) eqn:Hcmp; try reflexivity; try discriminate.
    apply String.compare_eq_iff in Hcmp. subst b.
    exfalso. apply Hnotin. left. reflexivity.
Qed.

(** X4. [unique_players] lists the names of the home and away players of
    the matches, each name once, in strictly increasing order. *)
Theorem unique_players_sorted_names (d : TournamentData.t) :
  Sorted (fun a b => String.ltb a b = true) (TournamentData.unique_players d)
  /\ List.NoDup (TournamentData.unique_players d)
  /\ (forall n,
         In n (TournamentData.unique_players d)
         <-> exists m,
               In m (TournamentData.matches d)
               /\ (n = Player.name (EventSummary.home_player m)
                   \/ n = Player.name (EventSummary.away_player m))).
Proof.
  unfold TournamentData.unique_players.
  set (names := flat_map
                  (fun m => [Player.name (EventSummary.home_player m);
                             Player.name (EventSummary.away_player m)])
                  (TournamentData.matches d)).
  set (player_names := list_to_set names : gset string).
  pose proof (sorted_by_perm String.leb (elements player_names)) as Hperm.
  assert (List.NoDup (sorted_by String.leb (elements player_names))) as Hnd.
  { apply (Permutation_NoDup (Permutation_sym Hperm)).
    apply NoDup_ListNoDup, NoDup_elements. }
  split; [| split].
  - apply sorted_leb_strict; [| exact Hnd].
    apply sorted_by_sorted. apply String.leb_total.
  - exact Hnd.
  - intros n.
    assert (In n (sorted_by String.leb (elements player_names))
            <-> In n names) as ->.
    { split; intros Hin.
      - apply (Permutation_in _ Hperm) in Hin.
        apply list_elem_of_In, elem_of_elements in Hin.
        apply elem_of_list_to_set, list_elem_of_In in Hin. exact Hin.
      - apply (Permutation_in _ (Permutation_sym Hperm)).
        apply list_elem_of_In, elem_of_elements.
        apply elem_of_list_to_set, list_elem_of_In. exact Hin. }
    unfold names. rewrite in_flat_map. split.
    + intros (m & Hm & [<- | [<- | []]]); eauto.
    + intros (m & Hm & [-> | ->]); exists m; cbn; auto.
Qed.

Lemma sorted_map {A B : Type} (R : A -> A -> Prop) (R' : B -> B -> Prop)
    (P : A -> Prop) (f : A -> B) (l : list A) :
  (forall a b, P a -> P b -> R a b -> R' (f a) (f b)) ->
  Forall P l -> Sorted R l -> Sorted R' (map f l).
Proof.
  intros Hf Hall Hsorted. induction Hsorted as [| a l Hl IH Hhd]; cbn.
  - constructor.
  - inversion Hall as [| ? ? Ha Hrest]; subst. constructor; [auto |].
    destruct Hhd as [| b l Hab]; cbn; constructor.
    inversion Hrest; subst. auto.
Qed.

Lemma map_snd_combine {A B : Type} (xs : list A) (ys : list B) :
  length xs = length ys -> map snd (combine xs ys) = ys.
Proof.
  revert ys. induction xs as [| x xs IH]; intros [| y ys]; cbn;
    try discriminate; [reflexivity |].
  intros [= Hlen]. rewrite IH by exact Hlen. reflexivity.
Qed.

Lemma forall2_combine {A B : Type} (R : A -> B -> Prop) (xs : list A)
    (ys : list B) :
  Forall2 R xs ys -> Forall (fun p => R (fst p) (snd p)) (combine xs ys).
Proof. induction 1; cbn; constructor; auto. Qed.

Lemma forall2_length_eq {A B : Type} (R : A -> B -> Prop) (xs : list A)
    (ys : list B) :
  Forall2 R xs ys -> length xs = length ys.
Proof. induction 1; cbn; congruence. Qed.

(** X5. When [recent_form] returns, it holds one win flag for each of the
    last [min(10, len(matches))] matches of the history sorted by date: the
    matches it reports on, preceded by the ones it leaves out, are the
    matches of the history in an order in which no match is played after
    the next one. *)
Theorem recent_form_last_ten (h : PlayerMatchHistory.t) (form : list bool) :
  PlayerMatchHistory.recent_form h = Ok form ->
  length form = Nat.min 10 (length (PlayerMatchHistory.matches h))
  /\ exists older recent,
       PlayerMatchHistory.recent_matches h = Ok recent
       /\ Permutation (older ++ recent) (PlayerMatchHistory.matches h)
       /\ Sorted not_after (older ++ recent)
       /\ Forall2
            (fun m won =>
               EventSummary.is_winner m (PlayerMatchHistory.player_name h)
               = Ok won)
            recent form.
Proof.
  unfold PlayerMatchHistory.recent_form, PlayerMatchHistory.recent_matches.
  destruct (rmap EventSummary.event_datetime (PlayerMatchHistory.matches h))
    as [keys |] eqn:Hkeys; cbn [rbind]; [| discriminate].
  intros Hform. apply rmap_ok in Hform, Hkeys.
  set (ms := PlayerMatchHistory.matches h) in *.
  set (le := fun a b : Datetime.t * EventSummary.t => fst a <=? fst b) in *.
  set (pairs := sorted_by le (combine keys ms)) in *.
  assert (length keys = length ms) as Hlen
      by (symmetry; eapply forall2_length_eq; exact Hkeys).
  assert (Permutation (map snd pairs) ms) as Hperm.
  { transitivity (map snd (combine keys ms)).
    - apply Permutation_map, sorted_by_perm.
    - rewrite (map_snd_combine keys ms Hlen). reflexivity. }
  assert (Sorted not_after (map snd pairs)) as Hsorted.
  { apply (sorted_map (fun a b => le a b = true) not_after
             (fun p => EventSummary.event_datetime (snd p) = Ok (fst p))).
    - intros a b Ha Hb Hab. exists (fst a), (fst b).
      unfold le in Hab. apply Z.leb_le in Hab. auto.
    - apply List.Forall_forall. intros p Hp.
      apply (Permutation_in _ (sorted_by_perm le (combine keys ms))) in Hp.
      pose proof (forall2_combine _ _ _ Hkeys) as Hall.
      rewrite List.Forall_forall in Hall. specialize (Hall (snd p, fst p)).
      cbn in Hall. apply Hall.
      clear - Hp. revert Hp. generalize ms. clear.
      induction keys as [| k keys IH]; intros [| m ms]; cbn; try tauto.
      intros [<- | Hin]; [left; reflexivity | right; auto].
    - apply sorted_by_sorted. intros a b. unfold le.
      destruct (Z.leb_spec (fst a) (fst b)); [auto |].
      right. apply Z.leb_le. lia. }
  assert (length (map snd pairs) = length ms) as Hsize
      by (apply Permutation_length, Hperm).
  split.
  - rewrite <- (forall2_length_eq _ _ _ Hform). unfold last_n.
    rewrite length_skipn, Hsize. lia.
  - exists (firstn (length (map snd pairs) - 10) (map snd pairs)),
      (last_n 10 (map snd pairs)).
    unfold last_n. rewrite firstn_skipn. auto.
Qed.

Lemma recent_form_last_ten_witness :
  exists form : list bool,
    PlayerMatchHistory.recent_form
      (PlayerMatchHistory.mk "A"
         [Sample.finished "1" "3-1"; Sample.finished "2" "1-3"] [] 2 1 1 30
         ∅ ∅) = Ok form
    /\ length form = 2%nat.
Proof.
  eexists. split; [reflexivity |].
  match goal with
  | |- length ?form = _ =>
      exact (proj1 (recent_form_last_ten
                      (PlayerMatchHistory.mk "A"
                         [Sample.finished "1" "3-1"; Sample.finished "2" "1-3"]
                         [] 2 1 1 30 ∅ ∅) form eq_refl))
  end.
Defined.

(** X6. With [per_page >= 1] there is a next page exactly when the pages up
    to the current one hold fewer than [total] entries; with [per_page = 0]
    [has_next_page] raises [ZeroDivisionError]. *)
Theorem has_next_page_iff (p : PaginationInfo.t) :
  (1 <= PaginationInfo.per_page p ->
   PaginationInfo.has_next_page p
   = Ok (PaginationInfo.page p * PaginationInfo.per_page p
         <? PaginationInfo.total p))
  /\ (PaginationInfo.per_page p = 0 ->
      exists msg,
        PaginationInfo.has_next_page p = Raise (ZeroDivisionError msg)).
Proof.
  unfold PaginationInfo.has_next_page, PaginationInfo.total_pages, Py.floordiv.
  split.
  - intros Hpp.
    destruct (Z.eqb_spec (PaginationInfo.per_page p) 0); [lia |].
    cbn [rbind]. f_equal.
    pose proof (ceil_div_bounds (PaginationInfo.total p)
                  (PaginationInfo.per_page p) Hpp) as Hb.
    cbv zeta in Hb.
    destruct (Z.ltb_spec (PaginationInfo.page p)
                ((PaginationInfo.total p + PaginationInfo.per_page p - 1)
                 / PaginationInfo.per_page p));
      destruct (Z.ltb_spec
                  (PaginationInfo.page p * PaginationInfo.per_page p)
                  (PaginationInfo.total p)); try reflexivity; nia.
  - intros ->. cbn. eauto.
Qed.

Lemma has_next_page_iff_witness :
  PaginationInfo.has_next_page (PaginationInfo.mk 3 100 300) = Ok false
  /\ PaginationInfo.has_next_page (PaginationInfo.mk 3 100 301) = Ok true.
Proof.
  split.
  - apply (proj1 (has_next_page_iff (PaginationInfo.mk 3 100 300))). cbn. lia.
  - apply (proj1 (has_next_page_iff (PaginationInfo.mk 3 100 301))). cbn. lia.
Defined.

(** *** Splitting and stripping *)

Lemma split_chars_length (c : ascii) (cs cur : list ascii) :
  length (Py.split_chars c cs cur)
  = S (length (List.filter (Ascii.eqb c) cs)).
Proof.
  revert cur. induction cs as [| d cs IH]; intros cur; cbn [Py.split_chars].
  - reflexivity.
  - cbn [List.filter]. destruct (Ascii.eqb c d); cbn [length]; rewrite IH;
      reflexivity.
Qed.

Lemma split_length (c : ascii) (s : string) :
  length (Py.split c s) = S (count_char c s).
Proof. apply split_chars_length. Qed.

Lemma contains_count (c : ascii) (s : string) :
  Py.contains c s = false <-> count_char c s = 0%nat.
Proof.
  unfold count_char. induction s as [| d s IH]; cbn; [tauto |].
  destruct (Ascii.eqb c d); cbn; [split; discriminate | exact IH].
Qed.

(** The second part of a split exists exactly when the separator occurs. *)
Lemma index_1_split (c : ascii) (s : string) :
  (Py.contains c s = false ->
   Py.index (Py.split c s) 1 = Raise (IndexError "list index out of range"))
  /\ (Py.contains c s = true -> is_ok (Py.index (Py.split c s) 1) = true)
  /\ is_ok (Py.index (Py.split c s) 0) = true.
Proof.
  pose proof (split_length c s) as Hlen.
  pose proof (contains_count c s) as Hcount.
  destruct (Py.split c s) as [| p0 [| p1 parts]]; cbn in *;
    [discriminate | |].
  - split; [reflexivity |]. split; [| reflexivity].
    intros Htrue. assert (count_char c s = 0%nat) as H0 by lia.
    apply Hcount in H0. congruence.
  - split; [| split; reflexivity].
    intros Hfalse. apply Hcount in Hfalse. lia.
Qed.

Lemma int_not_index_error (s msg : string) :
  Py.int s <> Raise (IndexError msg).
Proof.
  unfold Py.int. destruct (Py.int_literal _); [| discriminate].
  destruct (_ <=? _)%nat; discriminate.
Qed.








(** X8. [Event.winner] is [None] for an event that is not finished. For a
    finished event whose two set counts can be read it is the home player
    when the home count is greater and the away player otherwise, so on
    equal counts the away player is the winner, where
    [EventSummary.is_winner] on the same score names no winner. *)
Theorem event_winner_rule (e : Event.t) :
  (Event.time_status e <> "3" -> Event.winner e = Ok None)
  /\ (forall H A : Z,
         Event.time_status e = "3" ->
         Event.home_sets_won e = Ok H ->
         Event.away_sets_won e = Ok A ->
         (H > A -> Event.winner e = Ok (Some (Event.home_player e)))
         /\ (H <= A -> Event.winner e = Ok (Some (Event.away_player e))))
  /\ (forall (s : EventSummary.t) (hs as_ : list ascii),
         Event.time_status e = "3" ->
         EventSummary.time_status s = "3" ->
         numeral hs -> numeral as_ ->
         decimal_value hs = decimal_value as_ ->
         Event.final_score e = string_of_list_ascii (hs ++ "-"%char :: as_) ->
         EventSummary.current_score s = Some (Event.final_score e) ->
         Event.winner e = Ok (Some (Event.away_player e))
         /\ forall player_name,
              EventSummary.is_winner s player_name = Ok false).
Proof.
  assert (forall H A : Z,
             Event.time_status e = "3" ->
             Event.home_sets_won e = Ok H ->
             Event.away_sets_won e = Ok A ->
             Event.winner e
             = Ok (Some (if H >? A then Event.home_player e
                         else Event.away_player e))) as Hrule.
  { intros H A Hfin Hh Ha. unfold Event.winner, Event.is_finished.
    rewrite Hfin, Hh, Ha. reflexivity. }
  split; [| split].
  - intros Hnot. unfold Event.winner, Event.is_finished.
    destruct (String.eqb_spec (Event.time_status e) "3");
      [contradiction | reflexivity].
  - intros H A Hfin Hh Ha. rewrite (Hrule H A Hfin Hh Ha).
    destruct (Z.gtb_spec H A); split; intros; try reflexivity; lia.
  - intros s hs as_ Hfin Hfin' Hhs Has Htie Hscore Hscore'.
    assert (Py.split "-" (Event.final_score e)
            = [string_of_list_ascii hs; string_of_list_ascii as_]) as Hsplit.
    { rewrite Hscore. unfold Py.split.
      rewrite list_ascii_of_string_of_list_ascii.
      rewrite (split_score hs as_ []) by (apply Hhs || apply Has).
      reflexivity. }
    split.
    + rewrite (Hrule (decimal_value hs) (decimal_value as_) Hfin).
      * rewrite Htie. destruct (Z.gtb_spec (decimal_value as_)
                                  (decimal_value as_)); [lia | reflexivity].
      * unfold Event.home_sets_won. rewrite Hsplit. cbn [Py.index nth_error rbind].
        apply int_numeral, Hhs.
      * unfold Event.away_sets_won. rewrite Hsplit. cbn [Py.index nth_error rbind].
        apply int_numeral, Has.
    + intros player_name. rewrite Hscore in Hscore'.
      rewrite (is_winner_numerals s hs as_ player_name Hfin' Hhs Has Hscore').
      rewrite Htie.
      destruct (Z.gtb_spec (decimal_value as_) (decimal_value as_));
        [lia | reflexivity].
Qed.

Lemma event_winner_rule_witness :
  Event.winner
    (Event.mk "1" "92" "1753811400" "3" "29128" "TT Cup" None
       (Sample.player "1" "A") (Sample.player "2" "B") "2-2" [] [] None None
       None None None)
  = Ok (Some (Sample.player "2" "B")).
Proof.
  match goal with
  | |- Event.winner ?e = _ =>
      destruct (event_winner_rule e) as (_ & Hrule & _);
      destruct (Hrule 2 2 eq_refl eq_refl eq_refl) as [_ Haway]
  end.
  apply Haway. lia.
Defined.

(** X9. On a score without a dash, which [EventSummary.sets_score] reads as
    0-0, [TimelineEntry.away_score] and [Event.away_sets_won] raise
    [IndexError]; they raise it on no other score, and [home_score] and
    [home_sets_won] never do. *)
Theorem away_score_needs_dash (t : TimelineEntry.t) (e : Event.t) :
  ((exists msg, TimelineEntry.away_score t = Raise (IndexError msg))
   <-> Py.contains "-" (TimelineEntry.score t) = false)
  /\ ((exists msg, Event.away_sets_won e = Raise (IndexError msg))
      <-> Py.contains "-" (Event.final_score e) = false)
  /\ (forall msg, TimelineEntry.home_score t <> Raise (IndexError msg))
  /\ (forall msg, Event.home_sets_won e <> Raise (IndexError msg))
  /\ (forall s score,
         EventSummary.current_score s = Some score ->
         Py.contains "-" score = false ->
         EventSummary.sets_score s = Ok (0, 0)).
Proof.
  assert (forall score,
             ((exists msg,
                  (let! part := Py.index (Py.split "-" score) 1 in Py.int part)
                  = Raise (IndexError msg))
              <-> Py.contains "-" score = false)
             /\ (forall msg,
                    (let! part := Py.index (Py.split "-" score) 0 in
                     Py.int part)
                    <> Raise (IndexError msg))) as Hparts.
  { intros score. destruct (index_1_split "-" score) as (Hno & Hyes & Hfirst).
    split; [split |].
    - intros [msg Hraise].
      destruct (Py.contains "-" score); [| reflexivity].
      specialize (Hyes eq_refl).
      destruct (Py.index (Py.split "-" score) 1) as [part |];
        [| discriminate].
      cbn [rbind] in Hraise. exfalso.
      exact (int_not_index_error _ _ Hraise).
    - intros Hfalse. rewrite (Hno Hfalse). cbn. eauto.
    - intros msg.
      destruct (Py.index (Py.split "-" score) 0) as [part |];
        [| discriminate].
      cbn [rbind]. apply int_not_index_error. }
  split; [apply Hparts |]. split; [apply Hparts |].
  split; [apply Hparts |]. split; [apply Hparts |].
  intros s score Hscore Hdash. unfold EventSummary.sets_score.
  rewrite Hscore, Hdash. reflexivity.
Qed.

Lemma away_score_needs_dash_witness :
  exists msg,
    TimelineEntry.away_score (TimelineEntry.mk "1" "1" "0" "11")
    = Raise (IndexError msg).
Proof.
  apply (away_score_needs_dash (TimelineEntry.mk "1" "1" "0" "11")
           (Event.mk "1" "92" "1753811400" "3" "29128" "TT Cup" None
              (Sample.player "1" "A") (Sample.player "2" "B") "2-2" [] []
              None None None None None)).
  reflexivity.
Defined.

Lemma rcount_le_count_if {A : Type} (p : A -> result bool) (q : A -> bool)
    (xs : list A) (n : Z) :
  (forall x, p x = Ok true -> q x = true) ->
  rcount p xs = Ok n -> n <= count_if q xs.
Proof.
  intros Hpq. revert n. unfold count_if.
  induction xs as [| x xs IH]; intros n; cbn [rcount List.filter].
  - intros [= <-]. reflexivity.
  - destruct (p x) as [b |] eqn:Hx; cbn [rbind]; [| discriminate].
    destruct (rcount p xs) as [k |]; cbn [rbind]; [| discriminate].
    intros [= <-]. specialize (IH k eq_refl).
    destruct b.
    + rewrite (Hpq x Hx), len_cons. lia.
    + destruct (q x); [rewrite len_cons |]; lia.
Qed.

(** X10. In a history built by [from_matches] only finished matches count
    as wins: [win_count] is at most the number of finished matches, so
    [loss_count] is at least the number of matches that are not
    finished. *)
Theorem history_wins_are_finished (player_name : string)
    (matches : list EventSummary.t)
    (h2h_records : Dict.t (list EventSummary.t)) (days : Z)
    (h : PlayerMatchHistory.t) :
  PlayerMatchHistory.from_matches player_name matches h2h_records days = Ok h ->
  PlayerMatchHistory.win_count h <= count_if EventSummary.is_finished matches
  /\ count_if (fun m => negb (EventSummary.is_finished m)) matches
     <= PlayerMatchHistory.loss_count h.
Proof.
  intros Hfrom.
  destruct (history_from_matches_fields _ _ _ _ _ Hfrom)
    as (_ & _ & Hloss & Hwin).
  assert (PlayerMatchHistory.win_count h
          <= count_if EventSummary.is_finished matches) as Hle.
  { eapply rcount_le_count_if; [| exact Hwin].
    intros m. unfold EventSummary.is_winner.
    destruct (EventSummary.is_finished m); [reflexivity | discriminate]. }
  split; [exact Hle |]. rewrite Hloss.
  assert (count_if EventSummary.is_finished matches
          + count_if (fun m => negb (EventSummary.is_finished m)) matches
          = len matches) as Hsplit.
  { unfold count_if. clear. induction matches as [| m ms IH];
      [reflexivity |].
    cbn [List.filter]. destruct (EventSummary.is_finished m); cbn [negb];
      rewrite !len_cons; lia. }
  lia.
Qed.

Lemma history_wins_are_finished_witness :
  exists h : PlayerMatchHistory.t,
    PlayerMatchHistory.from_matches "A"
      [Sample.finished "1" "3-1"; Sample.event "2" "2" (Some "2-0")] [] 30
    = Ok h
    /\ PlayerMatchHistory.win_count h <= 1
    /\ 1 <= PlayerMatchHistory.loss_count h.
Proof.
  pose proof (history_wins_are_finished "A"
                [Sample.finished "1" "3-1"; Sample.event "2" "2" (Some "2-0")]
                [] 30 _ eq_refl) as Hbounds.
  eexists. split; [reflexivity |]. exact Hbounds.
Defined.

(** X11. A listing entry and a detailed event with the same [time_status]
    agree on live and finished, and on scheduled except for the status "0":
    the listing entry is then scheduled and described as "Upcoming", while
    the detailed event is neither scheduled, live nor finished and is
    described as "Unknown". *)
Theorem status_schemes_differ_on_upcoming (s : EventSummary.t) (e : Event.t) :
  EventSummary.time_status s = Event.time_status e ->
  EventSummary.is_live s = Event.is_live e
  /\ EventSummary.is_finished s = Event.is_finished e
  /\ (Event.time_status e <> "0" ->
      EventSummary.is_scheduled s = Event.is_scheduled e
      /\ EventSummary.status_description s = Event.status_description e)
  /\ (Event.time_status e = "0" ->
      EventSummary.is_scheduled s = true
      /\ EventSummary.status_description s = "Upcoming"
      /\ Event.is_scheduled e = false
      /\ Event.is_live e = false
      /\ Event.is_finished e = false
      /\ Event.status_description e = "Unknown").
Proof.
  intros Hsame.
  unfold EventSummary.is_live, EventSummary.is_finished,
    EventSummary.is_scheduled, EventSummary.status_description,
    Event.is_live, Event.is_finished, Event.is_scheduled,
    Event.status_description.
  rewrite Hsame. repeat split.
  - destruct (String.eqb_spec (Event.time_status e) "0");
      [contradiction | reflexivity].
  - destruct (String.eqb_spec (Event.time_status e) "0");
      [contradiction | reflexivity].
  - rewrite H. reflexivity.
  - rewrite H. reflexivity.
  - rewrite H. reflexivity.
  - rewrite H. reflexivity.
  - rewrite H. reflexivity.
  - rewrite H. reflexivity.
Qed.

Lemma status_schemes_differ_on_upcoming_witness :
  EventSummary.is_scheduled (Sample.event "1" "0" None) = true
  /\ Event.status_description
       (Event.mk "1" "92" "1753811400" "0" "29128" "TT Cup" None
          (Sample.player "1" "A") (Sample.player "2" "B") "" [] [] None None
          None None None) = "Unknown".
Proof.
  match goal with
  | |- _ /\ Event.status_description ?e = _ =>
      destruct (status_schemes_differ_on_upcoming (Sample.event "1" "0" None)
                  e eq_refl) as (_ & _ & _ & Hzero)
  end.
  destruct (Hzero eq_refl) as (Hs & _ & _ & _ & _ & Hd).
  split; [exact Hs | exact Hd].
Defined.

(** ** The walks over the pages *)

Lemma seqZ_snoc (n : Z) : 0 <= n -> seqZ 1 (n + 1) = seqZ 1 n ++ [n + 1].
Proof.
  intros Hn. rewrite (seqZ_app 1 n 1) by lia.
  replace (1 + n) with (n + 1) by lia. reflexivity.
Qed.

Lemma requests_app (a b : trace) : requests (a ++ b) = requests a ++ requests b.
Proof. apply map_app. Qed.

Section IndexedLoop.

Context {S : Type}.

(** A loop over the pages whose invariant knows the page: when the loop
    ends for want of pages, the page is [max (first, max_pages + 1)]. *)
Lemma safe_while_pages (body : Z -> S -> M (S * ctl)) (first max_pages : Z)
    (Inv : Z -> S -> trace -> Prop) (Post : S -> trace -> Prop) :
  (forall page s,
      first <= page <= max_pages ->
      safe (Inv page s) (body page s)
        (fun out t =>
           match snd out with
           | Continue => Inv (page + 1) (fst out) t
           | Break => Post (fst out) t
           end)) ->
  (forall s t, Inv (Z.max first (max_pages + 1)) s t -> Post s t) ->
  forall s, safe (Inv first s) (while_pages body first max_pages s) Post.
Proof.
  intros Hbody Hexit. unfold while_pages.
  assert (forall fuel page s,
             first <= page <= Z.max first (max_pages + 1) ->
             fuel = Z.to_nat (max_pages + 1 - page) ->
             safe (Inv page s) (while_le body fuel page max_pages s) Post)
    as Hgen.
  { induction fuel as [| fuel IH]; intros page s Hpage Hfuel;
      cbn [while_le].
    - apply safe_ret. intros t Ht. apply Hexit.
      replace (Z.max first (max_pages + 1)) with page by lia. exact Ht.
    - destruct (Z.leb_spec page max_pages) as [Hle | Hgt]; [| lia].
      eapply safe_bind; [apply Hbody; lia |].
      intros [s' c]. cbn [fst snd]. destruct c.
      + apply IH; lia.
      + apply safe_ret. auto. }
  intros s. apply Hgen; lia.
Qed.

End IndexedLoop.

Lemma walk_step (ep : endpoint) (s : trace) (page : Z)
    (reply : result APIResponse.t) :
  1 <= page ->
  requests s = map (ReqEvents ep None) (seqZ 1 (page - 1)) ->
  requests (s ++ [Listed ep None page reply])
  = map (ReqEvents ep None) (seqZ 1 page).
Proof.
  intros Hpage Hreq. rewrite requests_app, Hreq. cbn.
  replace page with (page - 1 + 1) at 3 by lia.
  rewrite (seqZ_snoc (page - 1)) by lia. rewrite map_app. cbn.
  replace (page - 1 + 1) with page by lia. reflexivity.
Qed.

Lemma listed_events_snoc (s : trace) (ep : endpoint)
    (league_id : option string) (page : Z) (reply : result APIResponse.t) :
  listed_events (s ++ [Listed ep league_id page reply])
  = listed_events s
    ++ match reply with
       | Ok response => APIResponse.results response
       | Raise _ => []
       end.
Proof.
  rewrite listed_events_app. f_equal. unfold listed_events. cbn.
  destruct reply; apply app_nil_r.
Qed.

Section Walks.

Variable backend : Backend.
Variable now : Datetime.t.

(** The walk over one partition: what it returns and what it sends. *)
Lemma tournament_walk (tournament_id match_type : string) (max_pages : Z)
    (t0 : trace) :
  exists (found : list EventSummary.t) (s : trace) (k : Z),
    _get_tournament_matches backend tournament_id match_type max_pages t0
    = (Ok found, t0 ++ s)
    /\ found
       = List.filter
           (fun event => String.eqb (EventSummary.league_id event)
                           tournament_id)
           (listed_events s)
    /\ 0 <= k <= Z.max 0 max_pages
    /\ match partition_endpoint match_type with
       | Some ep =>
           requests s = map (ReqEvents ep None) (seqZ 1 k)
           /\ (1 <= max_pages -> 1 <= k)
       | None => s = []
       end.
Proof.
  set (keep := fun event : EventSummary.t =>
                 String.eqb (EventSummary.league_id event) tournament_id).
  set (Post := fun (found : list EventSummary.t) (t : trace) =>
                 exists s k,
                   t = t0 ++ s
                   /\ found = List.filter keep (listed_events s)
                   /\ 0 <= k <= Z.max 0 max_pages
                   /\ match partition_endpoint match_type with
                      | Some ep =>
                          requests s = map (ReqEvents ep None) (seqZ 1 k)
                          /\ (1 <= max_pages -> 1 <= k)
                      | None => s = []
                      end).
  assert (safe (fun t => t = t0)
            (_get_tournament_matches backend tournament_id match_type
               max_pages)
            Post) as Hsafe.
  { unfold _get_tournament_matches.
    destruct (partition_endpoint match_type) as [ep |] eqn:Hep.
    - (* a known match type: pages 1, 2, ... of its endpoint *)
      eapply safe_conseq;
        [ apply (safe_while_pages _ 1 max_pages
                   (fun page found t =>
                      exists s,
                        t = t0 ++ s
                        /\ requests s
                           = map (ReqEvents ep None) (seqZ 1 (page - 1))
                        /\ found = List.filter keep (listed_events s))
                   Post)
        | | auto ].
      + intros page found Hpage t (s & -> & Hreq & ->).
        assert (tournament_page backend tournament_id match_type page
                  (List.filter keep (listed_events s))
                = let* fetched := attempt (list_events backend ep None page) in
                  match fetched with
                  | Raise _ => ret (List.filter keep (listed_events s), Break)
                  | Ok response =>
                      let tournament_matches :=
                        List.filter keep (APIResponse.results response) in
                      let matches :=
                        List.filter keep (listed_events s)
                        ++ tournament_matches in
                      if is_empty tournament_matches && (page >? 1)
                      then ret (matches, Break)
                      else
                        match APIResponse.pagination response with
                        | None => ret (matches, Break)
                        | Some pagination =>
                            match PaginationInfo.has_next_page pagination with
                            | Raise _ => ret (matches, Break)
                            | Ok false => ret (matches, Break)
                            | Ok true => ret (matches, Continue)
                            end
                        end
                  end) as ->.
        { unfold tournament_page, partition_endpoint in *.
          destruct (String.eqb match_type "ended");
            [injection Hep as <-; reflexivity |].
          destruct (String.eqb match_type "upcoming");
            [injection Hep as <-; reflexivity |].
          destruct (String.eqb match_type "live");
            [injection Hep as <-; reflexivity | discriminate]. }
        unfold bind, attempt, list_events.
        destruct (Z.ltb_spec page 1); [lia |].
        unfold request_events. cbn [league_param].
        set (reply := events backend (t0 ++ s) ep None page).
        pose proof (walk_step ep s page reply ltac:(lia) Hreq) as Hreq'.
        pose proof (listed_events_snoc s ep None page reply) as Hlisted.
        assert (forall found',
                   found' = List.filter keep
                              (listed_events (s ++ [Listed ep None page reply])) ->
                   Post found' ((t0 ++ s) ++ [Listed ep None page reply]))
          as Hbreak.
        { intros found' ->. exists (s ++ [Listed ep None page reply]), page.
          rewrite app_assoc. split; [reflexivity |]. split; [reflexivity |].
          split; [lia |]. split; [exact Hreq' | lia]. }
        assert (forall found',
                   found' = List.filter keep
                              (listed_events (s ++ [Listed ep None page reply])) ->
                   exists s',
                     (t0 ++ s) ++ [Listed ep None page reply] = t0 ++ s'
                     /\ requests s'
                        = map (ReqEvents ep None) (seqZ 1 (page + 1 - 1))
                     /\ found' = List.filter keep (listed_events s'))
          as Hcontinue.
        { intros found' ->. exists (s ++ [Listed ep None page reply]).
          rewrite app_assoc. replace (page + 1 - 1) with page by lia. auto. }
        rewrite Hlisted, List.filter_app in Hbreak, Hcontinue.
        destruct reply as [response | e]; cbn [fst snd].
        * destruct (is_empty _ && _);
            [eexists; split; [reflexivity |]; apply Hbreak; reflexivity |].
          destruct (APIResponse.pagination response) as [pagination |];
            [| eexists; split; [reflexivity |]; apply Hbreak; reflexivity].
          destruct (PaginationInfo.has_next_page pagination) as [[] |];
            eexists; (split; [reflexivity |]); cbn [fst snd];
            (apply Hbreak || apply Hcontinue); reflexivity.
        * eexists. split; [reflexivity |]. apply Hbreak. cbn.
          rewrite app_nil_r. reflexivity.
      + intros found t (s & -> & Hreq & ->).
        exists s, (Z.max 1 (max_pages + 1) - 1).
        split; [reflexivity |]. split; [reflexivity |]. split; [lia |].
        split; [exact Hreq | lia].
      + intros t ->. exists []. rewrite app_nil_r. cbn. auto.
    - (* an unknown match type: the first turn of the loop leaves it *)
      eapply safe_conseq;
        [ apply (safe_while_pages _ 1 max_pages
                   (fun _ found t => t = t0 /\ found = [])
                   (fun found t => t = t0 /\ found = []))
        | | ].
      + intros page found _ t [-> ->].
        unfold tournament_page, partition_endpoint in *.
        destruct (String.eqb match_type "ended"); [discriminate |].
        destruct (String.eqb match_type "upcoming"); [discriminate |].
        destruct (String.eqb match_type "live"); [discriminate |].
        cbn. eexists. split; [reflexivity |]. cbn. auto.
      + auto.
      + intros t ->. auto.
      + intros found t [-> ->]. exists [], 0. rewrite app_nil_r.
        unfold Post. cbn. repeat split; lia. }
  destruct (Hsafe t0 eq_refl) as (found & Hfound & s & k & Hs & Hrest).
  exists found, s, k.
  destruct (_get_tournament_matches backend tournament_id match_type
              max_pages t0) as [r t].
  cbn [fst snd] in *. subst r t. split; [reflexivity | exact Hrest].
Qed.

(** The walk over the ended matches for a player. *)
Lemma recent_walk (player_name : string) (days max_pages : Z) (t0 : trace) :
  exists (found : list EventSummary.t) (s : trace) (k : Z),
    _get_recent_player_matches backend now player_name days max_pages t0
    = (Ok found, t0 ++ s)
    /\ Forall (recent_for player_name (now - Datetime.timedelta_days days))
         found
    /\ Forall (fun m => In m (listed_events s)) found
    /\ 0 <= k <= Z.max 0 max_pages
    /\ (1 <= max_pages -> 1 <= k)
    /\ requests s = map (ReqEvents Ended None) (seqZ 1 k).
Proof.
  set (cutoff := now - Datetime.timedelta_days days).
  set (Post := fun (found : list EventSummary.t) (t : trace) =>
                 exists s k,
                   t = t0 ++ s
                   /\ Forall (recent_for player_name cutoff) found
                   /\ Forall (fun m => In m (listed_events s)) found
                   /\ 0 <= k <= Z.max 0 max_pages
                   /\ (1 <= max_pages -> 1 <= k)
                   /\ requests s = map (ReqEvents Ended None) (seqZ 1 k)).
  assert (forall evs page_matches,
             rfilter (recent_match player_name cutoff) evs
             = Ok page_matches ->
             Forall (recent_for player_name cutoff) page_matches
             /\ Forall (fun m => In m evs) page_matches) as Hfilter.
  { intros evs. induction evs as [| ev evs IH]; intros page_matches;
      cbn [rfilter].
    - intros [= <-]. split; constructor.
    - destruct (recent_match player_name cutoff ev) as [b |] eqn:Hev;
        cbn [rbind]; [| discriminate].
      destruct (rfilter _ evs) as [rest |]; cbn [rbind]; [| discriminate].
      destruct (IH rest eq_refl) as [Hgood Hin].
      assert (Forall (fun m => In m (ev :: evs)) rest) as Hin'.
      { eapply List.Forall_impl; [| exact Hin]. intros m Hm. right. exact Hm. }
      intros [= <-]. destruct b; [| auto].
      split; constructor; auto; [| left; reflexivity].
      unfold recent_match in Hev. unfold recent_for.
      destruct (String.eqb_spec
                  (Player.name (EventSummary.home_player ev)) player_name)
        as [Hhome | _];
        [| destruct (String.eqb_spec
                       (Player.name (EventSummary.away_player ev))
                       player_name) as [Haway | _]];
        cbn [orb] in Hev; try discriminate;
        (destruct (EventSummary.event_datetime ev) as [d |];
         cbn [rbind] in Hev; [| discriminate];
         injection Hev as Hd; apply Z.geb_le in Hd;
         split; [tauto | exists d; auto]). }
  assert (safe (fun t => t = t0)
            (_get_recent_player_matches backend now player_name days
               max_pages)
            Post) as Hsafe.
  { unfold _get_recent_player_matches. fold cutoff.
    eapply safe_conseq;
      [ apply (safe_while_pages _ 1 max_pages
                 (fun page found t =>
                    exists s,
                      t = t0 ++ s
                      /\ requests s
                         = map (ReqEvents Ended None) (seqZ 1 (page - 1))
                      /\ Forall (recent_for player_name cutoff) found
                      /\ Forall (fun m => In m (listed_events s)) found)
                 Post)
      | | auto ].
    - intros page found Hpage t (s & -> & Hreq & Hgood & Hin).
      unfold recent_page, bind, attempt, get_ended, list_events.
      destruct (Z.ltb_spec page 1); [lia |].
      unfold request_events. cbn [league_param].
      set (reply := events backend (t0 ++ s) Ended None page).
      pose proof (walk_step Ended s page reply ltac:(lia) Hreq) as Hreq'.
      pose proof (listed_events_snoc s Ended None page reply) as Hlisted.
      assert (forall found',
                 Forall (recent_for player_name cutoff) found' ->
                 Forall (fun m =>
                           In m (listed_events
                                   (s ++ [Listed Ended None page reply])))
                   found' ->
                 Post found' ((t0 ++ s) ++ [Listed Ended None page reply])
                 /\ exists s',
                      (t0 ++ s) ++ [Listed Ended None page reply] = t0 ++ s'
                      /\ requests s'
                         = map (ReqEvents Ended None) (seqZ 1 (page + 1 - 1))
                      /\ Forall (recent_for player_name cutoff) found'
                      /\ Forall (fun m => In m (listed_events s')) found')
        as Hnext.
      { intros found' Hgood' Hin'. split.
        - exists (s ++ [Listed Ended None page reply]), page.
          rewrite app_assoc. repeat split; auto; lia.
        - exists (s ++ [Listed Ended None page reply]).
          rewrite app_assoc. replace (page + 1 - 1) with page by lia. auto. }
      assert (Forall (fun m =>
                        In m (listed_events
                                (s ++ [Listed Ended None page reply])))
                found) as Hin_old.
      { eapply List.Forall_impl; [| exact Hin]. intros m Hm.
        rewrite Hlisted. apply in_or_app. left. exact Hm. }
      destruct reply as [response | e]; cbn [fst snd].
      + destruct (rfilter (recent_match player_name cutoff)
                    (APIResponse.results response)) as [page_matches |]
          eqn:Hpm.
        * destruct (Hfilter _ _ Hpm) as [Hgood_pm Hin_pm].
          assert (Forall (fun m =>
                            In m (listed_events
                                    (s ++ [Listed Ended None page
                                             (Ok response)])))
                    (found ++ page_matches)) as Hin_new.
          { apply Forall_app. split; [exact Hin_old |].
            eapply List.Forall_impl; [| exact Hin_pm]. intros m Hm.
            rewrite Hlisted. apply in_or_app. right. exact Hm. }
          assert (Forall (recent_for player_name cutoff)
                    (found ++ page_matches)) as Hgood_new
              by (apply Forall_app; auto).
          destruct (Hnext _ Hgood_new Hin_new) as [Hbreak Hcontinue].
          destruct (is_empty _ && _);
            [eexists; split; [reflexivity | exact Hbreak] |].
          destruct (APIResponse.pagination response) as [pagination |];
            [| eexists; split; [reflexivity | exact Hbreak]].
          destruct (PaginationInfo.has_next_page pagination) as [[] |];
            eexists; (split; [reflexivity |]); cbn [fst snd];
            (exact Hbreak || exact Hcontinue).
        * eexists. split; [reflexivity |]. apply Hnext; assumption.
      + eexists. split; [reflexivity |]. apply Hnext; assumption.
    - intros found t (s & -> & Hreq & Hgood & Hin).
      exists s, (Z.max 1 (max_pages + 1) - 1).
      repeat split; auto; lia.
    - intros t ->. exists []. rewrite app_nil_r. cbn. auto. }
  destruct (Hsafe t0 eq_refl) as (found & Hfound & s & k & Hs & Hrest).
  exists found, s, k.
  destruct (_get_recent_player_matches backend now player_name days
              max_pages t0) as [r t].
  cbn [fst snd] in *. subst r t. split; [reflexivity | exact Hrest].
Qed.

(** X12. [_get_tournament_matches] never raises. It returns the events of
    the pages it was answered whose [league_id] is the tournament's, in the
    order of the pages; it asks for the pages 1 to [k] of the endpoint of
    the match type, one after the other, with [k] at most [max_pages] and at
    least 1 when [max_pages] is; for a match type it does not know it sends
    nothing. *)
Theorem tournament_matches_walk (tournament_id match_type : string)
    (max_pages : Z) (t0 : trace) :
  exists (found : list EventSummary.t) (s : trace) (k : Z),
    _get_tournament_matches backend tournament_id match_type max_pages t0
    = (Ok found, t0 ++ s)
    /\ found
       = List.filter
           (fun event => String.eqb (EventSummary.league_id event)
                           tournament_id)
           (listed_events s)
    /\ 0 <= k <= Z.max 0 max_pages
    /\ match partition_endpoint match_type with
       | Some ep =>
           requests s = map (ReqEvents ep None) (seqZ 1 k)
           /\ (1 <= max_pages -> 1 <= k)
       | None => s = []
       end.
Proof. apply tournament_walk. Qed.

(** X13. When the cutoff, [days] before now, is a date Python can compute,
    [_get_recent_player_matches] does not raise. Every match it returns has
    the player at home or away, is dated at the cutoff or later, and is an
    event of a page it was answered; it asks for the pages 1 to [k] of the
    ended matches, with [k] at most [max_pages] and at least 1 when
    [max_pages] is. *)
Theorem recent_player_matches_walk (player_name : string)
    (days max_pages : Z) (t0 : trace) :
  Z.abs days <= 999999999 ->
  representable now ->
  representable (now - Datetime.timedelta_days days) ->
  exists (found : list EventSummary.t) (s : trace) (k : Z),
    _get_recent_player_matches backend now player_name days max_pages t0
    = (Ok found, t0 ++ s)
    /\ Forall (recent_for player_name (now - Datetime.timedelta_days days))
         found
    /\ Forall (fun m => In m (listed_events s)) found
    /\ 0 <= k <= Z.max 0 max_pages
    /\ (1 <= max_pages -> 1 <= k)
    /\ requests s = map (ReqEvents Ended None) (seqZ 1 k).
Proof. intros _ _ _. apply recent_walk. Qed.

End Walks.

Lemma recent_player_matches_walk_witness :
  exists (found : list EventSummary.t) (s : trace),
    _get_recent_player_matches
      (Sample.backend_of [Sample.finished "1" "3-1"] [] []) Sample.now
      "A" 30 10 [] = (Ok found, s)
    /\ Forall (recent_for "A" (Sample.now - Datetime.timedelta_days 30))
         found.
Proof.
  destruct (recent_player_matches_walk
              (Sample.backend_of [Sample.finished "1" "3-1"] [] [])
              Sample.now "A" 30 10 [])
    as (found & s & k & Hrun & Hrecent & _).
  - cbn. lia.
  - unfold representable, Sample.now. lia.
  - unfold representable, Sample.now, Datetime.timedelta_days. lia.
  - exists found, s. split; [exact Hrun | exact Hrecent].
Defined.

(** ** get_tournament_complete from end to end *)

Lemma count_if_cons {A : Type} (p : A -> bool) (x : A) (xs : list A) :
  count_if p (x :: xs) = (if p x then 1 else 0) + count_if p xs.
Proof.
  unfold count_if. cbn [List.filter]. destruct (p x); [apply len_cons | lia].
Qed.

Section TournamentRun.

Variable backend : Backend.

Lemma odds_step_run (m : EventSummary.t) (n : Z) (t : trace) :
  let x :=
    OddsSummarised (EventSummary.id m)
      (odds_summary backend t (EventSummary.id m)) in
  odds_step backend m n t
  = (Ok (n + (if truthy_odds x then 1 else 0), Continue), t ++ [x]).
Proof.
  cbv zeta.
  unfold odds_step, try_except, bind, odds_get_summary, request_odds_summary,
    ret.
  destruct (odds_summary backend t (EventSummary.id m)) as [odds | e]; cbn.
  - destruct (json_truthy odds); [| rewrite Z.add_0_r]; reflexivity.
  - rewrite Z.add_0_r. reflexivity.
Qed.

(** The loop over the sampled matches: one odds request for each, and the
    count of the summaries that came back not empty. *)
Lemma odds_loop (ms : list EventSummary.t) (n : Z) (t : trace) :
  exists s,
    for_each (odds_step backend) ms n t
    = (Ok (n + count_if truthy_odds s), t ++ s)
    /\ requests s = odds_requests ms.
Proof.
  revert n t. induction ms as [| m ms IH]; intros n t.
  - exists []. cbn. rewrite app_nil_r, Z.add_0_r. auto.
  - cbn [for_each]. unfold bind. rewrite odds_step_run.
    set (x := OddsSummarised (EventSummary.id m)
                (odds_summary backend t (EventSummary.id m))).
    destruct (IH (n + (if truthy_odds x then 1 else 0)) (t ++ [x]))
      as (s & Hrun & Hreq).
    exists (x :: s). split.
    + rewrite Hrun, count_if_cons, Z.add_assoc, <- app_assoc. reflexivity.
    + cbn. unfold odds_requests in *. cbn. rewrite <- Hreq. reflexivity.
Qed.

Lemma collect_partition_walk (tournament_id match_type : string)
    (max_pages : Z) (all_matches : list EventSummary.t)
    (tournament_name : option string) (t : trace)
    (found : list EventSummary.t) (t1 : trace) :
  _get_tournament_matches backend tournament_id match_type max_pages t
  = (Ok found, t1) ->
  collect_partition backend tournament_id match_type max_pages
    (all_matches, tournament_name) t
  = (Ok (all_matches ++ found,
         match found with
         | first :: _ =>
             if no_name tournament_name
             then Some (EventSummary.league_name first)
             else tournament_name
         | [] => tournament_name
         end), t1).
Proof.
  intros Hrun. unfold collect_partition, try_except, bind. rewrite Hrun.
  reflexivity.
Qed.

(** The name the three partitions leave: the first league name that is not
    empty among those of their first matches. *)
Lemma collected_name (ended upcoming live : list EventSummary.t)
    (tournament_id : string) :
  let name (current : option string) (found : list EventSummary.t) :=
    match found with
    | first :: _ =>
        if no_name current then Some (EventSummary.league_name first)
        else current
    | [] => current
    end in
  let final := name (name (name None ended) upcoming) live in
  (if no_name final then "Tournament " ++ tournament_id
   else default "" final)%string
  = match List.find Py.truthy (head_names [ended; upcoming; live]) with
    | Some n => n
    | None => ("Tournament " ++ tournament_id)%string
    end.
Proof.
  cbv zeta. unfold head_names.
  destruct ended as [| e ?], upcoming as [| u ?], live as [| l ?];
    cbn [flat_map app List.find no_name];
    repeat match goal with
      | |- context [Py.truthy ?s] =>
          destruct (Py.truthy s) eqn:?; cbn [negb no_name default List.find]
      end;
    try reflexivity; congruence.
Qed.


Lemma partition_walked (tournament_id match_type : string) (ep : endpoint)
    (max_pages : Z) (t : trace) :
  partition_endpoint match_type = Some ep ->
  1 <= max_pages ->
  exists found s,
    _get_tournament_matches backend tournament_id match_type max_pages t
    = (Ok found, t ++ s)
    /\ walked tournament_id ep max_pages found s.
Proof.
  intros Hep Hmax.
  destruct (tournament_walk backend tournament_id match_type max_pages t)
    as (found & s & k & Hrun & Hfound & Hk & Hreq).
  rewrite Hep in Hreq. destruct Hreq as [Hreq Hk1].
  exists found, s. split; [exact Hrun |]. split; [exact Hfound |].
  exists k. split; [lia | exact Hreq].
Qed.

Lemma tournament_request_rejected (tournament_id : py_id)
    (include_odds : bool) (max_pages : Z) (t : trace) :
  invalid_tournament_request tournament_id max_pages ->
  exists msg,
    get_tournament_complete backend tournament_id include_odds max_pages t
    = (Raise (ValueError msg), t).
Proof.
  intros Hinvalid. unfold get_tournament_complete.
  destruct (negb (py_id_truthy tournament_id)
            || String.eqb (Py.strip (py_str tournament_id)) "") eqn:Hid;
    [eexists; reflexivity |].
  apply orb_false_iff in Hid as [Htruthy Hblank].
  apply negb_false_iff in Htruthy.
  destruct (String.eqb_spec (Py.strip (py_str tournament_id)) "");
    [discriminate |].
  destruct Hinvalid as [? | [? | Hrange]]; [congruence | contradiction |].
  destruct (Z.ltb_spec max_pages 1); [eexists; reflexivity |].
  destruct (Z.gtb_spec max_pages 20); [eexists; reflexivity |].
  lia.
Qed.

(** With accepted parameters: the three walks, the sampling of the odds,
    and the tournament built from what they gave. *)
Lemma get_tournament_complete_run (tournament_id : py_id)
    (include_odds : bool) (max_pages : Z) (t : trace) :
  ~ invalid_tournament_request tournament_id max_pages ->
  exists ended upcoming live s1 s2 s3 s4,
    walked (py_str tournament_id) Ended max_pages ended s1
    /\ walked (py_str tournament_id) Upcoming max_pages upcoming s2
    /\ walked (py_str tournament_id) Inplay max_pages live s3
    /\ partitions_of backend (py_str tournament_id) max_pages t
         ended upcoming live
    /\ requests s4
       = (if include_odds
          then odds_requests
                 (take 3 (unique_by_id (ended ++ upcoming ++ live)))
          else [])
    /\ get_tournament_complete backend tournament_id include_odds max_pages t
       = (TournamentData.from_matches (py_str tournament_id)
            match List.find Py.truthy (head_names [ended; upcoming; live]) with
            | Some n => n
            | None => ("Tournament " ++ py_str tournament_id)%string
            end
            (unique_by_id (ended ++ upcoming ++ live))
            (count_if truthy_odds s4 >? 0),
          t ++ s1 ++ s2 ++ s3 ++ s4).
Proof.
  intros Hvalid.
  assert (py_id_truthy tournament_id = true
          /\ Py.strip (py_str tournament_id) <> ""
          /\ 1 <= max_pages <= 20) as (Htruthy & Hblank & Hrange).
  { unfold invalid_tournament_request in Hvalid.
    destruct (py_id_truthy tournament_id); [| tauto].
    split; [reflexivity |]. split; [tauto | lia]. }
  destruct (partition_walked (py_str tournament_id) "ended" Ended max_pages t
              eq_refl ltac:(lia)) as (ended & s1 & He & Hw1).
  destruct (partition_walked (py_str tournament_id) "upcoming" Upcoming
              max_pages (t ++ s1) eq_refl ltac:(lia))
    as (upcoming & s2 & Hu & Hw2).
  destruct (partition_walked (py_str tournament_id) "live" Inplay max_pages
              ((t ++ s1) ++ s2) eq_refl ltac:(lia))
    as (live & s3 & Hl & Hw3).
  set (all := unique_by_id (ended ++ upcoming ++ live)).
  set (t3 := ((t ++ s1) ++ s2) ++ s3) in *.
  assert (exists s4,
             requests s4
             = (if include_odds then odds_requests (take 3 all) else [])
             /\ (if include_odds && negb (is_empty all)
                 then
                   let* odds_found :=
                     for_each (odds_step backend) (take 3 all) 0 in
                   ret (odds_found >? 0)
                 else ret false) t3
                = (Ok (count_if truthy_odds s4 >? 0), t3 ++ s4))
    as (s4 & Hreq4 & Hodds).
  { destruct include_odds; cbn [andb].
    - destruct all as [| m all'] eqn:Hall; cbn [is_empty negb].
      + exists []. rewrite app_nil_r. auto.
      + destruct (odds_loop (take 3 (m :: all')) 0 t3) as (s4 & Hrun & Hreq).
        exists s4. split; [exact Hreq |].
        unfold bind. rewrite Hrun. reflexivity.
    - exists []. rewrite app_nil_r. auto. }
  exists ended, upcoming, live, s1, s2, s3, s4.
  split; [exact Hw1 |]. split; [exact Hw2 |]. split; [exact Hw3 |].
  split; [exists (t ++ s1), ((t ++ s1) ++ s2), t3; auto |].
  split; [exact Hreq4 |].
  unfold get_tournament_complete. rewrite Htruthy.
  destruct (String.eqb_spec (Py.strip (py_str tournament_id)) "");
    [tauto |].
  destruct (Z.ltb_spec max_pages 1); [lia |].
  destruct (Z.gtb_spec max_pages 20); [lia |].
  cbn [negb orb].
  unfold bind at 1. unfold collect_partitions. unfold bind at 1 2.
  rewrite (collect_partition_walk _ _ _ _ _ _ _ _ He).
  rewrite (collect_partition_walk _ _ _ _ _ _ _ _ Hu).
  rewrite (collect_partition_walk _ _ _ _ _ _ _ _ Hl).
  cbn [app]. rewrite <- app_assoc. fold all.
  unfold bind at 1. fold t3. rewrite Hodds. unfold lift.
  rewrite collected_name. unfold t3. rewrite <- !app_assoc. reflexivity.
Qed.

(** A tournament is returned only for accepted parameters, and then the
    run is the one above. *)
Lemma get_tournament_complete_ok (tournament_id : py_id)
    (include_odds : bool) (max_pages : Z) (t t' : trace)
    (d : TournamentData.t) :
  get_tournament_complete backend tournament_id include_odds max_pages t
  = (Ok d, t') ->
  ~ invalid_tournament_request tournament_id max_pages.
Proof.
  intros Hrun Hinvalid.
  destruct (tournament_request_rejected tournament_id include_odds max_pages
              t Hinvalid) as [msg Hraise].
  congruence.
Qed.

Lemma walked_sends (tournament_id : string) (ep : endpoint) (max_pages : Z)
    (found : list EventSummary.t) (s : trace) :
  walked tournament_id ep max_pages found s ->
  Forall (fun x => is_listing (request_of x) = true) s /\ s <> [].
Proof.
  intros (_ & k & Hk & Hreq). split.
  - apply List.Forall_forall. intros x Hx.
    apply (in_map request_of) in Hx. fold (requests s) in Hx.
    rewrite Hreq in Hx. apply in_map_iff in Hx as (page & <- & _).
    reflexivity.
  - intros ->. apply (f_equal (@length _)) in Hreq.
    rewrite length_map, length_seqZ in Hreq. cbn in Hreq. lia.
Qed.

(** X14. [get_tournament_complete] raises a [ValueError] with no request
    sent exactly when the identifier is false or blank once trimmed, or
    [max_pages_per_type] is outside 1..20. *)
Theorem get_tournament_complete_validation (tournament_id : py_id)
    (include_odds : bool) (max_pages : Z) (t : trace) :
  (exists msg,
      get_tournament_complete backend tournament_id include_odds max_pages t
      = (Raise (ValueError msg), t))
  <-> invalid_tournament_request tournament_id max_pages.
Proof.
  split; [| apply tournament_request_rejected].
  intros [msg Hrun].
  destruct (py_id_truthy tournament_id) eqn:Htruthy;
    [| left; exact Htruthy].
  destruct (String.eqb_spec (Py.strip (py_str tournament_id)) "");
    [right; left; assumption |].
  destruct (Z.ltb_spec max_pages 1); [right; right; left; assumption |].
  destruct (Z.ltb_spec 20 max_pages); [right; right; right; assumption |].
  exfalso.
  assert (~ invalid_tournament_request tournament_id max_pages) as Hvalid.
  { unfold invalid_tournament_request.
    intros [? | [? | [? | ?]]]; [congruence | contradiction | lia | lia]. }
  destruct (get_tournament_complete_run tournament_id include_odds
              max_pages t Hvalid)
    as (ended & upcoming & live & s1 & s2 & s3 & s4 & Hw1 & _ & _ & _ & _
        & Hrun').
  destruct (walked_sends _ _ _ _ _ Hw1) as [_ Hs1].
  rewrite Hrun in Hrun'. injection Hrun' as _ Ht.
  apply (f_equal (@length _)) in Ht. rewrite !length_app in Ht.
  destruct s1; [congruence | cbn in Ht; lia].
Qed.


Lemma tournament_from_matches_meta (tournament_id tournament_name : string)
    (ms : list EventSummary.t) (has_odds_data : bool) (d : TournamentData.t) :
  TournamentData.from_matches tournament_id tournament_name ms has_odds_data
  = Ok d ->
  TournamentData.tournament_id d = tournament_id
  /\ TournamentData.tournament_name d = tournament_name
  /\ TournamentData.has_odds_data d = has_odds_data.
Proof.
  unfold TournamentData.from_matches.
  destruct (rmap _ ms) as [dates | e]; cbn [rbind]; [| discriminate].
  intros [= <-]. cbn. auto.
Qed.

(** X16. The tournament [get_tournament_complete] returns carries the
    identifier as a string, and is named after the first match of the ended
    partition, else of the upcoming one, else of the live one, the first of
    these league names that is not empty; if there is none it is named
    "Tournament <id>". *)
Theorem tournament_name_rule (tournament_id : py_id) (include_odds : bool)
    (max_pages : Z) (t t' : trace) (d : TournamentData.t) :
  get_tournament_complete backend tournament_id include_odds max_pages t
  = (Ok d, t') ->
  exists ended upcoming live,
    partitions_of backend (py_str tournament_id) max_pages t
      ended upcoming live
    /\ TournamentData.tournament_id d = py_str tournament_id
    /\ TournamentData.tournament_name d
       = match List.find Py.truthy (head_names [ended; upcoming; live]) with
         | Some n => n
         | None => ("Tournament " ++ py_str tournament_id)%string
         end.
Proof.
  intros Hd.
  destruct (get_tournament_complete_run tournament_id include_odds
              max_pages t (get_tournament_complete_ok _ _ _ _ _ _ Hd))
    as (ended & upcoming & live & s1 & s2 & s3 & s4 & _ & _ & _ & Hparts
        & _ & Hrun).
  rewrite Hd in Hrun. injection Hrun as Hfrom _. symmetry in Hfrom.
  apply tournament_from_matches_meta in Hfrom as (Hid & Hname & _).
  exists ended, upcoming, live. auto.
Qed.

Lemma listing_not_truthy_odds (s : trace) :
  Forall (fun x => is_listing (request_of x) = true) s ->
  Forall (fun x => truthy_odds x = false) s.
Proof.
  apply List.Forall_impl. intros [ep l p r | ids r | i r]; cbn;
    [reflexivity | discriminate | discriminate].
Qed.

Lemma count_if_positive {A : Type} (p : A -> bool) (xs : list A) :
  (count_if p xs >? 0) = true <-> exists x, In x xs /\ p x = true.
Proof.
  induction xs as [| x xs IH].
  - cbn. split; [discriminate | intros (x & [] & _)].
  - rewrite count_if_cons. pose proof (len_nonneg (List.filter p xs)) as Hn.
    fold (count_if p xs) in Hn. destruct (p x) eqn:Hx.
    + split; [intros _; exists x; cbn; auto |].
      intros _. apply Z.gtb_lt. lia.
    + rewrite Z.add_0_l, IH. split.
      * intros (y & Hy & Hpy). exists y. cbn. auto.
      * intros (y & [<- | Hy] & Hpy); [congruence | eauto].
Qed.

(** X17. [has_odds_data] of the tournament returned is set exactly when
    [include_odds] is and one of the first three matches gathered was
    answered an odds summary that is not empty; a failing odds request counts
    as no odds. *)
Theorem tournament_odds_sample (tournament_id : py_id) (include_odds : bool)
    (max_pages : Z) (t t' : trace) (d : TournamentData.t) :
  get_tournament_complete backend tournament_id include_odds max_pages t
  = (Ok d, t') ->
  exists s,
    t' = t ++ s
    /\ (TournamentData.has_odds_data d = true
        <-> include_odds = true
            /\ exists m odds,
                 In m (take 3 (TournamentData.matches d))
                 /\ In (OddsSummarised (EventSummary.id m) (Ok odds)) s
                 /\ json_truthy odds = true).
Proof.
  intros Hd.
  destruct (get_tournament_complete_run tournament_id include_odds
              max_pages t (get_tournament_complete_ok _ _ _ _ _ _ Hd))
    as (ended & upcoming & live & s1 & s2 & s3 & s4 & Hw1 & Hw2 & Hw3 & _
        & Hreq4 & Hrun).
  rewrite Hd in Hrun. injection Hrun as Hfrom Ht'. symmetry in Hfrom.
  destruct (tournament_from_matches_fields _ _ _ _ _ Hfrom) as (Hms & _).
  apply tournament_from_matches_meta in Hfrom as (_ & _ & Hodds).
  exists (s1 ++ s2 ++ s3 ++ s4). split; [exact Ht' |].
  rewrite Hodds, Hms, count_if_positive.
  set (all := unique_by_id (ended ++ upcoming ++ live)) in *.
  split.
  - intros (x & Hx & Htruthy).
    destruct x as [ep l p r | ids r | i [odds | e]]; try discriminate.
    apply (in_map request_of) in Hx as Hrx. fold (requests s4) in Hrx.
    rewrite Hreq4 in Hrx. destruct include_odds; [| destruct Hrx].
    split; [reflexivity |].
    apply in_map_iff in Hrx as (m & [= <-] & Hm).
    exists m, odds. split; [exact Hm |]. split; [| exact Htruthy].
    rewrite !in_app_iff. auto.
  - intros (_ & m & odds & _ & Hin & Htruthy).
    exists (OddsSummarised (EventSummary.id m) (Ok odds)).
    split; [| exact Htruthy].
    rewrite !in_app_iff in Hin.
    destruct Hin as [Hin | [Hin | [Hin | Hin]]]; [| | | exact Hin];
      exfalso;
      [ destruct (walked_sends _ _ _ _ _ Hw1) as [Hall _]
      | destruct (walked_sends _ _ _ _ _ Hw2) as [Hall _]
      | destruct (walked_sends _ _ _ _ _ Hw3) as [Hall _] ];
      rewrite List.Forall_forall in Hall; specialize (Hall _ Hin);
      discriminate.
Qed.

(** X18. Every match of the tournament returned belongs to the league asked
    for and is an event of a listing page that was answered during the
    call. *)
Theorem tournament_matches_of_league (tournament_id : py_id)
    (include_odds : bool) (max_pages : Z) (t t' : trace)
    (d : TournamentData.t) :
  get_tournament_complete backend tournament_id include_odds max_pages t
  = (Ok d, t') ->
  exists s,
    t' = t ++ s
    /\ Forall
         (fun m =>
            EventSummary.league_id m = py_str tournament_id
            /\ In m (listed_events s))
         (TournamentData.matches d).
Proof.
  intros Hd.
  destruct (get_tournament_complete_run tournament_id include_odds
              max_pages t (get_tournament_complete_ok _ _ _ _ _ _ Hd))
    as (ended & upcoming & live & s1 & s2 & s3 & s4 & (He & _) & (Hu & _)
        & (Hl & _) & _ & _ & Hrun).
  rewrite Hd in Hrun. injection Hrun as Hfrom Ht'. symmetry in Hfrom.
  destruct (tournament_from_matches_fields _ _ _ _ _ Hfrom) as (Hms & _).
  exists (s1 ++ s2 ++ s3 ++ s4). split; [exact Ht' |].
  rewrite Hms. apply List.Forall_forall. intros m Hm.
  apply unique_by_id_spec in Hm. rewrite !listed_events_app.
  rewrite !in_app_iff in Hm. rewrite !in_app_iff.
  rewrite He, Hu, Hl in Hm. rewrite !filter_In in Hm.
  destruct Hm as [[Hin Hid] | [[Hin Hid] | [Hin Hid]]];
    apply String.eqb_eq in Hid; auto.
Qed.

End TournamentRun.

Lemma get_tournament_complete_validation_witness :
  exists msg : string,
    get_tournament_complete Sample.failing (IdInt 0) true 10 []
    = (Raise (ValueError msg), []).
Proof.
  apply (proj2 (get_tournament_complete_validation Sample.failing (IdInt 0)
                  true 10 [])).
  left. reflexivity.
Defined.


Lemma tournament_name_rule_witness :
  exists (d : TournamentData.t) (t' : trace),
    get_tournament_complete
      (Sample.backend_of [] [Sample.event "2" "0" None] [])
      (IdStr "29128") false 10 [] = (Ok d, t')
    /\ TournamentData.tournament_name d = "TT Cup"
    /\ exists ended upcoming live,
         partitions_of (Sample.backend_of [] [Sample.event "2" "0" None] [])
           "29128" 10 [] ended upcoming live
         /\ TournamentData.tournament_id d = "29128"
         /\ TournamentData.tournament_name d
            = match
                List.find Py.truthy (head_names [ended; upcoming; live])
              with
              | Some n => n
              | None => "Tournament 29128"
              end.
Proof.
  eexists. eexists. split; [vm_compute; reflexivity |].
  split; [reflexivity |].
  exact (tournament_name_rule
           (Sample.backend_of [] [Sample.event "2" "0" None] [])
           (IdStr "29128") false 10 [] _ _ eq_refl).
Defined.

Lemma tournament_odds_sample_witness :
  exists (d : TournamentData.t) (t' : trace),
    get_tournament_complete
      (Sample.backend_of [Sample.finished "1" "3-1"] [] [])
      (IdStr "29128") true 10 [] = (Ok d, t')
    /\ TournamentData.has_odds_data d = false
    /\ exists s,
         t' = [] ++ s
         /\ (TournamentData.has_odds_data d = true
             <-> true = true
                 /\ exists m odds,
                      In m (take 3 (TournamentData.matches d))
                      /\ In (OddsSummarised (EventSummary.id m) (Ok odds)) s
                      /\ json_truthy odds = true).
Proof.
  eexists. eexists. split; [vm_compute; reflexivity |].
  split; [reflexivity |].
  exact (tournament_odds_sample
           (Sample.backend_of [Sample.finished "1" "3-1"] [] [])
           (IdStr "29128") true 10 [] _ _ eq_refl).
Defined.

Lemma tournament_matches_of_league_witness :
  exists (d : TournamentData.t) (t' : trace),
    get_tournament_complete
      (Sample.backend_of
         [Sample.finished "1" "3-1";
          EventSummary.mk "5" "92" "1753811400" "3" "777" "Other" None
            (Sample.player "1" "A") (Sample.player "2" "B") (Some "3-0") []
            None None None] [] [])
      (IdStr "29128") false 10 [] = (Ok d, t')
    /\ Forall (fun m => EventSummary.league_id m = "29128")
         (TournamentData.matches d).
Proof.
  eexists. eexists. split; [vm_compute; reflexivity |].
  match goal with
  | |- Forall _ (TournamentData.matches ?d) =>
      destruct (tournament_matches_of_league
                  (Sample.backend_of
                     [Sample.finished "1" "3-1";
                      EventSummary.mk "5" "92" "1753811400" "3" "777" "Other"
                        None (Sample.player "1" "A") (Sample.player "2" "B")
                        (Some "3-0") [] None None None] [] [])
                  (IdStr "29128") false 10 [] _ d eq_refl)
        as (s & _ & Hall)
  end.
  eapply List.Forall_impl; [| exact Hall]. cbn. tauto.
Defined.

(** ** get_player_history from end to end *)

Section MonadRuns.

Context {A : Type}.

Lemma try_ok (m : M A) (h : exn -> M A) (t t1 : trace) (a : A) :
  m t = (Ok a, t1) -> try_except m h t = (Ok a, t1).
Proof. intros Hm. unfold try_except. rewrite Hm. reflexivity. Qed.

Lemma bind_ret_ok (m : M A) (t t1 : trace) (a : A) :
  m t = (Ok a, t1) -> (let* r := m in ret r) t = (Ok a, t1).
Proof. intros Hm. unfold bind. rewrite Hm. reflexivity. Qed.

End MonadRuns.

Lemma dict_set_entries {V : Type} (k : string) (v : V) (d : Dict.t V)
    (kv : string * V) :
  In kv (Dict.set k v d) -> kv = (k, v) \/ In kv d.
Proof.
  induction d as [| [k' v'] d IH]; cbn.
  - intuition congruence.
  - destruct (String.eqb_spec k' k) as [-> | Hne]; cbn.
    + intuition congruence.
    + intros [<- | Hin]; [tauto | apply IH in Hin; tauto].
Qed.

Lemma pages_are_ended (k : Z) :
  Forall ended_page (map (ReqEvents Ended None) (seqZ 1 k)).
Proof.
  apply List.Forall_forall. intros r Hr.
  apply in_map_iff in Hr as (page & <- & Hpage).
  apply list_elem_of_In, elem_of_seqZ in Hpage.
  exists page. split; [lia | reflexivity].
Qed.

Section HistoryRun.

Variable backend : Backend.
Variable now : Datetime.t.

Lemma h2h_step_run (player_name : string) (days : Z) (opponent : string)
    (h2h_records : Dict.t (list EventSummary.t)) (t : trace) :
  exists h2h_matches s,
    h2h_step backend now player_name days opponent h2h_records t
    = (Ok (if is_empty h2h_matches then h2h_records
           else Dict.set opponent h2h_matches h2h_records, Continue),
       t ++ s)
    /\ Forall
         (fun m =>
            recent_for player_name (now - Datetime.timedelta_days (days * 2)) m
            /\ opponent_of player_name m = opponent)
         h2h_matches
    /\ Forall ended_page (requests s).
Proof.
  destruct (recent_walk backend now player_name (days * 2) 5 t)
    as (found & s & k & Hwalk & Hrecent & _ & _ & _ & Hreq).
  exists (List.filter (fun m => String.eqb (opponent_of player_name m) opponent)
            found), s.
  split; [| split].
  - unfold h2h_step, _get_h2h_matches, try_except, bind. rewrite Hwalk.
    unfold ret.
    destruct (is_empty
                (List.filter
                   (fun m => String.eqb (opponent_of player_name m) opponent)
                   found)); reflexivity.
  - apply List.Forall_forall. intros m Hm.
    apply filter_In in Hm as [Hm Hop]. apply String.eqb_eq in Hop.
    rewrite List.Forall_forall in Hrecent. auto.
  - rewrite Hreq. apply pages_are_ended.
Qed.

(** The loop over the opponents: the records it adds are filed under
    opponents of the loop. *)
Lemma h2h_loop (player_name : string) (days : Z) (opponents : list string)
    (h2h_records : Dict.t (list EventSummary.t)) (t : trace) :
  exists h2h_records' s,
    for_each (h2h_step backend now player_name days) opponents h2h_records t
    = (Ok h2h_records', t ++ s)
    /\ Forall ended_page (requests s)
    /\ (forall kv,
           In kv h2h_records' ->
           In kv h2h_records
           \/ (In (fst kv) opponents
               /\ h2h_entry player_name
                    (now - Datetime.timedelta_days (days * 2)) kv))
    /\ (List.NoDup (Dict.keys h2h_records) ->
        List.NoDup (Dict.keys h2h_records')).
Proof.
  revert h2h_records t.
  induction opponents as [| opponent opponents IH]; intros h2h_records t.
  - exists h2h_records, []. cbn. rewrite app_nil_r.
    split; [reflexivity |]. split; [constructor |]. auto.
  - destruct (h2h_step_run player_name days opponent h2h_records t)
      as (h2h_matches & s1 & Hstep & Hmatches & Hreq1).
    set (next := if is_empty h2h_matches then h2h_records
                 else Dict.set opponent h2h_matches h2h_records) in *.
    destruct (IH next (t ++ s1)) as (final & s2 & Hloop & Hreq2 & Hin & Hnd).
    exists final, (s1 ++ s2). split; [| split; [| split]].
    + cbn [for_each]. unfold bind. rewrite Hstep, Hloop, app_assoc.
      reflexivity.
    + rewrite requests_app. apply Forall_app. auto.
    + intros kv Hkv. apply Hin in Hkv as [Hkv | [Hkv Hentry]];
        [| right; split; [right; exact Hkv | exact Hentry]].
      subst next. destruct h2h_matches as [| m ms] eqn:Hms; cbn [is_empty] in Hkv;
        [left; exact Hkv |].
      apply dict_set_entries in Hkv as [-> | Hkv]; [| left; exact Hkv].
      right. split; [left; reflexivity |]. split; [discriminate | exact Hmatches].
    + intros Hnd0. apply Hnd. subst next.
      destruct (is_empty h2h_matches);
        [exact Hnd0 | apply dict_keys_set_nodup, Hnd0].
Qed.

Lemma history_request_rejected (player_name : string) (days : Z)
    (include_h2h : bool) (max_pages : Z) (t : trace) :
  invalid_history_request player_name days max_pages ->
  exists msg,
    get_player_history backend now player_name days include_h2h max_pages t
    = (Raise (ValueError msg), t).
Proof.
  intros Hinvalid. unfold get_player_history.
  destruct (negb (Py.truthy player_name)
            || negb (Py.truthy (Py.strip player_name))) eqn:Hname;
    [eexists; reflexivity |].
  destruct Hinvalid as [Hempty | Hrange].
  { rewrite Hempty in Hname. cbn in Hname.
    rewrite orb_true_r in Hname. discriminate. }
  destruct (Z.ltb_spec days 1); [eexists; reflexivity |].
  destruct (Z.gtb_spec days 365); [eexists; reflexivity |].
  destruct (Z.ltb_spec max_pages 1); [eexists; reflexivity |].
  destruct (Z.gtb_spec max_pages 50); [eexists; reflexivity |].
  lia.
Qed.

Lemma get_player_history_ok (player_name : string) (days : Z)
    (include_h2h : bool) (max_pages : Z) (t t' : trace)
    (h : PlayerMatchHistory.t) :
  get_player_history backend now player_name days include_h2h max_pages t
  = (Ok h, t') ->
  ~ invalid_history_request player_name days max_pages.
Proof.
  intros Hrun Hinvalid.
  destruct (history_request_rejected player_name days include_h2h max_pages
              t Hinvalid) as [msg Hraise].
  congruence.
Qed.

(** With accepted parameters: the walk over the ended matches, the loop
    over the opponents, and the history built from what they gave. *)
Lemma get_player_history_run (player_name : string) (days : Z)
    (include_h2h : bool) (max_pages : Z) (t : trace) :
  ~ invalid_history_request player_name days max_pages ->
  exists found s1 k h2h_records s2,
    _get_recent_player_matches backend now player_name days max_pages t
    = (Ok found, t ++ s1)
    /\ Forall (recent_for player_name (now - Datetime.timedelta_days days))
         found
    /\ Forall (fun m => In m (listed_events s1)) found
    /\ 1 <= k <= max_pages
    /\ requests s1 = map (ReqEvents Ended None) (seqZ 1 k)
    /\ Forall ended_page (requests s2)
    /\ (include_h2h = false -> h2h_records = Dict.empty /\ s2 = [])
    /\ List.NoDup (Dict.keys h2h_records)
    /\ (forall kv,
           In kv h2h_records ->
           In (fst kv)
             (take 10
                (elements
                   (list_to_set
                      (map (opponent_of player_name) (unique_by_id found))
                    : gset string)))
           /\ h2h_entry player_name
                (now - Datetime.timedelta_days (days * 2)) kv)
    /\ get_player_history backend now player_name days include_h2h max_pages t
       = (PlayerMatchHistory.from_matches player_name (unique_by_id found)
            h2h_records days,
          t ++ s1 ++ s2).
Proof.
  intros Hvalid. unfold invalid_history_request in Hvalid.
  destruct (recent_walk backend now player_name days max_pages t)
    as (found & s1 & k & Hwalk & Hrecent & Hlisted & Hk & Hk1 & Hreq1).
  set (all := unique_by_id found).
  set (opponents := take 10
                      (elements
                         (list_to_set (map (opponent_of player_name) all)
                          : gset string))).
  assert (exists h2h_records s2,
             (if include_h2h && negb (is_empty all)
              then for_each (h2h_step backend now player_name days) opponents
                     Dict.empty
              else ret Dict.empty) (t ++ s1)
             = (Ok h2h_records, (t ++ s1) ++ s2)
             /\ Forall ended_page (requests s2)
             /\ (include_h2h = false -> h2h_records = Dict.empty /\ s2 = [])
             /\ List.NoDup (Dict.keys h2h_records)
             /\ (forall kv,
                    In kv h2h_records ->
                    In (fst kv) opponents
                    /\ h2h_entry player_name
                         (now - Datetime.timedelta_days (days * 2)) kv))
    as (h2h_records & s2 & Hloop & Hreq2 & Hoff & Hnd & Hentries).
  { destruct (include_h2h && negb (is_empty all)) eqn:Hon.
    - destruct (h2h_loop player_name days opponents Dict.empty (t ++ s1))
        as (h2h_records & s2 & Hloop & Hreq2 & Hin & Hnd).
      exists h2h_records, s2. split; [exact Hloop |]. split; [exact Hreq2 |].
      split; [intros ->; discriminate |].
      split; [apply Hnd; constructor |].
      intros kv Hkv. apply Hin in Hkv as [[] | Hkv]. exact Hkv.
    - exists Dict.empty, []. rewrite app_nil_r.
      split; [reflexivity |]. split; [constructor |].
      split; [auto |]. split; [constructor |]. intros kv []. }
  exists found, s1, k, h2h_records, s2. split; [exact Hwalk |].
  split; [exact Hrecent |]. split; [exact Hlisted |].
  split; [lia |]. split; [exact Hreq1 |]. split; [exact Hreq2 |].
  split; [exact Hoff |]. split; [exact Hnd |]. split; [exact Hentries |].
  unfold get_player_history.
  destruct (negb (Py.truthy player_name)
            || negb (Py.truthy (Py.strip player_name))) eqn:Hname.
  { exfalso. apply Hvalid. left.
    apply orb_true_iff in Hname as [Hn | Hn];
      apply negb_true_iff, truthy_empty in Hn; [| exact Hn].
    subst player_name. reflexivity. }
  destruct (Z.ltb_spec days 1); [lia |].
  destruct (Z.gtb_spec days 365); [lia |].
  destruct (Z.ltb_spec max_pages 1); [lia |].
  destruct (Z.gtb_spec max_pages 50); [lia |].
  cbn [orb].
  unfold bind at 1.
  rewrite (try_ok _ _ _ _ _ (bind_ret_ok _ _ _ _ Hwalk)).
  fold all. fold opponents. unfold bind at 1. rewrite Hloop.
  unfold lift. rewrite <- app_assoc. reflexivity.
Qed.

(** X19. The matches of a history [get_player_history] returns have
    pairwise distinct identifiers; each has the player at home or away, is
    dated [days] before now or later, and is an event of a page of ended
    matches answered during the call. *)
Theorem player_history_matches (player_name : string) (days : Z)
    (include_h2h : bool) (max_pages : Z) (t t' : trace)
    (h : PlayerMatchHistory.t) :
  get_player_history backend now player_name days include_h2h max_pages t
  = (Ok h, t') ->
  exists s,
    t' = t ++ s
    /\ List.NoDup (map EventSummary.id (PlayerMatchHistory.matches h))
    /\ Forall
         (fun m =>
            recent_for player_name (now - Datetime.timedelta_days days) m
            /\ In m (listed_events s))
         (PlayerMatchHistory.matches h).
Proof.
  intros Hh.
  destruct (get_player_history_run player_name days include_h2h max_pages t
              (get_player_history_ok _ _ _ _ _ _ _ Hh))
    as (found & s1 & k & h2h & s2 & _ & Hrecent & Hlisted & _ & _ & _ & _ & _
        & _ & Hrun).
  rewrite Hh in Hrun. injection Hrun as Hfrom Ht'. symmetry in Hfrom.
  destruct (history_from_matches_fields _ _ _ _ _ Hfrom) as (Hms & _).
  destruct (unique_by_id_spec found) as (Hnd & _ & Hin).
  exists (s1 ++ s2). split; [exact Ht' |]. rewrite Hms.
  split; [exact Hnd |].
  apply List.Forall_forall. intros m Hm. apply Hin in Hm.
  rewrite List.Forall_forall in Hrecent, Hlisted.
  split; [auto |]. rewrite listed_events_app, in_app_iff. auto.
Qed.

Lemma history_from_matches_h2h (player_name : string)
    (matches : list EventSummary.t)
    (h2h_records : Dict.t (list EventSummary.t)) (days : Z)
    (h : PlayerMatchHistory.t) :
  PlayerMatchHistory.from_matches player_name matches h2h_records days = Ok h ->
  PlayerMatchHistory.h2h_records h = h2h_records
  /\ PlayerMatchHistory.opponents h
     = list_to_set (map (opponent_of player_name) matches).
Proof.
  unfold PlayerMatchHistory.from_matches.
  destruct (rcount _ matches) as [w | e]; cbn [rbind]; [| discriminate].
  intros [= <-]. cbn. auto.
Qed.

(** X20. The head-to-head records of a history returned hold at most ten
    entries, filed under distinct opponents of the matches of the history;
    an entry is never empty, and holds matches of the player against that
    opponent dated [2 * days] before now or later. Without [include_h2h]
    there are no records. *)
Theorem player_history_h2h (player_name : string) (days : Z)
    (include_h2h : bool) (max_pages : Z) (t t' : trace)
    (h : PlayerMatchHistory.t) :
  get_player_history backend now player_name days include_h2h max_pages t
  = (Ok h, t') ->
  (include_h2h = false -> PlayerMatchHistory.h2h_records h = Dict.empty)
  /\ List.NoDup (Dict.keys (PlayerMatchHistory.h2h_records h))
  /\ (length (PlayerMatchHistory.h2h_records h) <= 10)%nat
  /\ (forall opponent ms,
         In (opponent, ms) (PlayerMatchHistory.h2h_records h) ->
         opponent ∈ PlayerMatchHistory.opponents h
         /\ (exists m,
                In m (PlayerMatchHistory.matches h)
                /\ opponent_of player_name m = opponent)
         /\ ms <> []
         /\ Forall
              (fun m =>
                 recent_for player_name
                   (now - Datetime.timedelta_days (days * 2)) m
                 /\ opponent_of player_name m = opponent)
              ms).
Proof.
  intros Hh.
  destruct (get_player_history_run player_name days include_h2h max_pages t
              (get_player_history_ok _ _ _ _ _ _ _ Hh))
    as (found & s1 & k & h2h & s2 & _ & _ & _ & _ & _ & _ & Hoff & Hnd
        & Hentries & Hrun).
  rewrite Hh in Hrun. injection Hrun as Hfrom _. symmetry in Hfrom.
  destruct (history_from_matches_fields _ _ _ _ _ Hfrom) as (Hms & _).
  destruct (history_from_matches_h2h _ _ _ _ _ Hfrom) as (Hh2h & Hopp).
  rewrite Hh2h, Hms, Hopp.
  set (all := unique_by_id found) in *.
  set (opponents := elements
                      (list_to_set (map (opponent_of player_name) all)
                       : gset string)) in *.
  split; [intros Hno; apply Hoff, Hno |]. split; [exact Hnd |]. split.
  - transitivity (length (take 10 opponents)); [| rewrite length_take; lia].
    rewrite <- (length_map fst h2h). apply NoDup_incl_length; [exact Hnd |].
    intros key Hkey. apply in_map_iff in Hkey as (kv & <- & Hkv).
    apply Hentries, Hkv.
  - intros opponent ms Hin. destruct (Hentries _ Hin) as (Hkey & Hne & Hall).
    cbn [fst snd] in *.
    assert (opponent ∈ (list_to_set (map (opponent_of player_name) all)
                        : gset string)) as Helem.
    { apply elem_of_elements. fold opponents.
      apply list_elem_of_In in Hkey.
      eapply subseteq_take; exact Hkey. }
    split; [exact Helem |]. split; [| split; assumption].
    apply elem_of_list_to_set, list_elem_of_In, in_map_iff in Helem
      as (m & Hop & Hm).
    exists m. auto.
Qed.

(** X21. With accepted parameters, [get_player_history] asks for the pages
    1 to [k] of the ended matches, [k] between 1 and [max_pages], and then
    only for further pages of ended matches, none when [include_h2h] is not
    set: it never asks for a detailed view, for odds, or for a league. *)
Theorem player_history_requests (player_name : string) (days : Z)
    (include_h2h : bool) (max_pages : Z) (t : trace) :
  ~ invalid_history_request player_name days max_pages ->
  exists (s : trace) (k : Z) (h2h_requests : list request),
    snd (get_player_history backend now player_name days include_h2h
           max_pages t) = t ++ s
    /\ requests s = map (ReqEvents Ended None) (seqZ 1 k) ++ h2h_requests
    /\ 1 <= k <= max_pages
    /\ Forall ended_page h2h_requests
    /\ (include_h2h = false -> h2h_requests = []).
Proof.
  intros Hvalid.
  destruct (get_player_history_run player_name days include_h2h max_pages t
              Hvalid)
    as (found & s1 & k & h2h & s2 & _ & _ & _ & Hk & Hreq1 & Hreq2 & Hoff & _
        & _ & Hrun).
  exists (s1 ++ s2), k, (requests s2). rewrite Hrun. cbn [snd].
  split; [reflexivity |]. split; [rewrite requests_app, Hreq1; reflexivity |].
  split; [exact Hk |]. split; [exact Hreq2 |].
  intros Hno. destruct (Hoff Hno) as [_ ->]. reflexivity.
Qed.

End HistoryRun.

Lemma player_history_matches_witness :
  exists (h : PlayerMatchHistory.t) (t' : trace),
    get_player_history
      (Sample.backend_of
         [Sample.finished "1" "3-1"; Sample.finished "1" "3-2"] [] [])
      Sample.now "A" 30 false 10 [] = (Ok h, t')
    /\ List.NoDup (map EventSummary.id (PlayerMatchHistory.matches h)).
Proof.
  eexists. eexists. split; [vm_compute; reflexivity |].
  match goal with
  | |- List.NoDup (map EventSummary.id (PlayerMatchHistory.matches ?h)) =>
      destruct (player_history_matches
                  (Sample.backend_of
                     [Sample.finished "1" "3-1"; Sample.finished "1" "3-2"]
                     [] [])
                  Sample.now "A" 30 false 10 [] _ h eq_refl)
        as (s & _ & Hnd & _)
  end.
  exact Hnd.
Defined.

Lemma player_history_h2h_witness :
  exists (h : PlayerMatchHistory.t) (t' : trace),
    get_player_history
      (Sample.backend_of [Sample.finished "1" "3-1"] [] [])
      Sample.now "A" 30 true 10 [] = (Ok h, t')
    /\ List.NoDup (Dict.keys (PlayerMatchHistory.h2h_records h)).
Proof.
  eexists. eexists. split; [vm_compute; reflexivity |].
  match goal with
  | |- List.NoDup (Dict.keys (PlayerMatchHistory.h2h_records ?h)) =>
      destruct (player_history_h2h
                  (Sample.backend_of [Sample.finished "1" "3-1"] [] [])
                  Sample.now "A" 30 true 10 [] _ h eq_refl)
        as (_ & Hnd & _)
  end.
  exact Hnd.
Defined.

Lemma player_history_requests_witness :
  exists s : trace,
    snd (get_player_history
           (Sample.backend_of [Sample.finished "1" "3-1"] [] [])
           Sample.now "A" 30 true 10 []) = s
    /\ requests s = [ReqEvents Ended None 1; ReqEvents Ended None 1].
Proof.
  destruct (player_history_requests
              (Sample.backend_of [Sample.finished "1" "3-1"] [] [])
              Sample.now "A" 30 true 10 [])
    as (s & k & rest & Hs & _).
  - unfold invalid_history_request. intros [H | H]; [discriminate H | lia].
  - exists s. split; [exact Hs |].
    vm_compute in Hs. subst s. reflexivity.
Defined.

(** ** get_events_bulk from end to end *)

Lemma dict_set_fresh {V : Type} (k : string) (v : V) (d : Dict.t V) :
  ~ In k (Dict.keys d) -> Dict.set k v d = d ++ [(k, v)].
Proof.
  unfold Dict.keys. induction d as [| [k' v'] d IH]; cbn; [reflexivity |].
  intros Hnotin. destruct (String.eqb_spec k' k) as [-> | Hne]; [tauto |].
  rewrite IH by tauto. reflexivity.
Qed.

Lemma added_from_incl (include_odds include_view : bool)
    (evs evs' : list EventSummary.t) (added : Dict.t EventSummary.t) :
  (forall ev, In ev evs -> In ev evs') ->
  added_from include_odds include_view evs added ->
  added_from include_odds include_view evs' added.
Proof.
  intros Hincl. apply List.Forall_impl.
  intros kv (ev & Hev & Hrest). exists ev. auto.
Qed.

Lemma enrich_requests_not_listing (include_odds include_view : bool)
    (new : list string) :
  Forall (fun r => is_listing r = false)
    (flat_map (enrich_requests include_odds include_view) new).
Proof.
  apply List.Forall_forall. intros r Hr.
  apply in_flat_map in Hr as (i & _ & Hr). unfold enrich_requests in Hr.
  destruct include_view, include_odds; cbn in Hr;
    repeat destruct Hr as [<- | Hr]; try reflexivity; destruct Hr.
Qed.

Lemma not_listing_quiet (s : trace) :
  Forall (fun r => is_listing r = false) (requests s) -> listed_events s = [].
Proof.
  induction s as [| x s IH]; [reflexivity |].
  intros Hall. inversion Hall as [| ? ? Hx Hs]; subst.
  unfold listed_events in *. cbn [flat_map]. rewrite (IH Hs), app_nil_r.
  destruct x; [discriminate | reflexivity | reflexivity].
Qed.

Lemma filter_id {A : Type} (p : A -> bool) (xs : list A) :
  Forall (fun x => p x = true) xs -> List.filter p xs = xs.
Proof.
  induction 1 as [| x xs Hx _ IH]; cbn; [reflexivity |].
  rewrite Hx, IH. reflexivity.
Qed.

Lemma filter_none {A : Type} (p : A -> bool) (xs : list A) :
  Forall (fun x => p x = false) xs -> List.filter p xs = [].
Proof.
  induction 1 as [| x xs Hx _ IH]; cbn; [reflexivity |].
  rewrite Hx, IH. reflexivity.
Qed.

Section BulkRun.

Variable backend : Backend.
Variables include_odds include_view : bool.

Lemma enrich_run (event : EventSummary.t) (t : trace) :
  exists e s,
    enrich backend include_odds include_view event t = (Ok e, t ++ s)
    /\ requests s
       = enrich_requests include_odds include_view (EventSummary.id event)
    /\ enriched include_odds include_view event e.
Proof.
  unfold enrich, bind, try_except, get_details.
  assert ((len [EventSummary.id event] >? 10) = false) as -> by reflexivity.
  unfold odds_get_summary, request_view, request_odds_summary, ret,
    enrich_requests, enriched.
  destruct event. destruct include_view, include_odds; cbn;
    repeat match goal with
      | |- context [event_view backend ?t ?ids] =>
          destruct (event_view backend t ids); cbn
      | |- context [odds_summary backend ?t ?i] =>
          destruct (odds_summary backend t i); cbn
      end;
    first
      [ solve [eexists; exists []; rewrite app_nil_r;
               split; [reflexivity |]; split; [reflexivity |];
               eexists; eexists; split; [reflexivity |];
               split; intros; first [reflexivity | discriminate]]
      | eexists; eexists; split;
        [rewrite <- ?app_assoc; cbn [app]; reflexivity |];
        split; [reflexivity |];
        eexists; eexists; split; [reflexivity |];
        split; intros; first [reflexivity | discriminate] ].
Qed.

Lemma scan_event_run (event : EventSummary.t) (R X : list string)
    (st : scan_state) (t : trace) :
  scan_inv R X st ->
  exists st' s added,
    scan_event backend include_odds include_view event st t
    = (Ok (st', Continue), t ++ s)
    /\ scan_inv R (X ++ [EventSummary.id event]) st'
    /\ fst st' = fst st ++ added
    /\ requests s
       = flat_map (enrich_requests include_odds include_view)
           (Dict.keys added)
    /\ added_from include_odds include_view [event] added.
Proof.
  intros Hinv.
  assert (exists st' s added,
             scan_event backend include_odds include_view event st t
             = (Ok (st', Continue), t ++ s)
             /\ fst st' = fst st ++ added
             /\ requests s
                = flat_map (enrich_requests include_odds include_view)
                    (Dict.keys added)
             /\ added_from include_odds include_view [event] added)
    as (st' & s & added & Hrun & Hadded & Hreq & Hfrom).
  { destruct Hinv as (Hnf & Hk & _). destruct st as [results not_found].
    cbn [fst snd] in *. unfold scan_event.
    destruct (bool_decide_reflect (EventSummary.id event ∈ not_found))
      as [Hin | Hnotin].
    - destruct (enrich_run event t) as (e & s & Hrun & Hreq & He).
      exists (Dict.set (EventSummary.id event) e results,
              not_found ∖ {[EventSummary.id event]}), s,
        [(EventSummary.id event, e)].
      unfold bind. rewrite Hrun. split; [reflexivity |].
      split; [| split].
      + cbn [fst]. apply dict_set_fresh. intros Hkey.
        apply Hk in Hkey. apply Hnf in Hin. tauto.
      + cbn. rewrite app_nil_r. exact Hreq.
      + constructor; [| constructor]. exists event. cbn. auto.
    - exists (results, not_found), [], []. rewrite !app_nil_r.
      split; [reflexivity |]. split; [reflexivity |].
      split; [reflexivity | constructor]. }
  exists st', s, added. split; [exact Hrun |].
  split; [| split; [| split]; assumption].
  destruct (scan_event_inv backend include_odds include_view event R X st t
              Hinv t (ext_quiet_refl t))
    as (out & Hout & _ & _ & Hinv').
  rewrite Hrun in Hout. cbn in Hout. injection Hout as <-. exact Hinv'.
Qed.

Lemma scan_events_run (evs : list EventSummary.t) (R X : list string)
    (st : scan_state) (t : trace) :
  scan_inv R X st ->
  exists st' s added,
    for_each (scan_event backend include_odds include_view) evs st t
    = (Ok st', t ++ s)
    /\ scan_inv R (X ++ map EventSummary.id evs) st'
    /\ fst st' = fst st ++ added
    /\ requests s
       = flat_map (enrich_requests include_odds include_view)
           (Dict.keys added)
    /\ added_from include_odds include_view evs added.
Proof.
  revert X st t. induction evs as [| ev evs IH]; intros X st t Hinv.
  - exists st, [], []. cbn. rewrite !app_nil_r.
    split; [reflexivity |]. split; [exact Hinv |]. split; [reflexivity |].
    split; [reflexivity | constructor].
  - destruct (scan_event_run ev R X st t Hinv)
      as (st1 & s1 & added1 & Hrun1 & Hinv1 & Hadded1 & Hreq1 & Hfrom1).
    destruct (IH _ st1 (t ++ s1) Hinv1)
      as (st2 & s2 & added2 & Hrun2 & Hinv2 & Hadded2 & Hreq2 & Hfrom2).
    exists st2, (s1 ++ s2), (added1 ++ added2).
    split; [| split; [| split; [| split]]].
    + cbn [for_each]. unfold bind. rewrite Hrun1, Hrun2, app_assoc.
      reflexivity.
    + cbn [map]. rewrite <- app_assoc in Hinv2. exact Hinv2.
    + rewrite Hadded2, Hadded1, app_assoc. reflexivity.
    + unfold Dict.keys in *.
      rewrite requests_app, map_app, flat_map_app, Hreq1, Hreq2.
      reflexivity.
    + apply Forall_app. split.
      * eapply added_from_incl; [| exact Hfrom1].
        intros e [<- | []]. left. reflexivity.
      * eapply added_from_incl; [| exact Hfrom2].
        intros e He. right. exact He.
Qed.

(** A page of the scan: [response.pager] raises, so the scan of a type
    never goes on to a second page. *)
Lemma scan_page_run (ep : endpoint) (page : Z) (R X : list string)
    (st : scan_state) (t : trace) :
  1 <= page ->
  scan_inv R X st ->
  exists st' s added,
    scan_page backend include_odds include_view (list_events backend ep None)
      page st t
    = (Ok (st', Break), t ++ s)
    /\ scan_inv R (X ++ listed_ids s) st'
    /\ fst st' = fst st ++ added
    /\ requests s
       = ReqEvents ep None page
         :: flat_map (enrich_requests include_odds include_view)
              (Dict.keys added)
    /\ added_from include_odds include_view (listed_events s) added.
Proof.
  intros Hpage Hinv. unfold scan_page, bind, attempt, list_events.
  destruct (Z.ltb_spec page 1); [lia |].
  unfold request_events. cbn [league_param].
  destruct (events backend t ep None page) as [response | e] eqn:Hreply.
  - destruct (APIResponse.results response) as [| ev evs] eqn:Hres;
      cbn [is_empty].
    + exists st, [Listed ep None page (Ok response)], [].
      split; [reflexivity |]. split; [| split; [| split]].
      * unfold listed_ids, listed_events. cbn. rewrite Hres. cbn.
        rewrite app_nil_r. exact Hinv.
      * rewrite app_nil_r. reflexivity.
      * reflexivity.
      * constructor.
    + destruct (scan_events_run (ev :: evs) R X st
                  (t ++ [Listed ep None page (Ok response)]) Hinv)
        as (st' & s & added & Hrun & Hinv' & Hadded & Hreq & Hfrom).
      rewrite Hrun.
      exists st', (Listed ep None page (Ok response) :: s), added.
      assert (listed_events (Listed ep None page (Ok response) :: s)
              = ev :: evs) as Hlisted.
      { assert (listed_events s = []) as Hquiet.
        { apply not_listing_quiet. rewrite Hreq.
          apply enrich_requests_not_listing. }
        unfold listed_events in *. cbn [flat_map].
        rewrite Hquiet, app_nil_r, Hres. reflexivity. }
      split; [| split; [| split; [| split]]].
      * unfold last_page, ret. cbn [APIResponse.pager rbind].
        rewrite <- app_assoc.
        destruct (bool_decide (snd st' = ∅)); reflexivity.
      * unfold listed_ids. rewrite Hlisted. exact Hinv'.
      * exact Hadded.
      * cbn. rewrite <- Hreq. reflexivity.
      * rewrite Hlisted. exact Hfrom.
  - exists st, [Listed ep None page (Raise e)], [].
    split; [reflexivity |]. split; [| split; [| split]].
    + unfold listed_ids, listed_events. cbn. rewrite app_nil_r. exact Hinv.
    + rewrite app_nil_r. reflexivity.
    + reflexivity.
    + constructor.
Qed.

Lemma scan_type_run (event_type : string) (ep : endpoint)
    (R X : list string) (st : scan_state) (t : trace) :
  method_map backend event_type = Ok (list_events backend ep None) ->
  snd st <> ∅ ->
  scan_inv R X st ->
  exists st' s added,
    scan_type backend include_odds include_view event_type st t
    = (Ok (st', Continue), t ++ s)
    /\ scan_inv R (X ++ listed_ids s) st'
    /\ fst st' = fst st ++ added
    /\ requests s
       = ReqEvents ep None 1
         :: flat_map (enrich_requests include_odds include_view)
              (Dict.keys added)
    /\ added_from include_odds include_view (listed_events s) added.
Proof.
  intros Hmethod Hleft Hinv. unfold scan_type.
  destruct (bool_decide_reflect (snd st = ∅)); [contradiction |].
  rewrite Hmethod.
  destruct (scan_page_run ep 1 R X st t ltac:(lia) Hinv)
    as (st' & s & added & Hrun & Hrest).
  exists st', s, added. split; [| exact Hrest].
  cbn [for_each]. unfold bind. rewrite Hrun. reflexivity.
Qed.

Lemma scan_type_done (event_type : string) (st : scan_state) (t : trace) :
  snd st = ∅ ->
  scan_type backend include_odds include_view event_type st t
  = (Ok (st, Break), t).
Proof.
  intros Hdone. unfold scan_type.
  destruct (bool_decide_reflect (snd st = ∅)); [reflexivity | contradiction].
Qed.

Lemma scan_inv_all_found (R X : list string) (st : scan_state) (i : string) :
  scan_inv R X st -> snd st = ∅ -> In i R -> In i (Dict.keys (fst st)).
Proof.
  intros (Hnf & Hkeys & _) Hdone Hi. apply Hkeys. split; [exact Hi |].
  destruct (in_dec string_dec i X) as [| Hnot]; [assumption |].
  exfalso. assert (i ∈ snd st) as Hin by (apply Hnf; tauto).
  rewrite Hdone in Hin. set_solver.
Qed.

(** For a non-empty list of at most 100 identifiers: the scan of the three
    listings, first pages only. *)
Lemma get_events_bulk_run (event_ids : list py_id) (t : trace) :
  ~ invalid_bulk_request event_ids ->
  exists (results : Dict.t EventSummary.t) (s : trace) (n : nat),
    get_events_bulk backend event_ids include_odds include_view t
    = (Ok results, t ++ s)
    /\ (1 <= n <= 3)%nat
    /\ List.filter is_listing (requests s)
       = take n [ReqEvents Ended None 1; ReqEvents Upcoming None 1;
                 ReqEvents Inplay None 1]
    /\ List.filter (fun r => negb (is_listing r)) (requests s)
       = flat_map (enrich_requests include_odds include_view)
           (Dict.keys results)
    /\ ((n < 3)%nat ->
        forall i, In i (map py_str event_ids) -> In i (Dict.keys results))
    /\ added_from include_odds include_view (listed_events s) results.
Proof.
  intros Hvalid. unfold invalid_bulk_request in Hvalid.
  unfold get_events_bulk.
  destruct event_ids as [| i0 ids] eqn:Hids; [tauto |].
  rewrite <- Hids in *.
  assert (is_empty event_ids = false) as -> by (rewrite Hids; reflexivity).
  destruct (Z.gtb_spec (len event_ids) 100) as [Hgt | _];
    [unfold len in Hgt; lia |].
  set (R := map py_str event_ids).
  assert (scan_inv R [] (Dict.empty, list_to_set R)) as Hstart.
  { unfold scan_inv. cbn. split; [| split; [| split]].
    - intros i. rewrite elem_of_list_to_set, list_elem_of_In. tauto.
    - tauto.
    - constructor.
    - constructor. }
  assert (snd (Dict.empty : Dict.t EventSummary.t, list_to_set R : gset string)
          <> ∅) as Hsome.
  { cbn. subst R. rewrite Hids. cbn. set_solver. }
  assert (forall new,
             List.filter is_listing
               (flat_map (enrich_requests include_odds include_view) new) = []
             /\ List.filter (fun r => negb (is_listing r))
                  (flat_map (enrich_requests include_odds include_view) new)
                = flat_map (enrich_requests include_odds include_view) new)
    as Hsplit.
  { intros new.
    pose proof (enrich_requests_not_listing include_odds include_view new)
      as Hall.
    split; [apply filter_none, Hall |].
    apply filter_id. eapply List.Forall_impl; [| exact Hall].
    intros r ->. reflexivity. }
  assert (forall (a b : trace) added,
             added_from include_odds include_view (listed_events b) added ->
             added_from include_odds include_view (listed_events (a ++ b))
               added) as Hright.
  { intros a b added. apply added_from_incl. intros ev Hev.
    rewrite listed_events_app, in_app_iff. auto. }
  assert (forall (a b : trace) added,
             added_from include_odds include_view (listed_events a) added ->
             added_from include_odds include_view (listed_events (a ++ b))
               added) as Hleft.
  { intros a b added. apply added_from_incl. intros ev Hev.
    rewrite listed_events_app, in_app_iff. auto. }
  destruct (scan_type_run "ended" Ended R [] _ t eq_refl Hsome Hstart)
    as (st1 & s1 & added1 & Hrun1 & Hinv1 & Hadded1 & Hreq1 & Hfrom1).
  cbn [fst Dict.empty app] in Hadded1.
  unfold bind. cbn [for_each]. unfold bind at 1. rewrite Hrun1.
  destruct (decide (snd st1 = ∅)) as [Hdone1 | Hleft1].
  { unfold bind at 1. rewrite (scan_type_done "upcoming" st1 _ Hdone1).
    unfold ret. destruct st1 as [results not_found]. cbn [fst snd] in *.
    exists results, s1, 1%nat. split; [reflexivity |].
    split; [lia |]. rewrite Hreq1, Hadded1.
    cbn [List.filter is_listing negb].
    destruct (Hsplit (Dict.keys added1)) as [-> ->].
    split; [reflexivity |]. split; [reflexivity |].
    split; [| exact Hfrom1].
    intros _ i Hi. rewrite <- Hadded1.
    apply (scan_inv_all_found R _ (results, not_found) i Hinv1 Hdone1 Hi). }
  destruct (scan_type_run "upcoming" Upcoming R _ st1 (t ++ s1) eq_refl
              Hleft1 Hinv1)
    as (st2 & s2 & added2 & Hrun2 & Hinv2 & Hadded2 & Hreq2 & Hfrom2).
  unfold bind at 1. rewrite Hrun2.
  destruct (decide (snd st2 = ∅)) as [Hdone2 | Hleft2].
  { unfold bind at 1. rewrite (scan_type_done "inplay" st2 _ Hdone2).
    unfold ret. destruct st2 as [results not_found]. cbn [fst snd] in *.
    exists results, (s1 ++ s2), 2%nat. rewrite app_assoc.
    split; [reflexivity |]. split; [lia |].
    rewrite requests_app, !List.filter_app, Hreq1, Hreq2, Hadded2, Hadded1.
    cbn [List.filter is_listing negb]. unfold Dict.keys.
    rewrite map_app, flat_map_app. fold (Dict.keys added1) (Dict.keys added2).
    destruct (Hsplit (Dict.keys added1)) as [-> ->].
    destruct (Hsplit (Dict.keys added2)) as [-> ->].
    split; [reflexivity |]. split; [reflexivity |]. split.
    - intros _ i Hi.
      pose proof (scan_inv_all_found R _ (results, not_found) i Hinv2 Hdone2
                    Hi) as Hkey.
      cbn [fst] in Hkey. rewrite Hadded2, Hadded1 in Hkey.
      unfold Dict.keys in *. rewrite map_app in Hkey. exact Hkey.
    - apply Forall_app. split; [apply Hleft, Hfrom1 | apply Hright, Hfrom2]. }
  destruct (scan_type_run "inplay" Inplay R _ st2 ((t ++ s1) ++ s2) eq_refl
              Hleft2 Hinv2)
    as (st3 & s3 & added3 & Hrun3 & Hinv3 & Hadded3 & Hreq3 & Hfrom3).
  unfold bind at 1. rewrite Hrun3. unfold ret.
  destruct st3 as [results not_found]. cbn [fst snd] in *.
  exists results, (s1 ++ s2 ++ s3), 3%nat. rewrite !app_assoc.
  split; [reflexivity |]. split; [lia |].
  rewrite <- !app_assoc.
  rewrite !requests_app, !List.filter_app, Hreq1, Hreq2, Hreq3, Hadded3,
    Hadded2, Hadded1.
  cbn [List.filter is_listing negb]. unfold Dict.keys.
  rewrite !map_app, !flat_map_app.
  fold (Dict.keys added1) (Dict.keys added2) (Dict.keys added3).
  destruct (Hsplit (Dict.keys added1)) as [-> ->].
  destruct (Hsplit (Dict.keys added2)) as [-> ->].
  destruct (Hsplit (Dict.keys added3)) as [-> ->].
  split; [reflexivity |].
  split; [cbn [app]; rewrite <- app_assoc; reflexivity |].
  split; [lia |].
  apply Forall_app. split; [apply Forall_app; split |].
  - apply Hleft, Hfrom1.
  - apply Hright, Hleft, Hfrom2.
  - apply Hright, Hright, Hfrom3.
Qed.

Lemma bulk_request_rejected (event_ids : list py_id) (t : trace) :
  invalid_bulk_request event_ids ->
  exists msg,
    get_events_bulk backend event_ids include_odds include_view t
    = (Raise (ValueError msg), t).
Proof.
  intros [-> | Hlen]; [eexists; reflexivity |].
  unfold get_events_bulk.
  destruct (is_empty event_ids); [eexists; reflexivity |].
  destruct (Z.gtb_spec (len event_ids) 100) as [_ | Hle];
    [eexists; reflexivity |].
  unfold len in Hle. lia.
Qed.

(** X22. [get_events_bulk] raises exactly when the list of identifiers is
    empty or longer than 100: it then raises a [ValueError] with no request
    sent; otherwise it returns a mapping. *)
Theorem get_events_bulk_validation (event_ids : list py_id) (t : trace) :
  ((exists msg,
       get_events_bulk backend event_ids include_odds include_view t
       = (Raise (ValueError msg), t))
   <-> invalid_bulk_request event_ids)
  /\ (is_ok (fst (get_events_bulk backend event_ids include_odds include_view
                    t)) = false
      <-> invalid_bulk_request event_ids).
Proof.
  assert (invalid_bulk_request event_ids
          \/ ~ invalid_bulk_request event_ids) as [Hinvalid | Hvalid].
  { unfold invalid_bulk_request. destruct event_ids as [| i ids]; [auto |].
    destruct (Nat.ltb_spec 100 (length (i :: ids))); [auto |].
    right. intros [? | ?]; [discriminate | lia]. }
  - destruct (bulk_request_rejected event_ids t Hinvalid) as [msg Hrun].
    split; (split; [intros _; exact Hinvalid | intros _]).
    + exists msg. exact Hrun.
    + rewrite Hrun. reflexivity.
  - destruct (get_events_bulk_run event_ids t Hvalid)
      as (results & s & n & Hrun & _).
    rewrite Hrun. cbn [fst is_ok].
    split; (split; [| tauto]).
    + intros [msg Hraise]. discriminate.
    + discriminate.
Qed.


(** X24. Every entry of the mapping [get_events_bulk] returns is an event
    of a listing page answered during the call, filed under its identifier,
    with the same summary: at most the attached view and odds differ, and
    only the ones asked for. Without [include_view] and [include_odds] the
    values are the listed events themselves. *)
Theorem get_events_bulk_values (event_ids : list py_id) (t : trace) :
  ~ invalid_bulk_request event_ids ->
  exists (results : Dict.t EventSummary.t) (s : trace),
    get_events_bulk backend event_ids include_odds include_view t
    = (Ok results, t ++ s)
    /\ Forall
         (fun kv =>
            exists ev,
              In ev (listed_events s) /\ EventSummary.id ev = fst kv
              /\ enriched include_odds include_view ev (snd kv))
         results
    /\ (include_odds = false -> include_view = false ->
        Forall (fun kv => In (snd kv) (listed_events s)) results).
Proof.
  intros Hvalid.
  destruct (get_events_bulk_run event_ids t Hvalid)
    as (results & s & n & Hrun & _ & _ & _ & _ & Hfrom).
  exists results, s. split; [exact Hrun |]. split; [exact Hfrom |].
  intros Hodds Hview. eapply List.Forall_impl; [| exact Hfrom].
  intros kv (ev & Hev & _ & view & odds & He & Hv & Ho).
  rewrite He, (Hv Hview), (Ho Hodds). destruct ev. exact Hev.
Qed.

End BulkRun.

Lemma get_events_bulk_validation_witness :
  exists msg : string,
    get_events_bulk Sample.failing [] true true []
    = (Raise (ValueError msg), []).
Proof.
  apply (proj2 (proj1 (get_events_bulk_validation Sample.failing true true []
                         []))).
  left. reflexivity.
Defined.


Lemma get_events_bulk_values_witness :
  exists (results : Dict.t EventSummary.t) (s : trace),
    get_events_bulk (Sample.backend_of [Sample.finished "X" "3-1"] [] [])
      [IdStr "X"; IdInt 7] false false [] = (Ok results, s)
    /\ Forall (fun kv => In (snd kv) [Sample.finished "X" "3-1"]) results.
Proof.
  destruct (get_events_bulk_values
              (Sample.backend_of [Sample.finished "X" "3-1"] [] [])
              false false [IdStr "X"; IdInt 7] [])
    as (results & s & Hrun & _ & Hvalues).
  - unfold invalid_bulk_request. cbn. intros [H | H]; [discriminate | lia].
  - exists results, s. split; [exact Hrun |].
    specialize (Hvalues eq_refl eq_refl).
    vm_compute in Hrun. injection Hrun as <- <-. exact Hvalues.
Defined.

(** ** When the listings fail *)

Section ListingFailures.

Variable backend : Backend.
Variable now : Datetime.t.
Hypothesis Hfails : listing_fails backend.

Lemma failing_reply (t : trace) (ep : endpoint) (league_id : option string)
    (page : Z) :
  exists e, events backend t ep league_id page = Raise e.
Proof.
  specialize (Hfails t ep league_id page).
  destruct (events backend t ep league_id page) as [r | e];
    [discriminate | eauto].
Qed.

Lemma failing_recent_walk (player_name : string) (days max_pages : Z)
    (t : trace) :
  1 <= max_pages ->
  exists x,
    _get_recent_player_matches backend now player_name days max_pages t
    = (Ok [], t ++ [x]).
Proof.
  intros Hmax. unfold _get_recent_player_matches, while_pages.
  replace (Z.to_nat (max_pages + 1 - 1))
    with (Datatypes.S (Z.to_nat (max_pages - 1))) by lia.
  cbn [while_le]. destruct (Z.leb_spec 1 max_pages); [| lia].
  unfold bind, recent_page, bind, attempt, get_ended, list_events,
    request_events.
  change (1 <? 1) with false. cbn beta iota delta [league_param].
  destruct (failing_reply t Ended None 1) as [e ->].
  eexists. reflexivity.
Qed.

Lemma failing_tournament_walk (tournament_id match_type : string)
    (ep : endpoint) (max_pages : Z) (t : trace) :
  partition_endpoint match_type = Some ep ->
  1 <= max_pages ->
  exists x,
    _get_tournament_matches backend tournament_id match_type max_pages t
    = (Ok [], t ++ [x]).
Proof.
  intros Hep Hmax. unfold _get_tournament_matches, while_pages.
  replace (Z.to_nat (max_pages + 1 - 1))
    with (Datatypes.S (Z.to_nat (max_pages - 1))) by lia.
  cbn [while_le]. destruct (Z.leb_spec 1 max_pages); [| lia].
  unfold bind, tournament_page. unfold partition_endpoint in Hep.
  destruct (String.eqb match_type "ended");
    [| destruct (String.eqb match_type "upcoming");
       [| destruct (String.eqb match_type "live"); [| discriminate]]];
    unfold bind, attempt, get_ended, get_upcoming, get_inplay, list_events,
      request_events;
    change (1 <? 1) with false; cbn beta iota delta [league_param];
    match goal with
    | |- context [events backend t ?ep' None 1] =>
        destruct (failing_reply t ep' None 1) as [e ->]
    end;
    eexists; reflexivity.
Qed.

Lemma failing_scan_type (include_odds include_view : bool)
    (event_type : string) (ep : endpoint) (st : scan_state) (t : trace) :
  method_map backend event_type = Ok (list_events backend ep None) ->
  snd st <> ∅ ->
  exists x,
    scan_type backend include_odds include_view event_type st t
    = (Ok (st, Continue), t ++ [x]).
Proof.
  intros Hmethod Hleft. unfold scan_type.
  destruct (bool_decide_reflect (snd st = ∅)); [contradiction |].
  rewrite Hmethod. cbn [for_each].
  unfold bind, scan_page, bind, attempt, list_events, request_events.
  change (1 <? 1) with false. cbn beta iota delta [league_param].
  destruct (failing_reply t ep None 1) as [e ->].
  eexists. reflexivity.
Qed.

(** X25. On a backend whose listing requests all fail, the aggregators
    swallow the failures: with accepted parameters [get_player_history]
    returns a history without matches or head-to-head records,
    [get_tournament_complete] a tournament without matches named
    "Tournament <id>", and [get_events_bulk] an empty mapping. *)
Theorem listing_failures_are_swallowed :
  (forall player_name days include_h2h max_pages t,
      ~ invalid_history_request player_name days max_pages ->
      exists h t',
        get_player_history backend now player_name days include_h2h
          max_pages t = (Ok h, t')
        /\ PlayerMatchHistory.matches h = []
        /\ PlayerMatchHistory.h2h_records h = Dict.empty
        /\ PlayerMatchHistory.total_matches h = 0)
  /\ (forall tournament_id include_odds max_pages t,
         ~ invalid_tournament_request tournament_id max_pages ->
         exists d t',
           get_tournament_complete backend tournament_id include_odds
             max_pages t = (Ok d, t')
           /\ TournamentData.matches d = []
           /\ TournamentData.tournament_name d
              = ("Tournament " ++ py_str tournament_id)%string
           /\ TournamentData.has_odds_data d = false)
  /\ (forall event_ids include_odds include_view t,
         ~ invalid_bulk_request event_ids ->
         exists t',
           get_events_bulk backend event_ids include_odds include_view t
           = (Ok Dict.empty, t')).
Proof.
  split; [| split].
  - intros player_name days include_h2h max_pages t Hvalid.
    destruct (get_player_history_run backend now player_name days
                include_h2h max_pages t Hvalid)
      as (found & s1 & k & h2h & s2 & Hwalk & _ & _ & Hk & _ & _ & _ & _
          & Hentries & Hrun).
    destruct (failing_recent_walk player_name days max_pages t ltac:(lia))
      as [x Hfail].
    rewrite Hfail in Hwalk. injection Hwalk as <- _.
    assert (h2h = []) as ->.
    { destruct h2h as [| kv h2h]; [reflexivity |].
      destruct (Hentries kv (or_introl eq_refl)) as [[] _]. }
    rewrite Hrun. eexists. eexists. split; [reflexivity |].
    split; [reflexivity |]. split; reflexivity.
  - intros tournament_id include_odds max_pages t Hvalid.
    destruct (get_tournament_complete_run backend tournament_id include_odds
                max_pages t Hvalid)
      as (ended & upcoming & live & s1 & s2 & s3 & s4 & (_ & k & Hk & _) & _
          & _ & (t1 & t2 & t3 & He & Hu & Hl) & Hreq4 & Hrun).
    destruct (failing_tournament_walk (py_str tournament_id) "ended" Ended
                max_pages t eq_refl ltac:(lia)) as [x1 Hfail1].
    rewrite Hfail1 in He. injection He as <- <-.
    destruct (failing_tournament_walk (py_str tournament_id) "upcoming"
                Upcoming max_pages (t ++ [x1]) eq_refl ltac:(lia))
      as [x2 Hfail2].
    rewrite Hfail2 in Hu. injection Hu as <- <-.
    destruct (failing_tournament_walk (py_str tournament_id) "live" Inplay
                max_pages ((t ++ [x1]) ++ [x2]) eq_refl ltac:(lia))
      as [x3 Hfail3].
    rewrite Hfail3 in Hl. injection Hl as <- <-.
    assert (s4 = []) as ->.
    { destruct s4; [reflexivity |]. destruct include_odds; discriminate. }
    rewrite Hrun. eexists. eexists. split; [reflexivity |].
    split; [reflexivity |]. split; reflexivity.
  - intros event_ids include_odds include_view t Hvalid.
    unfold invalid_bulk_request in Hvalid. unfold get_events_bulk.
    destruct event_ids as [| i0 ids] eqn:Hids; [tauto |].
    rewrite <- Hids in *.
    assert (is_empty event_ids = false) as -> by (rewrite Hids; reflexivity).
    destruct (Z.gtb_spec (len event_ids) 100) as [Hgt | _];
      [unfold len in Hgt; lia |].
    set (st := (Dict.empty, list_to_set (map py_str event_ids))
               : scan_state).
    assert (snd st <> ∅) as Hleft.
    { subst st. cbn. rewrite Hids. cbn. set_solver. }
    destruct (failing_scan_type include_odds include_view "ended" Ended st t
                eq_refl Hleft) as [x1 Hrun1].
    destruct (failing_scan_type include_odds include_view "upcoming" Upcoming
                st (t ++ [x1]) eq_refl Hleft) as [x2 Hrun2].
    destruct (failing_scan_type include_odds include_view "inplay" Inplay
                st ((t ++ [x1]) ++ [x2]) eq_refl Hleft) as [x3 Hrun3].
    unfold bind. cbn [for_each]. unfold bind. rewrite Hrun1, Hrun2, Hrun3.
    eexists. reflexivity.
Qed.

End ListingFailures.

Lemma listing_failures_are_swallowed_witness :
  listing_fails Sample.failing
  /\ exists (h : PlayerMatchHistory.t) (t' : trace),
       get_player_history Sample.failing Sample.now "A" 30 true 10 []
       = (Ok h, t')
       /\ PlayerMatchHistory.matches h = [].
Proof.
  assert (listing_fails Sample.failing) as Hfails
      by (intros t ep league_id page; reflexivity).
  split; [exact Hfails |].
  destruct (proj1 (listing_failures_are_swallowed Sample.failing Sample.now
                     Hfails) "A" 30 true 10 [])
    as (h & t' & Hrun & Hms & _).
  - unfold invalid_history_request. intros [H | H]; [discriminate H | lia].
  - exists h, t'. auto.
Defined.

(** ** Rates of the aggregates the constructors build *)

Lemma count_if_bounds {A : Type} (p : A -> bool) (xs : list A) :
  0 <= count_if p xs <= len xs.
Proof.
  induction xs as [| x xs IH]; [unfold count_if, len; cbn; lia |].
  rewrite count_if_cons, len_cons. destruct (p x); lia.
Qed.

Lemma count_if_all {A : Type} (p : A -> bool) (xs : list A) :
  count_if p xs = len xs <-> Forall (fun x => p x = true) xs.
Proof.
  induction xs as [| x xs IH]; [split; [constructor | reflexivity] |].
  rewrite count_if_cons, len_cons.
  pose proof (count_if_bounds p xs) as Hb. split.
  - intros Hall. destruct (p x) eqn:Hx; [| lia].
    constructor; [exact Hx | apply IH; lia].
  - intros Hall. inversion Hall as [| ? ? Hx Hxs]; subst.
    rewrite Hx. apply IH in Hxs. lia.
Qed.

Lemma proportion_bounds (a b : Z) :
  0 <= a <= b -> 0 < b ->
  (0 <= inject_Z a / inject_Z b <= 1)%Q
  /\ ((inject_Z a / inject_Z b == 1)%Q <-> a = b).
Proof.
  intros Hab Hb.
  assert (0 < inject_Z b)%Q as Hpos
      by (change 0%Q with (inject_Z 0); rewrite <- Zlt_Qlt; exact Hb).
  split; [split |].
  - apply Qle_shift_div_l; [exact Hpos |].
    rewrite Qmult_0_l. change 0%Q with (inject_Z 0). rewrite <- Zle_Qle. lia.
  - apply Qle_shift_div_r; [exact Hpos |].
    rewrite Qmult_1_l, <- Zle_Qle. lia.
  - split.
    + intros Hone.
      assert (inject_Z a == inject_Z b)%Q as Heq.
      { rewrite <- (Qmult_div_r (inject_Z a) (inject_Z b))
          by (intros H0; rewrite H0 in Hpos; discriminate).
        rewrite Hone, Qmult_1_r. reflexivity. }
      exact (proj1 (inject_Z_injective a b) Heq).
    + intros ->. apply Qmult_inv_r.
      intros H0. rewrite H0 in Hpos. discriminate.
Qed.

(** X26. The rates of the aggregates the constructors build are
    proportions: [win_rate] of a history built by
    [PlayerMatchHistory.from_matches] and [completion_rate] of a tournament
    built by [TournamentData.from_matches] do not raise and lie between 0
    and 1; the completion rate is 1 exactly when there is a match and every
    match is finished. *)
Theorem built_rates_are_proportions :
  (forall player_name matches h2h_records days h,
      PlayerMatchHistory.from_matches player_name matches h2h_records days
      = Ok h ->
      exists q,
        PlayerMatchHistory.win_rate h = Ok q /\ (0 <= q <= 1)%Q)
  /\ (forall tournament_id tournament_name matches has_odds_data d,
         TournamentData.from_matches tournament_id tournament_name matches
           has_odds_data = Ok d ->
         exists q,
           TournamentData.completion_rate d = Ok q
           /\ (0 <= q <= 1)%Q
           /\ ((q == 1)%Q
               <-> matches <> []
                   /\ Forall (fun m => EventSummary.is_finished m = true)
                        matches)).
Proof.
  split.
  - intros player_name matches h2h_records days h Hh.
    destruct (history_from_matches_fields _ _ _ _ _ Hh)
      as (_ & Htotal & _ & Hwins).
    apply rcount_bounds in Hwins. unfold PlayerMatchHistory.win_rate.
    destruct (Z.eqb_spec (PlayerMatchHistory.total_matches h) 0) as [| Hn].
    + exists 0%Q. split; [reflexivity |]. split; discriminate.
    + rewrite truediv_nonzero by (try apply proportion_fits; lia).
      eexists. split; [reflexivity |].
      apply proportion_bounds; lia.
  - intros tournament_id tournament_name matches has_odds_data d Hd.
    destruct (tournament_from_matches_fields _ _ _ _ _ Hd)
      as (_ & Htotal & Hcompleted & _).
    pose proof (count_if_bounds EventSummary.is_finished matches) as Hb.
    pose proof (count_if_all EventSummary.is_finished matches) as Hall.
    unfold TournamentData.completion_rate. rewrite Htotal, Hcompleted.
    destruct (Z.eqb_spec (len matches) 0) as [H0 | Hn].
    + exists 0%Q. split; [reflexivity |]. split; [split; discriminate |].
      split; [discriminate |]. intros [Hne _].
      destruct matches; [contradiction | rewrite len_cons in H0].
      pose proof (len_nonneg matches). lia.
    + rewrite truediv_nonzero by (try apply proportion_fits; lia).
      eexists. split; [reflexivity |].
      destruct (proportion_bounds (count_if EventSummary.is_finished matches)
                  (len matches)) as [Hrange Hone]; [lia | lia |].
      split; [exact Hrange |]. rewrite Hone, Hall. split; [| tauto].
      intros Hfin. split; [| exact Hfin].
      intros ->. apply Hn. reflexivity.
Qed.

Lemma built_rates_are_proportions_witness :
  exists q : Q,
    TournamentData.completion_rate
      (TournamentData.mk "29128" "TT Cup"
         [Sample.finished "1" "3-1"; Sample.event "2" "1" None]
         [Sample.player "1" "A"; Sample.player "2" "B"] 2 1 0 1
         (Some 1753811400000000, Some 1753811400000000) false) = Ok q
    /\ (0 <= q <= 1)%Q.
Proof.
  destruct (proj2 built_rates_are_proportions "29128" "TT Cup"
              [Sample.finished "1" "3-1"; Sample.event "2" "1" None] false
              _ eq_refl) as (q & Hq & Hrange & _).
  exists q. split; [exact Hq | exact Hrange].
Defined.
